(** * Sales order dashboard backend (server.js): a shallow embedding

    The development follows the Express backend of the dashboard:
    the configuration resolver, the per-environment token cache, the
    term-query builder, the paginated order fetch of [POST /api/orders],
    the aggregator [processOrderData] and the cache-management routes.

    Conventions of the embedding.
    - A JavaScript string is a [string] of ASCII characters; comparison
      of strings is the lexicographic order on character codes, which is
      what the default comparator of [Array.prototype.sort] uses.
    - A plain JavaScript object used as a mapping is an association list
      of its own properties in enumeration order ([Object.keys] order:
      the array indices in ascending order, then the other keys as they
      were added) with pairwise distinct keys. A property read [o[k]]
      that finds no own property goes on to [Object.prototype]; an
      assignment [o[k] = v] under [__proto__] adds no property.
    - The fields of a request body are strings, as the FilterRequest of
      the data model has them; an absent property is [None] (JavaScript
      [undefined]). The term-query builder takes values of any kind.
    - Numbers of order records are exact rationals; the rounding of
      floating-point arithmetic is not part of the model.
    - Time is a number of milliseconds since the epoch, in [Z]. A
      [Date] holds such a number up to 8.64e15 in absolute value: the
      expiry of a token is what the code stores within that range.
    - A loop that may go on for ever takes a number of steps it may
      use; running out of them is an outcome of its own. *)

From Stdlib Require Import String Ascii List ZArith QArith Lia Permutation.
From Stdlib Require Import Sorted OrdersEx.
From stdpp Require Import base option list gmap strings pretty.

Local Open Scope string_scope.
Local Open Scope list_scope.

(** ** JavaScript values used by the server *)

Module Js.

(** Truthiness of a string: only the empty string is falsy. *)
Definition truthy (s : string) : bool := negb (String.eqb s "").

(** [v || d] for a possibly absent string [v]. *)
Definition or_else (v : option string) (d : string) : string :=
  match v with
  | Some s => if truthy s then s else d
  | None => d
  end.

(** [!v] for a possibly absent string [v]. *)
Definition falsy (v : option string) : bool :=
  match v with
  | Some s => negb (truthy s)
  | None => true
  end.

(** An object as an association list in enumeration order. *)
Definition Obj (V : Type) : Type := list (string * V).

Definition keys {V} (o : Obj V) : list string := map fst o.

Fixpoint get {V} (k : string) (o : Obj V) : option V :=
  match o with
  | [] => None
  | (k', v) :: o' => if String.eqb k k' then Some v else get k o'
  end.

(** The properties that every plain object inherits from
    [Object.prototype]. *)
Definition inherited (k : string) : bool :=
  existsb (String.eqb k)
    [ "constructor"; "__defineGetter__"; "__defineSetter__"; "hasOwnProperty";
      "__lookupGetter__"; "__lookupSetter__"; "isPrototypeOf";
      "propertyIsEnumerable"; "toString"; "valueOf"; "__proto__";
      "toLocaleString" ].

(** What a property read [o[k]] finds: an own property; or a property
    of the prototype, which is a function (the prototype itself under
    [__proto__]), truthy and not a string; or nothing ([undefined]). *)
Inductive Read (V : Type) : Type :=
| Own (v : V)
| Inherited
| Absent.

Arguments Own {V} v.
Arguments Inherited {V}.
Arguments Absent {V}.

Definition read {V} (k : string) (o : Obj V) : Read V :=
  match get k o with
  | Some v => Own v
  | None => if inherited k then Inherited else Absent
  end.

(** A value that may be something else than a string: of a number, a
    boolean, [null], an object or a function the code looks at the
    truthiness only. *)
Inductive Val : Type :=
| Str (s : string)
| Other (t : bool).

(** An object of strings, seen as an object of values. *)
Definition lift (o : Obj string) : Obj Val :=
  map (fun kv => (fst kv, Str (snd kv))) o.

Definition digit (c : ascii) : option N :=
  let n := N_of_ascii c in
  if ((48 <=? n) && (n <=? 57))%N then Some (n - 48)%N else None.

(** The number written by a text of decimal digits. *)
Fixpoint number (acc : N) (s : string) : option N :=
  match s with
  | EmptyString => Some acc
  | String c s' =>
      match digit c with
      | Some d => number (10 * acc + d)%N s'
      | None => None
      end
  end.

(** An array index: a key that is the canonical decimal text of an
    integer from 0 to 2^32 - 2. *)
Definition index (k : string) : option N :=
  match number 0 k with
  | Some n =>
      if String.eqb (pretty n) k && (n <=? 4294967294)%N then Some n else None
  | None => None
  end.

(** The property [k] of an object that has it gets the value [v]; the
    property keeps its place. *)
Fixpoint replace {V} (k : string) (v : V) (o : Obj V) : Obj V :=
  match o with
  | [] => []
  | (k', v') :: o' =>
      if String.eqb k k' then (k, v) :: o' else (k', v') :: replace k v o'
  end.

(** A new array index [n] takes its place among the array indices,
    which come first and in ascending order. *)
Fixpoint place {V} (n : N) (k : string) (v : V) (o : Obj V) : Obj V :=
  match o with
  | [] => [(k, v)]
  | (k', v') :: o' =>
      match index k' with
      | Some n' =>
          if (n' <? n)%N then (k', v') :: place n k v o' else (k, v) :: o
      | None => (k, v) :: o
      end
  end.

(** The definition of the own property [k], as an object literal, a
    spread or a rest pattern does it: an existing key keeps its place,
    a new array index goes among the array indices, any other new key
    goes last. *)
Definition define {V} (k : string) (v : V) (o : Obj V) : Obj V :=
  match get k o with
  | Some _ => replace k v o
  | None =>
      match index k with
      | Some n => place n k v o
      | None => o ++ [(k, v)]
      end
  end.

(** The order of enumeration: before an array index come smaller
    array indices only. *)
Definition before (a b : string) : Prop :=
  match index b with
  | Some nb =>
      match index a with
      | Some na => (na < nb)%N
      | None => False
      end
  | None => True
  end.

Definition ordered (ks : list string) : Prop := StronglySorted before ks.

(** The assignment [o[k] = v]. Under [__proto__] it reaches the setter
    of [Object.prototype], which gives the object no own property. *)
Definition assign {V} (k : string) (v : V) (o : Obj V) : Obj V :=
  if String.eqb k "__proto__" then o else define k v o.

(** [Object.keys(o).forEach(k => body(k, o[k]))], threading what the
    body updates: each entry is visited once, in enumeration order. *)
Definition forEach {V A} (body : A -> string -> V -> A) (o : Obj V) (init : A) : A :=
  fold_left (fun acc kv => body acc (fst kv) (snd kv)) o init.

(** Objects have pairwise distinct keys. *)
Definition wf {V} (o : Obj V) : Prop := NoDup (keys o).

(** Order of the default sort comparator: by character codes. *)
Definition leb (a b : string) : bool :=
  match String_as_OT.compare a b with
  | Gt => false
  | _ => true
  end.

Fixpoint insert_sorted (x : string) (l : list string) : list string :=
  match l with
  | [] => [x]
  | y :: l' => if leb x y then x :: l else y :: insert_sorted x l'
  end.

(** [Array.prototype.sort()] without a comparator, on strings. *)
Fixpoint sort (l : list string) : list string :=
  match l with
  | [] => []
  | x :: l' => insert_sorted x (sort l')
  end.

(** A list in the order of the comparator. *)
Definition sorted (l : list string) : Prop :=
  StronglySorted (fun a b => leb a b = true) l.

(** [Array.prototype.join(sep)]. *)
Definition join (sep : string) (l : list string) : string :=
  String.concat sep l.

(** White space removed by [String.prototype.trim], among the ASCII
    characters: TAB, LF, VT, FF, CR, SP. *)
Definition is_white (c : ascii) : bool :=
  let n := nat_of_ascii c in
  ((9 <=? n)%nat && (n <=? 13)%nat) || (n =? 32)%nat.

Fixpoint trim_start (s : string) : string :=
  match s with
  | EmptyString => EmptyString
  | String c s' => if is_white c then trim_start s' else s
  end.

(** Drops trailing white space: a character is kept when it is not
    white or when something is left after it. *)
Fixpoint trim_end (s : string) : string :=
  match s with
  | EmptyString => EmptyString
  | String c s' =>
      match trim_end s' with
      | EmptyString => if is_white c then EmptyString else String c EmptyString
      | r => String c r
      end
  end.

Definition trim (s : string) : string := trim_end (trim_start s).

Definition upper_char (c : ascii) : ascii :=
  let n := nat_of_ascii c in
  if ((97 <=? n)%nat && (n <=? 122)%nat)%bool then ascii_of_nat (n - 32) else c.

Definition lower_char (c : ascii) : ascii :=
  let n := nat_of_ascii c in
  if ((65 <=? n)%nat && (n <=? 90)%nat)%bool then ascii_of_nat (n + 32) else c.

Fixpoint map_string (f : ascii -> ascii) (s : string) : string :=
  match s with
  | EmptyString => EmptyString
  | String c s' => String (f c) (map_string f s')
  end.

Definition toUpperCase (s : string) : string := map_string upper_char s.
Definition toLowerCase (s : string) : string := map_string lower_char s.

(** [s.startsWith(p)] *)
Definition startsWith (p s : string) : bool := String.prefix p s.

(** [s.substring(n)]: what is left after the first [n] characters. *)
Fixpoint drop_string (n : nat) (s : string) : string :=
  match n, s with
  | O, _ => s
  | S n', String _ s' => drop_string n' s'
  | S _, EmptyString => EmptyString
  end.

(** [s.replace(pat, '')]: the first occurrence of [pat] is removed. *)
Fixpoint remove_first (pat s : string) : string :=
  if String.prefix pat s then drop_string (String.length pat) s
  else match s with
       | EmptyString => EmptyString
       | String c s' => String c (remove_first pat s')
       end.

(** [s.split(sep)] for a one-character separator. *)
Fixpoint split (sep : ascii) (s : string) : list string :=
  match s with
  | EmptyString => [EmptyString]
  | String c s' =>
      if Ascii.eqb c sep then EmptyString :: split sep s'
      else match split sep s' with
           | h :: t => String c h :: t
           | [] => [String c EmptyString]
           end
  end.

(** [s.replace(/a/g, b)] for characters [a], [b]. *)
Definition replace_char (a b : ascii) (s : string) : string :=
  map_string (fun c => if Ascii.eqb c a then b else c) s.

(** A word character of a regular expression: [A-Za-z0-9_]. *)
Definition is_word (c : ascii) : bool :=
  let n := nat_of_ascii c in
  ((48 <=? n)%nat && (n <=? 57)%nat) || ((65 <=? n)%nat && (n <=? 90)%nat)
  || ((97 <=? n)%nat && (n <=? 122)%nat) || (n =? 95)%nat.

(** [s.replace(/\b\w/g, l => l.toUpperCase())]: the first character of
    every word goes to upper case; [prev] tells whether the character
    before is a word character. *)
Fixpoint capitalize_words (prev : bool) (s : string) : string :=
  match s with
  | EmptyString => EmptyString
  | String c s' =>
      let w := is_word c in
      String (if w && negb prev then upper_char c else c) (capitalize_words w s')
  end.

(** The characters of a string. *)
Fixpoint chars (s : string) : list ascii :=
  match s with
  | EmptyString => []
  | String c s' => c :: chars s'
  end.

(** [s] contains [sub] (as [String.prototype.includes]). *)
Fixpoint includes (sub s : string) : bool :=
  String.prefix sub s ||
  match s with
  | EmptyString => false
  | String _ s' => includes sub s'
  end.

End Js.

(** ** Cache key of a request *)

(** [`${key}:${requestData[key] || ''}`] *)
Definition filterValue (requestData : Js.Obj string) (key : string) : string :=
  key ++ ":" ++ Js.or_else (Js.get key requestData) "".

Definition generateCacheKey
    (startDate endDate : string) (requestData : Js.Obj string)
    (environment : string) : string :=
  let filterValues :=
    Js.join "_" (map (filterValue requestData) (Js.sort (Js.keys requestData))) in
  "orders_" ++ environment ++ "_" ++ startDate ++ "_" ++ endDate ++ "_" ++ filterValues.

(** ** Configuration resolver *)

(** [process.env]: the variables of the process, by name. *)
Definition ProcessEnv : Type := Js.Obj string.

Definition TERM_QUERY_FIELD_ : string := "TERM_QUERY_FIELD_".

(** Scans the process configuration for [TERM_QUERY_FIELD_] variables:
    the rest of the name, in lower case, is the field key and the value
    is the remote field. A variable with an empty value declares nothing,
    and neither does one whose field key is [__proto__]. *)
Definition getConfigurableTermQueryFields (env : ProcessEnv) : Js.Obj string :=
  Js.forEach
    (fun fields key fieldValue =>
       if Js.startsWith TERM_QUERY_FIELD_ key then
         let fieldKey := Js.toLowerCase (Js.remove_first TERM_QUERY_FIELD_ key) in
         if Js.truthy fieldValue then Js.assign fieldKey fieldValue fields else fields
       else fields)
    env [].

Definition valuesKey (fieldKey : string) : string :=
  "TERM_QUERY_FIELD_" ++ Js.toUpperCase fieldKey ++ "_VALUES".

(** The permitted values of a field: the comma-separated items of its
    [_VALUES] variable, trimmed, without the empty ones; no variable or
    a blank one gives the empty list. *)
Definition getFieldOptionsFromEnv (env : ProcessEnv) (fieldKey : string)
    : list string :=
  let envKey := valuesKey fieldKey in
  match Js.get envKey env with
  | Some envValue =>
      if Js.truthy envValue && negb (String.eqb (Js.trim envValue) "") then
        List.filter (fun option => negb (String.eqb option ""))
                    (map Js.trim (Js.split "," envValue))
      else []
  | None => []
  end.

(** ** GET /api/config/fields *)

(** The entry of a field. Its label is a text, or the function that
    the label table inherits under the field key. *)
Record FieldInfo : Type := mkFieldInfo {
  apiField : string;
  label : Js.Val;
  options : list string
}.

Record FieldsResponse : Type := mkFieldsResponse {
  fields_status : nat;
  success : bool;
  fields : Js.Obj FieldInfo;
  message : string
}.

Definition fieldLabels : Js.Obj string :=
  [ ("order_type", "Order Type");
    ("customer_type", "Customer Type");
    ("channel", "Channel");
    ("region", "Region");
    ("store_id", "Store ID") ].

(** [fieldLabels[fieldKey] || fieldKey.replace(/_/g, ' ').replace(/\b\w/g, upper)] *)
Definition fieldLabel (fieldKey : string) : Js.Val :=
  let derived := Js.capitalize_words false (Js.replace_char "_" " " fieldKey) in
  match Js.read fieldKey fieldLabels with
  | Js.Own known => Js.Str (if Js.truthy known then known else derived)
  | Js.Inherited => Js.Other true
  | Js.Absent => Js.Str derived
  end.

(** The permitted values declared for a field, in the words of the
    configuration: the items of the comma-separated
    [TERM_QUERY_FIELD_<KEY>_VALUES] variable of the field, without the
    white space around them, the empty items left out; none when there
    is no such variable. *)
Definition declaredValues (env : ProcessEnv) (fieldKey : string) : list string :=
  match Js.get ("TERM_QUERY_FIELD_" ++ Js.toUpperCase fieldKey ++ "_VALUES") env with
  | Some declared =>
      List.filter (fun item => negb (String.eqb item ""))
                  (map Js.trim (Js.split "," declared))
  | None => []
  end.

(** The [forEach] of the handler over the configured fields, none of
    which has the key [__proto__]. *)
Definition availableFieldsOf (env : ProcessEnv) (configurableFields : Js.Obj string)
    : Js.Obj FieldInfo :=
  Js.forEach
    (fun availableFields fieldKey fieldName =>
       let options := getFieldOptionsFromEnv env fieldKey in
       if (0 <? List.length options)%nat then
         Js.assign fieldKey (mkFieldInfo fieldName (fieldLabel fieldKey) options)
                   availableFields
       else availableFields)
    configurableFields [].

Definition getConfigFields (env : ProcessEnv) : FieldsResponse :=
  let configurableFields := getConfigurableTermQueryFields env in
  mkFieldsResponse 200 true (availableFieldsOf env configurableFields)
                   "Available configurable fields retrieved successfully".

(** ** Term query builder *)

Record TermQuery : Type := mkTermQuery {
  tq_fields : list string;
  tq_operator : string;
  tq_values : list string
}.

Definition statusFilter : TermQuery :=
  mkTermQuery ["status"] "not_in" ["created"; "failed"].

(** The request property read for a configured field (the [switch]). *)
Definition requestProperty (fieldKey : string) : string :=
  if String.eqb fieldKey "order_type" then "orderType"
  else if String.eqb fieldKey "customer_type" then "customerType"
  else if String.eqb fieldKey "channel" then "channel"
  else if String.eqb fieldKey "region" then "region"
  else if String.eqb fieldKey "store_id" then "storeId"
  else fieldKey.

(** [fieldValue && fieldValue.trim() !== ''] for a string. *)
Definition provided (fieldValue : string) : bool :=
  Js.truthy fieldValue && negb (String.eqb (Js.trim fieldValue) "").

(** The builder gives the list of term queries, or [None] for the
    TypeError of [fieldValue.trim()] on a truthy value that is not a
    string and so has no such method: the error ends the [forEach]. *)
Definition buildTermQueries
    (requestData : Js.Obj Js.Val) (configurableFields : Js.Obj string)
    : option (list TermQuery) :=
  Js.forEach
    (fun result fieldKey fieldName =>
       termQueries ← result;
       match Js.read (requestProperty fieldKey) requestData with
       | Js.Own (Js.Str fieldValue) =>
           if provided fieldValue then
             Some (termQueries ++ [mkTermQuery [fieldName] "is" [fieldValue]])
           else Some termQueries
       | Js.Own (Js.Other t) => if t then None else Some termQueries
       | Js.Inherited => None
       | Js.Absent => Some termQueries
       end)
    configurableFields (Some [statusFilter]).

(** What the builder is to emit for one configured field, in the words
    of its description: an equality predicate against the remote name
    when the request supplies a non-blank value for the field. *)
Definition nonBlank (v : string) : bool := negb (String.eqb (Js.trim v) "").

Definition equalityPredicate
    (requestData : Js.Obj Js.Val) (field : string * string) : list TermQuery :=
  match Js.get (requestProperty (fst field)) requestData with
  | Some (Js.Str v) => if nonBlank v then [mkTermQuery [snd field] "is" [v]] else []
  | _ => []
  end.

(** The request property of a field can be taken for a text: what the
    request holds for the field is a string or a falsy value, or the
    request holds nothing and the property names nothing that objects
    inherit. *)
Definition textOrNothing (requestData : Js.Obj Js.Val) (fieldKey : string) : bool :=
  match Js.get (requestProperty fieldKey) requestData with
  | Some (Js.Str _) => true
  | Some (Js.Other t) => negb t
  | None => negb (Js.inherited (requestProperty fieldKey))
  end.

(** ** Order records *)

Record ProductItem : Type := mkProductItem { quantity : Q }.

Record PaymentInstrument : Type := mkPaymentInstrument {
  payment_method_id : option string
}.

Record Order : Type := mkOrder {
  creation_date : string;
  order_total : Q;
  product_items : list ProductItem;
  guest : bool;
  payment_instruments : option (list PaymentInstrument)
}.

(** One hit of the order search: the order is under [data]. *)
Record Hit : Type := mkHit { data : Order }.

(** ** Aggregator *)

Record DayMetrics : Type := mkDayMetrics {
  orders : nat;
  revenue : Q;
  units : Q
}.

Record CustomerBreakdown : Type := mkCustomerBreakdown {
  new : nat;
  returning : nat;
  registered : nat;
  unregistered : nat
}.

Record Kpis : Type := mkKpis {
  totalOrders : nat;
  totalRevenue : Q;
  totalUnits : Q;
  avgOrderValue : Q;
  avgUnitsPerTransaction : Q
}.

Record AggregateResult : Type := mkAggregateResult {
  dailyMetrics : Js.Obj DayMetrics;
  customerBreakdown : CustomerBreakdown;
  kpis : Kpis
}.

(** What the [forEach] of the aggregator updates. *)
Record Tally : Type := mkTally {
  t_dailyMetrics : Js.Obj DayMetrics;
  t_customerBreakdown : CustomerBreakdown;
  t_totalRevenue : Q;
  t_totalUnits : Q
}.

(** The payment-method filter: the first payment instrument of the order
    carries the selected method. *)
Definition paysWith (paymentMethod : string) (hit : Hit) : bool :=
  match payment_instruments (data hit) with
  | Some (first :: _) =>
      match payment_method_id first with
      | Some id => String.eqb id paymentMethod
      | None => false
      end
  | _ => false
  end.

Definition filterHits (hits : list Hit) (paymentMethod : option string) : list Hit :=
  match paymentMethod with
  | Some pm =>
      if Js.truthy pm && negb (String.eqb (Js.trim pm) "")
      then List.filter (paysWith pm) hits
      else hits
  | None => hits
  end.

(** [order.creation_date.split('T')[0]] *)
Definition dateOf (order : Order) : string :=
  List.hd EmptyString (Js.split "T" (creation_date order)).

(** [order.product_items.reduce((sum, item) => sum + item.quantity, 0)] *)
Definition orderUnitsOf (order : Order) : Q :=
  fold_left (fun sum item => (sum + quantity item)%Q) (product_items order) 0%Q.

(** The body of the [forEach] over the filtered hits. A date that
    names a property of [Object.prototype] gets no entry: the read
    [dailyMetrics[date]] finds the inherited value, and the additions
    go to that value. *)
Definition tallyHit (t : Tally) (hit : Hit) : Tally :=
  let order := data hit in
  let date := dateOf order in
  let orderUnits := orderUnitsOf order in
  let add (day : DayMetrics) :=
    mkDayMetrics (orders day + 1)
                 (revenue day + order_total order)%Q
                 (units day + orderUnits)%Q in
  let dailyMetrics :=
    match Js.read date (t_dailyMetrics t) with
    | Js.Own day => Js.replace date (add day) (t_dailyMetrics t)
    | Js.Inherited => t_dailyMetrics t
    | Js.Absent => Js.assign date (add (mkDayMetrics 0 0 0)) (t_dailyMetrics t)
    end in
  let cb := t_customerBreakdown t in
  let cb' :=
    if guest order
    then mkCustomerBreakdown (new cb + 1) (returning cb) (registered cb)
                             (unregistered cb + 1)
    else mkCustomerBreakdown (new cb) (returning cb + 1) (registered cb + 1)
                             (unregistered cb) in
  mkTally dailyMetrics cb'
          (t_totalRevenue t + order_total order)%Q
          (t_totalUnits t + orderUnits)%Q.

Definition emptyTally : Tally :=
  mkTally [] (mkCustomerBreakdown 0 0 0 0) 0 0.

(** [a / n] for a count [n]. A rational cannot hold what JavaScript
    gives for a division by zero (NaN or an infinity): the quotient is
    [None] then. *)
Definition divide (a : Q) (n : nat) : option Q :=
  match n with
  | O => None
  | S _ => Some (a / inject_Z (Z.of_nat n))%Q
  end.

(** [totalOrders > 0 ? total / totalOrders : 0] *)
Definition average (total : Q) (totalOrders : nat) : option Q :=
  if (0 <? totalOrders)%nat then divide total totalOrders else Some 0%Q.

(** The aggregate of a record set, or [None] when a division by zero
    was met on the way. *)
Definition processOrderData (hits : list Hit) (paymentMethod : option string)
    : option AggregateResult :=
  let filteredHits := filterHits hits paymentMethod in
  let totalOrders := List.length filteredHits in
  let t := fold_left tallyHit filteredHits emptyTally in
  avgOrderValue ← average (t_totalRevenue t) totalOrders;
  avgUnitsPerTransaction ← average (t_totalUnits t) totalOrders;
  Some (mkAggregateResult
          (t_dailyMetrics t)
          (t_customerBreakdown t)
          (mkKpis totalOrders (t_totalRevenue t) (t_totalUnits t)
                  avgOrderValue avgUnitsPerTransaction)).

(** The number of guest orders and of the other orders of a record set. *)
Definition guests (hits : list Hit) : nat :=
  List.length (List.filter (fun hit => guest (data hit)) hits).

Definition nonGuests (hits : list Hit) : nat :=
  List.length (List.filter (fun hit => negb (guest (data hit))) hits).

(** ** Response cache *)

Module NodeCache.

(** Modelled from the spec: the response cache is an instance of the
    node-cache package, a dependency whose code is not part of the
    repository. An entry is a value with the time it was stored at and
    its time to live. *)
Record Entry : Type := mkEntry {
  value : list Hit;
  insertedAt : Z;
  ttl : Z
}.

(** Modelled from the spec: the store of the entries by key, with the
    cumulative hit and miss counts of its statistics. *)
Record t : Type := mkCache {
  entries : gmap string Entry;
  hits : nat;
  misses : nat
}.

(** [stdTTL: 1800] seconds, in milliseconds. *)
Definition stdTTL : Z := 1800 * 1000.

Definition empty : t := mkCache ∅ 0 0.

(** Modelled from the spec: an entry is stale once its time to live
    has elapsed. *)
Definition expired (now : Z) (e : Entry) : bool :=
  (insertedAt e + ttl e <? now)%Z.

(** Modelled from the spec: [get(key)] gives the stored value, or
    nothing when the key is absent or its entry is stale (expiry is
    checked at read time); it counts a hit or a miss. *)
Definition get (key : string) (now : Z) (c : t) : option (list Hit) * t :=
  match entries c !! key with
  | Some e =>
      if expired now e
      then (None, mkCache (entries c) (hits c) (misses c + 1))
      else (Some (value e), mkCache (entries c) (hits c + 1) (misses c))
  | None => (None, mkCache (entries c) (hits c) (misses c + 1))
  end.

(** Modelled from the spec: [set(key, value)] stores with the fixed
    time to live and overwrites an entry of that key. *)
Definition set (key : string) (v : list Hit) (now : Z) (c : t) : t :=
  mkCache (<[key := mkEntry v now stdTTL]> (entries c)) (hits c) (misses c).

(** Modelled from the spec: [keys()] lists the stored keys. *)
Definition keys (c : t) : list string := (map_to_list (entries c)).*1.

(** Modelled from the spec: [flushAll()] removes every entry. *)
Definition flushAll (c : t) : t := mkCache ∅ (hits c) (misses c).

(** Modelled from the spec: [del(key)] removes exactly that key if it
    is present and gives the number of entries removed. *)
Definition del (key : string) (c : t) : nat * t :=
  match entries c !! key with
  | Some _ => (1%nat, mkCache (delete key (entries c)) (hits c) (misses c))
  | None => (0%nat, c)
  end.

End NodeCache.

(** ** Token cache *)

(** A slot of the token cache. The expiry is the time of the [Date]
    that the code stores; the slot follows the code while that time is
    within the range of a [Date]. *)
Record TokenSlot : Type := mkTokenSlot {
  accessToken : option string;
  tokenExpiresAt : option Z
}.

(** The two slots of [tokenCache]; no other property is ever added. *)
Record TokenCache : Type := mkTokenCache {
  DEV : TokenSlot;
  PRD : TokenSlot
}.

(** A time that the clock of the server shows and a [Date] holds: from
    the epoch to 8.64e15 milliseconds after it. Numbers of this size
    are added and compared exactly. *)
Definition clockTime (t : Z) : Prop := (0 <= t <= 8640000000000000)%Z.

Definition emptySlot : TokenSlot := mkTokenSlot None None.

Definition initialTokenCache : TokenCache := mkTokenCache emptySlot emptySlot.

(** [tokenCache[cacheKey]]: [None] is JavaScript's [undefined]. *)
Definition slotOf (tokenCache : TokenCache) (cacheKey : string) : option TokenSlot :=
  if String.eqb cacheKey "DEV" then Some (DEV tokenCache)
  else if String.eqb cacheKey "PRD" then Some (PRD tokenCache)
  else None.

(** Writing through the slot object read by [slotOf]. *)
Definition setSlot (tokenCache : TokenCache) (cacheKey : string) (s : TokenSlot)
    : TokenCache :=
  if String.eqb cacheKey "DEV" then mkTokenCache s (PRD tokenCache)
  else if String.eqb cacheKey "PRD" then mkTokenCache (DEV tokenCache) s
  else tokenCache.

(** [envCache.accessToken && envCache.tokenExpiresAt && new Date() < envCache.tokenExpiresAt] *)
Definition tokenValid (envCache : TokenSlot) (now : Z) : bool :=
  match accessToken envCache, tokenExpiresAt envCache with
  | Some token, Some expiresAt => Js.truthy token && (now <? expiresAt)%Z
  | _, _ => false
  end.

(** ** Environment configuration *)

Record EnvironmentConfig : Type := mkEnvironmentConfig {
  apiBaseUrl : option string;
  clientId : option string;
  authHeader : option string
}.

Definition getEnvironmentConfig (processEnv : ProcessEnv) (environment : option string)
    : EnvironmentConfig :=
  let env := Js.or_else environment "DEV" in
  let prefix := Js.toUpperCase env in
  mkEnvironmentConfig
    (Js.get ("API_BASE_URL_" ++ prefix) processEnv)
    (Js.get ("CLIENT_ID_" ++ prefix) processEnv)
    (Js.get ("AUTH_HEADER_" ++ prefix) processEnv).

(** ** The remote system and the state of the server *)

Record SearchPayload : Type := mkSearchPayload {
  range_from : string;
  range_to : string;
  must : list TermQuery;
  count : nat;
  start : nat
}.

Definition withStart (p : SearchPayload) (s : nat) : SearchPayload :=
  mkSearchPayload (range_from p) (range_to p) (must p) (count p) s.

Inductive Request : Type :=
| TokenRequest (url : string) (authorization : option string)
| SearchRequest (url : string) (bearer : string) (payload : SearchPayload).

(** What the OAuth endpoint answers: a token and its lifetime in
    seconds, or a failure of the request. *)
Inductive TokenReply : Type :=
| TokenGranted (access_token : string) (expires_in : Z)
| TokenRefused.

(** What the order search answers: a page of hits with the total the
    server reports, or a failure of the request. *)
Inductive SearchReply : Type :=
| Page (hits : list Hit) (total : Z)
| SearchFailed.

(** What lies outside the server during one request: the process
    configuration, the readings of the clock, and the remote system.
    The order search answers the [n]-th page request of a fetch from
    its payload; nothing is assumed about its answers. *)
Record World : Type := mkWorld {
  processEnv : ProcessEnv;
  clock_lookup : Z;
  clock_token : Z;
  clock_renew : Z;
  clock_store : Z;
  oauth : string -> option string -> TokenReply;
  order_search : nat -> SearchPayload -> SearchReply
}.

(** A request sent to the remote system, and whether it succeeded. *)
Record Exchange : Type := mkExchange {
  sent : Request;
  succeeded : bool
}.

Record ServerState : Type := mkServerState {
  tokenCache : TokenCache;
  orderCache : NodeCache.t;
  network : list Exchange
}.

Inductive JsError : Type :=
| TypeError
| Error (message : string)
| AxiosError.

(** ** Computations of the server *)

(** The outcome of running a piece of the server: a value, a thrown
    error, or no outcome within the steps allowed. *)
Inductive Outcome (A : Type) : Type :=
| Val (a : A)
| Throw (e : JsError)
| Unfinished.

Arguments Val {A} a.
Arguments Throw {A} e.
Arguments Unfinished {A}.

Definition M (A : Type) : Type := ServerState -> Outcome A * ServerState.

Definition ret {A} (a : A) : M A := fun st => (Val a, st).

Definition throw {A} (e : JsError) : M A := fun st => (Throw e, st).

Definition unfinished {A} : M A := fun st => (Unfinished, st).

Definition bind {A B} (m : M A) (k : A -> M B) : M B :=
  fun st =>
    match m st with
    | (Val a, st') => k a st'
    | (Throw e, st') => (Throw e, st')
    | (Unfinished, st') => (Unfinished, st')
    end.

(** [try { m } catch (error) { handler }] *)
Definition try_catch {A} (m : M A) (handler : JsError -> M A) : M A :=
  fun st =>
    match m st with
    | (Throw e, st') => handler e st'
    | r => r
    end.

(** The computations form a monad: [x ← m; k] runs [m] and then [k]. *)
#[global] Instance M_ret : MRet M := @ret.
#[global] Instance M_bind : MBind M := fun A B k m => bind m k.

(** The value of a computation that may have thrown. *)
Definition orThrow {A} (e : JsError) (r : option A) : M A :=
  match r with
  | Some a => ret a
  | None => throw e
  end.

Definition getState : M ServerState := fun st => (Val st, st).

Definition record (x : Exchange) : M unit :=
  fun st => (Val tt, mkServerState (tokenCache st) (orderCache st) (network st ++ [x])).

Definition putTokenCache (tc : TokenCache) : M unit :=
  fun st => (Val tt, mkServerState tc (orderCache st) (network st)).

Definition putOrderCache (c : NodeCache.t) : M unit :=
  fun st => (Val tt, mkServerState (tokenCache st) c (network st)).

(** [await axios.post(url, params, { headers })] for the token. *)
Definition postToken (w : World) (url : string) (authorization : option string)
    : M (string * Z) :=
  match oauth w url authorization with
  | TokenGranted access_token expires_in =>
      record (mkExchange (TokenRequest url authorization) true);;
      ret (access_token, expires_in)
  | TokenRefused =>
      record (mkExchange (TokenRequest url authorization) false);;
      throw AxiosError
  end.

(** [await axios.post(url, orderSearchPayload, { headers })] for the
    [n]-th page of a fetch. *)
Definition postSearch (w : World) (n : nat) (url bearer : string)
    (payload : SearchPayload) : M (list Hit * Z) :=
  match order_search w n payload with
  | Page hits total =>
      record (mkExchange (SearchRequest url bearer payload) true);;
      ret (hits, total)
  | SearchFailed =>
      record (mkExchange (SearchRequest url bearer payload) false);;
      throw AxiosError
  end.

(** A value inside a template literal. *)
Definition shown (v : option string) : string := default "undefined" v.

(** ** Token acquisition *)

Definition tokenErrorMessage (cacheKey : string) : string :=
  "Could not retrieve access token for " ++ cacheKey ++ " environment.".

Definition getAccessToken (w : World) (environment : option string) : M string :=
  let env := Js.or_else environment "DEV" in
  let cacheKey := Js.toUpperCase env in
  st ← getState;
  match slotOf (tokenCache st) cacheKey with
  | None => throw TypeError
  | Some envCache =>
      if tokenValid envCache (clock_token w) then
        ret (default "" (accessToken envCache))
      else
        try_catch
          (let config := getEnvironmentConfig (processEnv w) (Some env) in
           reply ← postToken w
                      (shown (apiBaseUrl config)
                       ++ "/dw/oauth2/access_token?client_id="
                       ++ shown (clientId config))
                      (authHeader config);
           let '(access_token, expires_in) := reply in
           st' ← getState;
           putTokenCache
             (setSlot (tokenCache st') cacheKey
                (mkTokenSlot (Some access_token)
                             (Some (clock_renew w + (expires_in - 60) * 1000)%Z)));;
           ret access_token)
          (fun _ => throw (Error (tokenErrorMessage cacheKey)))
  end.

(** ** HTTP responses *)

Inductive Body : Type :=
| ErrorBody (error : string)
| HitsBody (hits : list Hit)
| ClearedBody (message : string) (clearedKeys : nat)
| DeletedBody (message : string) (deleted : bool).

Record Response : Type := mkResponse {
  status : nat;
  body : Body
}.

(** ** POST /api/orders *)

Definition pageSize : nat := 200.

(** The [do ... while] of the handler, from the [n]-th page request on.
    Each turn of the loop takes one unit of [fuel]. *)
Fixpoint fetchPages (w : World) (fuel : nat) (url bearer : string)
    (orderSearchPayload : SearchPayload)
    (n : nat) (allHits : list Hit) (start : nat) : M (list Hit * Z) :=
  match fuel with
  | O => unfinished
  | S fuel' =>
      responseData ← postSearch w n url bearer (withStart orderSearchPayload start);
      let '(hits, total) := responseData in
      let allHits := allHits ++ hits in
      let start := (start + List.length hits)%nat in
      if (Z.of_nat start <? total)%Z && (Z.of_nat (List.length allHits) <? total)%Z
      then fetchPages w fuel' url bearer orderSearchPayload (S n) allHits start
      else ret (allHits, total)
  end.

(** [const { startDate, endDate, environment, ...otherFilters } = req.body] *)
Definition otherFiltersOf (body : Js.Obj string) : Js.Obj string :=
  List.filter
    (fun kv => negb (String.eqb (fst kv) "startDate")
               && negb (String.eqb (fst kv) "endDate")
               && negb (String.eqb (fst kv) "environment"))
    body.

(** [{ orderType: otherFilters.orderType || 'Prepaid', ...otherFilters }] *)
Definition requestDataOf (otherFilters : Js.Obj string) : Js.Obj string :=
  Js.forEach (fun o k v => Js.define k v o) otherFilters
    [("orderType", Js.or_else (Js.get "orderType" otherFilters) "Prepaid")].

(** The body of the [try] block, after the check of the dates. *)
Definition fetchOrders (w : World) (fuel : nat)
    (startDate endDate : string) (environment : option string)
    (otherFilters : Js.Obj string) : M Response :=
  let selectedEnvironment := Js.or_else environment "DEV" in
  let requestData := requestDataOf otherFilters in
  let configurableFields := getConfigurableTermQueryFields (processEnv w) in
  let cacheKey := generateCacheKey startDate endDate requestData selectedEnvironment in
  st ← getState;
  let '(cachedData, cache) := NodeCache.get cacheKey (clock_lookup w) (orderCache st) in
  putOrderCache cache;;
  match cachedData with
  | Some hits => ret (mkResponse 200 (HitsBody hits))
  | None =>
      let config := getEnvironmentConfig (processEnv w) (Some selectedEnvironment) in
      token ← getAccessToken w (Some selectedEnvironment);
      termQueries ← orThrow TypeError
                       (buildTermQueries (Js.lift requestData) configurableFields);
      let orderSearchPayload :=
        mkSearchPayload startDate endDate termQueries pageSize 0 in
      fetched ← fetchPages w fuel
                  (shown (apiBaseUrl config) ++ "/dw/shop/v24_5/order_search")
                  token orderSearchPayload 0 [] 0;
      let allHits := fst fetched in
      st' ← getState;
      putOrderCache (NodeCache.set cacheKey allHits (clock_store w) (orderCache st'));;
      ret (mkResponse 200 (HitsBody allHits))
  end.

Definition postOrders (w : World) (fuel : nat) (reqBody : Js.Obj string) : M Response :=
  try_catch
    (let startDate := Js.get "startDate" reqBody in
     let endDate := Js.get "endDate" reqBody in
     let environment := Js.get "environment" reqBody in
     let otherFilters := otherFiltersOf reqBody in
     if Js.falsy startDate || Js.falsy endDate then
       ret (mkResponse 400 (ErrorBody "Start date and end date are required."))
     else
       fetchOrders w fuel (default "" startDate) (default "" endDate)
                   environment otherFilters)
    (fun _ => ret (mkResponse 500 (ErrorBody "Failed to fetch order data."))).

(** ** Cache management *)

(** DELETE /api/cache/clear *)
Definition clearCache : M Response :=
  st ← getState;
  let keyCount := List.length (NodeCache.keys (orderCache st)) in
  putOrderCache (NodeCache.flushAll (orderCache st));;
  ret (mkResponse 200
         (ClearedBody ("Cache cleared successfully. Removed " ++ pretty keyCount
                       ++ " entries.")
                      keyCount)).

(** DELETE /api/cache/clear/:key *)
Definition clearCacheKey (key : string) : M Response :=
  st ← getState;
  let '(deleted, cache) := NodeCache.del key (orderCache st) in
  putOrderCache cache;;
  if (0 <? deleted)%nat then
    ret (mkResponse 200
           (DeletedBody ("Cache entry for key '" ++ key ++ "' cleared successfully.") true))
  else
    ret (mkResponse 404
           (DeletedBody ("Cache entry for key '" ++ key ++ "' not found.") false)).

(** ** The pages of a fetch *)

(** What the loop meets when it keeps asking: [offsetAt w p n] records
    are gathered before the [n]-th page request, and [pageAt w p n] is
    the answer to that request. *)
Fixpoint offsetAt (w : World) (p : SearchPayload) (n : nat) : nat :=
  match n with
  | O => 0
  | S m =>
      let offset := offsetAt w p m in
      match order_search w m (withStart p offset) with
      | Page hits _ => offset + List.length hits
      | SearchFailed => offset
      end
  end.

Definition pageAt (w : World) (p : SearchPayload) (n : nat) : SearchReply :=
  order_search w n (withStart p (offsetAt w p n)).

Definition hitsOf (r : SearchReply) : list Hit :=
  match r with
  | Page hits _ => hits
  | SearchFailed => []
  end.

(** The records gathered by the page requests before the [n]-th. *)
Definition gathered (w : World) (p : SearchPayload) (n : nat) : list Hit :=
  concat (map (fun i => hitsOf (pageAt w p i)) (seq 0 n)).

(** The [n]-th page is answered and, with it, the gathered count is
    still below the total that this page reports. *)
Definition belowTotal (w : World) (p : SearchPayload) (n : nat) : bool :=
  match pageAt w p n with
  | Page _ total => (Z.of_nat (offsetAt w p (S n)) <? total)%Z
  | SearchFailed => false
  end.

(** The [n]-th page is answered and, with it, the gathered count has
    reached the total that this page reports. *)
Definition totalReached (w : World) (p : SearchPayload) (n : nat) : bool :=
  match pageAt w p n with
  | Page _ total => negb (Z.of_nat (offsetAt w p (S n)) <? total)%Z
  | SearchFailed => false
  end.

Definition pageEmpty (w : World) (p : SearchPayload) (n : nat) : bool :=
  match pageAt w p n with
  | Page [] _ => true
  | _ => false
  end.

Definition pageRequest (w : World) (url bearer : string) (p : SearchPayload)
    (i : nat) : Exchange :=
  mkExchange (SearchRequest url bearer (withStart p (offsetAt w p i)))
             (match pageAt w p i with Page _ _ => true | SearchFailed => false end).

(** The [len] page requests of a fetch from the [n]-th on. *)
Definition pageRequests (w : World) (url bearer : string) (p : SearchPayload)
    (n len : nat) : list Exchange :=
  map (pageRequest w url bearer p) (seq n len).

(** The state after some more requests to the remote system. *)
Definition withRequests (st : ServerState) (more : list Exchange) : ServerState :=
  mkServerState (tokenCache st) (orderCache st) (network st ++ more).

(** The state of the handler once the cache has been looked up. *)
Definition afterLookup (w : World) (cacheKey : string) (st : ServerState)
    : ServerState :=
  mkServerState (tokenCache st)
                (NodeCache.get cacheKey (clock_lookup w) (orderCache st)).2
                (network st).

Definition serverError : Response :=
  mkResponse 500 (ErrorBody "Failed to fetch order data.").

(** An order search that holds [records] and answers every request with
    the slice it asks for and the true total. *)
Definition consistentSearch (records : list Hit) : nat -> SearchPayload -> SearchReply :=
  fun _ payload =>
    Page (take (count payload) (drop (start payload) records))
         (Z.of_nat (List.length records)).

(** Every request of the list succeeded. *)
Definition allSucceeded (l : list Exchange) : Prop :=
  Forall (fun x => succeeded x = true) l.

(** The requests sent to the remote system between two states. *)
Definition sentBetween (st st' : ServerState) : list Exchange :=
  drop (List.length (network st)) (network st').

(** ** Sample data *)

Definition numberedHit (i : nat) : Hit :=
  mkHit (mkOrder "2025-01-01T10:00:00.000Z" (inject_Z (Z.of_nat i))
                 [mkProductItem 1] (Nat.even i) None).

Definition devProcessEnv : ProcessEnv :=
  [ ("API_BASE_URL_DEV", "https://dev.example.com");
    ("CLIENT_ID_DEV", "client-1");
    ("AUTH_HEADER_DEV", "Basic abc") ].

(** A world with a given token endpoint answer and order search. *)
Definition worldOf (reply : TokenReply)
    (search : nat -> SearchPayload -> SearchReply) : World :=
  mkWorld devProcessEnv 1000 1000 2000 3000 (fun _ _ => reply) search.

Definition sampleWorld (reply : TokenReply) : World :=
  worldOf reply (fun _ _ => SearchFailed).

Definition sampleState (slot : TokenSlot) : ServerState :=
  mkServerState (mkTokenCache slot emptySlot) NodeCache.empty [].

Definition sampleTokenRequest : Request :=
  TokenRequest "https://dev.example.com/dw/oauth2/access_token?client_id=client-1"
               (Some "Basic abc").

Definition samplePayload : SearchPayload :=
  mkSearchPayload "2025-01-01T00:00:00.000Z" "2025-01-31T23:59:59.999Z"
                  [statusFilter] pageSize 0.

Definition sampleSearchUrl : string :=
  "https://dev.example.com/dw/shop/v24_5/order_search".

(** An order search whose first answer is an empty page that reports
    two records, and which hands the two records out afterwards. *)
Definition emptyFirstSearch : nat -> SearchPayload -> SearchReply :=
  fun n _ =>
    match n with
    | O => Page [] 2
    | S _ => Page [numberedHit 0; numberedHit 1] 2
    end.

Definition sampleEnv : ProcessEnv :=
  [ ("PORT", "3001");
    ("TERM_QUERY_FIELD_ORDER_TYPE", "c_smartOrderType");
    ("TERM_QUERY_FIELD_ORDER_TYPE_VALUES", "Prepaid, Postpaid");
    ("TERM_QUERY_FIELD_CHANNEL", "c_channel");
    ("TERM_QUERY_FIELD_REGION", "c_region");
    ("TERM_QUERY_FIELD_REGION_VALUES", " , ") ].

Definition sampleFields : Js.Obj string :=
  [ ("order_type", "c_smartOrderType");
    ("channel", "c_channel");
    ("region", "c_region");
    ("department", "c_department") ].

Definition sampleRequest : Js.Obj string :=
  [ ("orderType", "Postpaid"); ("department", "Books"); ("region", "   ") ].

Definition sampleRequestWithMore : Js.Obj string :=
  [ ("status", "created"); ("orderType", "Postpaid"); ("order_type", "Prepaid");
    ("department", "Books"); ("c_channel", "web"); ("region", "   ") ].

(** Two orders, the first with a creation date whose date part is
    [constructor]. *)
Definition oddlyDatedHits : list Hit :=
  [ mkHit (mkOrder "constructorT10:00:00.000Z" (inject_Z 10) [mkProductItem 1] true None);
    mkHit (mkOrder "2025-01-01T10:00:00.000Z" (inject_Z 20) [mkProductItem 2] false None) ].

(** A server configured with a filter field named [constructor]. *)
Definition constructorWorld : World :=
  mkWorld (devProcessEnv ++ [("TERM_QUERY_FIELD_CONSTRUCTOR", "c_constructor")])
          1000 1000 2000 3000
          (fun _ _ => TokenGranted "t1" 1800)
          (consistentSearch (map numberedHit (seq 0 450))).

Definition sampleBody : Js.Obj string :=
  [ ("startDate", "2025-01-01T00:00:00.000Z");
    ("endDate", "2025-01-31T23:59:59.999Z");
    ("environment", "staging") ].


(** An order search that serves one full page of a set of 450 records
    and fails at the second request. *)
Definition failingSecondSearch : nat -> SearchPayload -> SearchReply :=
  fun n payload =>
    match n with
    | O => consistentSearch (map numberedHit (seq 0 450)) n payload
    | S _ => SearchFailed
    end.

Definition datedBody : Js.Obj string :=
  [ ("startDate", "2025-01-01T00:00:00.000Z");
    ("endDate", "2025-01-31T23:59:59.999Z");
    ("environment", "DEV") ].

Definition cachedState : ServerState :=
  mkServerState initialTokenCache
    (NodeCache.set "orders_DEV_a_b_orderType:Prepaid" [numberedHit 7] 500
                   NodeCache.empty)
    [].

Definition filtersOneWay : Js.Obj string :=
  [ ("orderType", "Postpaid"); ("channel", "web"); ("region", "") ].

Definition filtersOtherWay : Js.Obj string :=
  [ ("region", ""); ("orderType", "Postpaid"); ("channel", "web") ].

(** Ten orders, four of them by guests. *)
Definition tenHits : list Hit :=
  map (fun i => mkHit (mkOrder "2025-01-02T08:30:00.000+08:00" (inject_Z 100)
                               [mkProductItem 2; mkProductItem 1]
                               (i <? 4)%nat
                               (Some [mkPaymentInstrument (Some "COD")])))
      (seq 0 10).

(** A remote system that grants a token and holds 450 records. *)
Definition steadyWorld : World :=
  worldOf (TokenGranted "t1" 1800) (consistentSearch (map numberedHit (seq 0 450))).

(** ** The first version of the server *)

(** The [must] list of the first version of POST /api/orders: the
    status exclusion and the order type against [c_smartOrderType]. *)
Definition fixedTermQueries (selectedOrderType : string) : list TermQuery :=
  [ statusFilter;
    mkTermQuery ["c_smartOrderType"] "is" [selectedOrderType] ].

(** POST /api/orders of the first version: no response cache, and the
    fixed query on [orderType || 'Prepaid']. *)
Definition postOrdersV1 (w : World) (fuel : nat) (reqBody : Js.Obj string) : M Response :=
  try_catch
    (let startDate := Js.get "startDate" reqBody in
     let endDate := Js.get "endDate" reqBody in
     let orderType := Js.get "orderType" reqBody in
     let environment := Js.get "environment" reqBody in
     if Js.falsy startDate || Js.falsy endDate then
       ret (mkResponse 400 (ErrorBody "Start date and end date are required."))
     else
       let selectedOrderType := Js.or_else orderType "Prepaid" in
       let selectedEnvironment := Js.or_else environment "DEV" in
       let config := getEnvironmentConfig (processEnv w) (Some selectedEnvironment) in
       token ← getAccessToken w (Some selectedEnvironment);
       let orderSearchPayload :=
         mkSearchPayload (default "" startDate) (default "" endDate)
                         (fixedTermQueries selectedOrderType) pageSize 0 in
       fetched ← fetchPages w fuel
                   (shown (apiBaseUrl config) ++ "/dw/shop/v24_5/order_search")
                   token orderSearchPayload 0 [] 0;
       ret (mkResponse 200 (HitsBody (fst fetched))))
    (fun _ => ret (mkResponse 500 (ErrorBody "Failed to fetch order data."))).

(** ** GET /api/cache/stats *)

Record StatsResponse : Type := mkStatsResponse {
  stats_hits : nat;
  stats_misses : nat;
  totalKeys : nat;
  stats_keys : list string
}.

Definition getCacheStats : M StatsResponse :=
  st ← getState;
  let keys := NodeCache.keys (orderCache st) in
  ret (mkStatsResponse (NodeCache.hits (orderCache st))
                       (NodeCache.misses (orderCache st))
                       (List.length keys) keys).

(** ** The dashboard (App.js) *)

(** [getFilteredOrders]: the orders of the table, for the raw data held
    ([None] before any data arrived) and the selected payment method. *)
Definition getFilteredOrders (rawData : option (list Hit)) (paymentMethod : string)
    : list Order :=
  match rawData with
  | None => []
  | Some rawData =>
      let filteredHits :=
        if Js.truthy paymentMethod && negb (String.eqb (Js.trim paymentMethod) "")
        then List.filter (paysWith paymentMethod) rawData
        else rawData in
      map data filteredHits
  end.

(** The payment-method cell of a row of the table. *)
Definition paymentCell (order : Order) : string :=
  match payment_instruments order with
  | Some (first :: _) => Js.or_else (payment_method_id first) "N/A"
  | _ => "N/A"
  end.

(** [Object.keys(data.dailyMetrics).sort()] *)
Definition sortedDates (dailyMetrics : Js.Obj DayMetrics) : list string :=
  Js.sort (Js.keys dailyMetrics).

(** The data of the orders-per-day line. A date without an entry would
    make the property read fail: [None]. *)
Definition ordersPerDay (dailyMetrics : Js.Obj DayMetrics) : list (option nat) :=
  map (fun date => day ← Js.get date dailyMetrics; Some (orders day))
      (sortedDates dailyMetrics).

(** The data of the average-order-value line:
    [day.orders > 0 ? day.revenue / day.orders : 0] for each date. *)
Definition averagePerDay (dailyMetrics : Js.Obj DayMetrics) : list (option Q) :=
  map (fun date => day ← Js.get date dailyMetrics; average (revenue day) (orders day))
      (sortedDates dailyMetrics).

(** The orders of all the days of the daily metrics. *)
Definition sumOrders (dailyMetrics : Js.Obj DayMetrics) : nat :=
  fold_right (fun kv acc => (orders (snd kv) + acc)%nat) 0%nat dailyMetrics.

(** The order totals and the units of a record set, added one record
    after the other to a starting amount, as the aggregator adds them. *)
Definition revenueFrom (amount : Q) (hits : list Hit) : Q :=
  fold_left (fun acc hit => (acc + order_total (data hit))%Q) hits amount.

Definition unitsFrom (amount : Q) (hits : list Hit) : Q :=
  fold_left (fun acc hit => (acc + orderUnitsOf (data hit))%Q) hits amount.

Definition revenueOf (hits : list Hit) : Q := revenueFrom 0 hits.

Definition unitsOf (hits : list Hit) : Q := unitsFrom 0 hits.

(** The entry of a date in the daily metrics, or the entry a new date
    starts from. *)
Definition dayOf (dailyMetrics : Js.Obj DayMetrics) (date : string) : DayMetrics :=
  default (mkDayMetrics 0 0 0) (Js.get date dailyMetrics).

(** No date of the daily metrics names an inherited property. *)
Definition plainDates (dm : Js.Obj DayMetrics) : Prop :=
  forall date, date ∈ Js.keys dm -> Js.inherited date = false.

(** The records of a record set whose date gets an entry in the daily
    metrics: the date names no property that objects inherit. *)
Definition withEntry (hits : list Hit) : list Hit :=
  List.filter (fun hit => negb (Js.inherited (dateOf (data hit)))) hits.

(** The records of a record set created on a date. *)
Definition onDate (date : string) (hits : list Hit) : list Hit :=
  List.filter (fun hit => String.eqb (dateOf (data hit)) date) hits.

(** A world whose clock shows four seconds more than [sampleWorld]. *)
Definition laterWorld (reply : TokenReply) : World :=
  mkWorld devProcessEnv 5000 5000 6000 7000 (fun _ _ => reply)
          (fun _ _ => SearchFailed).

(** Two states of the server that differ in the response cache only. *)
Definition sameButCache (st st' : ServerState) : Prop :=
  tokenCache st = tokenCache st' /\ network st = network st'.

(** A remote system as [steadyWorld], for a server configured with the
    order type as its one filter field. *)
Definition typedWorld : World :=
  mkWorld (devProcessEnv ++ [("TERM_QUERY_FIELD_ORDER_TYPE", "c_smartOrderType")])
          1000 1000 2000 3000
          (fun _ _ => TokenGranted "t1" 1800)
          (consistentSearch (map numberedHit (seq 0 450))).

Definition shortBody : Js.Obj string :=
  [ ("startDate", "a"); ("endDate", "b") ].

(** An order search that reports five records and hands out none. *)
Definition emptySearch : nat -> SearchPayload -> SearchReply :=
  fun _ _ => Page [] 5.

(** A server process without any variable. *)
Definition bareWorld : World :=
  mkWorld [] 1000 1000 2000 3000 (fun _ _ => TokenRefused) (fun _ _ => SearchFailed).
(** ** Facts about the sort order and objects *)

Section SortFacts.

Lemma leb_refl a : Js.leb a a = true.
Proof.
  unfold Js.leb.
  destruct (String_as_OT.compare_spec a a) as [_|H|H]; try done.
  by apply (StrictOrder_Irreflexive a) in H.
Qed.

Lemma leb_total a b : Js.leb a b = false -> Js.leb b a = true.
Proof.
  unfold Js.leb.
  destruct (String_as_OT.compare_spec a b) as [?|?|Hba]; try done.
  intros _.
  destruct (String_as_OT.compare_spec b a) as [?|?|Hab]; try done.
  exfalso. apply (StrictOrder_Irreflexive a).
  by transitivity b.
Qed.

Lemma leb_antisym a b : Js.leb a b = true -> Js.leb b a = true -> a = b.
Proof.
  unfold Js.leb.
  destruct (String_as_OT.compare_spec a b) as [?|Hab|?]; try done.
  destruct (String_as_OT.compare_spec b a) as [?|Hba|?]; try done.
  exfalso. apply (StrictOrder_Irreflexive a).
  by transitivity b.
Qed.

Lemma leb_trans a b c :
  Js.leb a b = true -> Js.leb b c = true -> Js.leb a c = true.
Proof.
  unfold Js.leb.
  destruct (String_as_OT.compare_spec a b) as [->|Hab|?]; try done.
  destruct (String_as_OT.compare_spec b c) as [->|Hbc|?]; try done.
  - intros _ _.
    destruct (String_as_OT.compare_spec a c) as [?|?|Hca]; try done.
    exfalso. apply (StrictOrder_Irreflexive a). by transitivity c.
  - intros _ _.
    destruct (String_as_OT.compare_spec a c) as [?|?|Hca]; try done.
    exfalso. apply (StrictOrder_Irreflexive a).
    transitivity b; [done|]. by transitivity c.
Qed.

Lemma insert_sorted_perm x l : Js.insert_sorted x l ≡ₚ x :: l.
Proof.
  induction l as [|y l IH]; simpl; [done|].
  destruct (Js.leb x y); [done|].
  rewrite IH. apply perm_swap.
Qed.

Lemma sort_perm l : Js.sort l ≡ₚ l.
Proof.
  induction l as [|x l IH]; simpl; [done|].
  by rewrite insert_sorted_perm, IH.
Qed.

Lemma insert_sorted_sorted x l : Js.sorted l -> Js.sorted (Js.insert_sorted x l).
Proof.
  unfold Js.sorted. induction 1 as [|y l Hs IH Hall]; simpl.
  - constructor; constructor.
  - destruct (Js.leb x y) eqn:Hxy.
    + constructor; [by constructor|].
      constructor; [done|].
      eapply List.Forall_impl; [|exact Hall].
      intros z Hz. by eapply leb_trans.
    + constructor; [done|].
      rewrite (insert_sorted_perm x l).
      constructor; [by apply leb_total|done].
Qed.

Lemma sort_sorted l : Js.sorted (Js.sort l).
Proof.
  induction l as [|x l IH]; simpl.
  - constructor.
  - by apply insert_sorted_sorted.
Qed.

(** Two sorted arrangements of the same strings coincide. *)
Lemma sorted_perm_eq l1 : forall l2,
  Js.sorted l1 -> Js.sorted l2 -> l1 ≡ₚ l2 -> l1 = l2.
Proof.
  unfold Js.sorted.
  induction l1 as [|a l1 IH]; intros l2 H1 H2 Hp.
  - by apply Permutation_nil in Hp.
  - destruct l2 as [|b l2]; [by apply Permutation_sym, Permutation_nil in Hp|].
    inversion H1 as [|? ? Hs1 Ha]; inversion H2 as [|? ? Hs2 Hb]; subst.
    assert (a = b) as ->.
    { assert (a ∈ b :: l2) as Hin1 by (rewrite <- Hp; left).
      assert (b ∈ a :: l1) as Hin2 by (rewrite Hp; left).
      apply elem_of_cons in Hin1 as [?|Hin1]; [done|].
      apply elem_of_cons in Hin2 as [?|Hin2]; [done|].
      rewrite List.Forall_forall in Ha, Hb.
      apply leb_antisym.
      - apply Ha. by apply list_elem_of_In.
      - apply Hb. by apply list_elem_of_In. }
    f_equal. apply IH; try done.
    by apply Permutation_cons_inv in Hp.
Qed.

Lemma sort_perm_eq l1 l2 : l1 ≡ₚ l2 -> Js.sort l1 = Js.sort l2.
Proof.
  intros Hp. apply sorted_perm_eq; try apply sort_sorted.
  by rewrite !sort_perm.
Qed.

End SortFacts.

Section ObjFacts.
Context {V : Type}.
Implicit Types o : Js.Obj V.

Lemma get_Some_elem k v o : Js.get k o = Some v -> (k, v) ∈ o.
Proof.
  induction o as [|[k' v'] o IH]; simpl; [done|].
  destruct (String.eqb_spec k k') as [->|Hne].
  - intros [= ->]. left.
  - intros H. right. by apply IH.
Qed.

Lemma elem_get_Some k v o : Js.wf o -> (k, v) ∈ o -> Js.get k o = Some v.
Proof.
  unfold Js.wf, Js.keys.
  induction o as [|[k' v'] o IH]; simpl; intros Hnd Hin.
  - by apply elem_of_nil in Hin.
  - apply NoDup_cons in Hnd as [Hk' Hnd].
    apply elem_of_cons in Hin as [[= -> ->]|Hin].
    + by rewrite String.eqb_refl.
    + destruct (String.eqb_spec k k') as [->|Hne]; [|by apply IH].
      exfalso. apply Hk'.
      apply list_elem_of_fmap. by exists (k', v).
Qed.

Lemma get_None_keys k o : Js.get k o = None <-> k ∉ Js.keys o.
Proof.
  unfold Js.keys.
  induction o as [|[k' v'] o IH]; simpl.
  - split; [intros _; apply not_elem_of_nil|done].
  - rewrite not_elem_of_cons.
    destruct (String.eqb_spec k k') as [->|Hne].
    + split; [done|]. by intros [? _].
    + rewrite IH. split; [by split|]. by intros [_ ?].
Qed.

(** Objects holding the same pairs answer every property read alike. *)
Lemma same_pairs_get o1 o2 :
  Js.wf o1 -> Js.wf o2 ->
  (forall k v, (k, v) ∈ o1 <-> (k, v) ∈ o2) ->
  forall k, Js.get k o1 = Js.get k o2.
Proof.
  intros Hw1 Hw2 Hsame k.
  destruct (Js.get k o1) as [v|] eqn:H1.
  - symmetry. apply elem_get_Some; [done|].
    apply Hsame. by apply get_Some_elem.
  - destruct (Js.get k o2) as [v|] eqn:H2; [|done].
    assert (Js.get k o1 = Some v) as Hv; [|congruence].
    apply elem_get_Some; [done|].
    apply Hsame. by apply get_Some_elem.
Qed.

Lemma wf_NoDup o : Js.wf o -> NoDup o.
Proof.
  unfold Js.wf, Js.keys. apply NoDup_fmap_1.
Qed.

Lemma same_pairs_perm o1 o2 :
  Js.wf o1 -> Js.wf o2 ->
  (forall k v, (k, v) ∈ o1 <-> (k, v) ∈ o2) -> o1 ≡ₚ o2.
Proof.
  intros Hw1 Hw2 Hsame.
  apply NoDup_Permutation; try by apply wf_NoDup.
  intros [k v]. apply Hsame.
Qed.

End ObjFacts.

(** ** Cache key *)

(** C2: the cache key depends on the environment, the two dates and the
    set of (field name, value) pairs only: two request objects that hold
    the same pairs, in whatever key order, get the same key. *)
Theorem generateCacheKey_order_invariant
    (startDate endDate environment : string) (rd1 rd2 : Js.Obj string) :
  Js.wf rd1 -> Js.wf rd2 ->
  (forall k v, (k, v) ∈ rd1 <-> (k, v) ∈ rd2) ->
  generateCacheKey startDate endDate rd1 environment
  = generateCacheKey startDate endDate rd2 environment.
Proof.
  intros Hw1 Hw2 Hsame. unfold generateCacheKey.
  assert (Js.sort (Js.keys rd1) = Js.sort (Js.keys rd2)) as ->.
  { apply sort_perm_eq. unfold Js.keys.
    by apply fmap_Permutation, same_pairs_perm. }
  assert (map (filterValue rd1) (Js.sort (Js.keys rd2))
          = map (filterValue rd2) (Js.sort (Js.keys rd2))) as ->; [|done].
  apply map_ext. intros k. unfold filterValue.
  by rewrite (same_pairs_get rd1 rd2).
Qed.

Example fieldLabel_known : fieldLabel "store_id" = Js.Str "Store ID".
Proof. reflexivity. Qed.

Example fieldLabel_derived : fieldLabel "sales_rep2" = Js.Str "Sales Rep2".
Proof. reflexivity. Qed.

Example split_example : Js.split "," "a, b,,c" = ["a"; " b"; ""; "c"].
Proof. reflexivity. Qed.

Example trim_example : Js.trim "  a b  " = "a b".
Proof. reflexivity. Qed.

(** ** Objects under update *)

Section UpdateFacts.
Context {V : Type}.
Implicit Types o : Js.Obj V.

Lemma get_app k o1 o2 :
  Js.get k (o1 ++ o2)
  = match Js.get k o1 with Some v => Some v | None => Js.get k o2 end.
Proof.
  induction o1 as [|[k' v'] o1 IH]; simpl; [done|].
  by destruct (String.eqb k k').
Qed.

Lemma get_replace_eq k v o : is_Some (Js.get k o) -> Js.get k (Js.replace k v o) = Some v.
Proof.
  induction o as [|[k' v'] o IH]; simpl; [by intros [? ?]|].
  destruct (String.eqb_spec k k') as [->|Hne]; simpl.
  - by rewrite String.eqb_refl.
  - destruct (String.eqb_spec k k'); [done|]. apply IH.
Qed.

Lemma get_replace_ne k k' v o : k <> k' -> Js.get k' (Js.replace k v o) = Js.get k' o.
Proof.
  intros Hne. induction o as [|[k0 v0] o IH]; simpl; [done|].
  destruct (String.eqb_spec k k0) as [->|Hne0]; simpl.
  - by destruct (String.eqb_spec k' k0).
  - by rewrite IH.
Qed.

Lemma keys_replace k v o : Js.keys (Js.replace k v o) = Js.keys o.
Proof.
  unfold Js.keys. induction o as [|[k' v'] o IH]; simpl; [done|].
  destruct (String.eqb_spec k k') as [->|Hne]; simpl; [done|]. by rewrite IH.
Qed.

Lemma get_place_eq n k v o : Js.get k o = None -> Js.get k (Js.place n k v o) = Some v.
Proof.
  induction o as [|[k' v'] o IH]; simpl.
  - by rewrite String.eqb_refl.
  - destruct (String.eqb_spec k k') as [->|Hne]; [done|]. intros Hg.
    destruct (Js.index k') as [n'|]; [destruct (n' <? n)%N|]; simpl.
    + destruct (String.eqb_spec k k'); [done|]. by apply IH.
    + by rewrite String.eqb_refl.
    + by rewrite String.eqb_refl.
Qed.

Lemma get_place_ne n k k' v o : k <> k' -> Js.get k' (Js.place n k v o) = Js.get k' o.
Proof.
  intros Hne. induction o as [|[k0 v0] o IH]; simpl.
  - by destruct (String.eqb_spec k' k).
  - destruct (Js.index k0) as [n0|]; [destruct (n0 <? n)%N|]; simpl.
    + by rewrite IH.
    + by destruct (String.eqb_spec k' k).
    + by destruct (String.eqb_spec k' k).
Qed.

Lemma keys_place n k v o : Js.keys (Js.place n k v o) ≡ₚ k :: Js.keys o.
Proof.
  unfold Js.keys. induction o as [|[k0 v0] o IH]; simpl; [done|].
  destruct (Js.index k0) as [n0|]; [destruct (n0 <? n)%N|]; simpl; try done.
  rewrite IH. apply Permutation_swap.
Qed.

Lemma get_define_eq k v o : Js.get k (Js.define k v o) = Some v.
Proof.
  unfold Js.define. destruct (Js.get k o) as [d|] eqn:Hg.
  - apply get_replace_eq. by rewrite Hg.
  - destruct (Js.index k) as [n|]; [by apply get_place_eq|].
    rewrite get_app, Hg. simpl. by rewrite String.eqb_refl.
Qed.

Lemma get_define_ne k k' v o : k <> k' -> Js.get k' (Js.define k v o) = Js.get k' o.
Proof.
  intros Hne. unfold Js.define. destruct (Js.get k o) as [d|].
  - by apply get_replace_ne.
  - destruct (Js.index k) as [n|]; [by apply get_place_ne|].
    rewrite get_app. destruct (Js.get k' o); [done|]. simpl.
    by destruct (String.eqb_spec k' k).
Qed.

Lemma keys_define k v o :
  Js.keys (Js.define k v o)
  ≡ₚ if decide (k ∈ Js.keys o) then Js.keys o else k :: Js.keys o.
Proof.
  unfold Js.define. destruct (Js.get k o) as [d|] eqn:Hg.
  - rewrite keys_replace. destruct (decide _) as [|Hn]; [done|].
    apply get_None_keys in Hn. congruence.
  - apply get_None_keys in Hg. destruct (decide _); [done|].
    destruct (Js.index k) as [i|]; [apply keys_place|].
    unfold Js.keys. rewrite map_app. simpl.
    symmetry. apply Permutation_cons_append.
Qed.

Lemma elem_keys_define k k' v o :
  k' ∈ Js.keys (Js.define k v o) <-> k' = k \/ k' ∈ Js.keys o.
Proof.
  rewrite keys_define. destruct (decide _) as [Hin|Hn].
  - split; [by right|]. by intros [->|?].
  - apply elem_of_cons.
Qed.

Lemma wf_define k v o : Js.wf o -> Js.wf (Js.define k v o).
Proof.
  unfold Js.wf. rewrite keys_define. intros Hnd.
  destruct (decide _); [done|]. by apply NoDup_cons.
Qed.

Lemma get_assign_eq k v o : k <> "__proto__" -> Js.get k (Js.assign k v o) = Some v.
Proof.
  intros Hk. unfold Js.assign.
  destruct (String.eqb_spec k "__proto__"); [done|]. apply get_define_eq.
Qed.

Lemma get_assign_ne k k' v o : k <> k' -> Js.get k' (Js.assign k v o) = Js.get k' o.
Proof.
  intros Hne. unfold Js.assign.
  destruct (String.eqb_spec k "__proto__"); [done|]. by apply get_define_ne.
Qed.

Lemma elem_keys_assign k k' v o :
  k' ∈ Js.keys (Js.assign k v o)
  <-> (k' = k /\ k <> "__proto__") \/ k' ∈ Js.keys o.
Proof.
  unfold Js.assign. destruct (String.eqb_spec k "__proto__") as [->|Hne].
  - split; [by right|]. by intros [[_ ?]|?].
  - rewrite elem_keys_define. split; intros [?|?]; auto. left. by intuition.
Qed.

Lemma wf_assign k v o : Js.wf o -> Js.wf (Js.assign k v o).
Proof.
  unfold Js.assign. destruct (String.eqb k "__proto__"); [done|]. apply wf_define.
Qed.

Lemma elem_keys_get k o : k ∈ Js.keys o <-> exists v, Js.get k o = Some v.
Proof.
  destruct (Js.get k o) as [v|] eqn:Hg.
  - split; [by exists v|]. intros _.
    destruct (decide (k ∈ Js.keys o)) as [|Hn]; [done|].
    apply get_None_keys in Hn. congruence.
  - split; [|by intros [? ?]]. intros Hin.
    apply get_None_keys in Hg. done.
Qed.

End UpdateFacts.

(** ** Configuration resolver and GET /api/config/fields *)

Lemma wf_nil {V} : Js.wf (@nil (string * V)).
Proof. unfold Js.wf. simpl. apply NoDup_nil_2. Qed.

(** What holds of the empty object and is kept by an assignment holds
    of the configured fields. *)
Lemma getConfigurableTermQueryFields_ind (P : Js.Obj string -> Prop) env :
  P [] -> (forall k v o, P o -> P (Js.assign k v o)) ->
  P (getConfigurableTermQueryFields env).
Proof.
  intros Hnil Hstep. unfold getConfigurableTermQueryFields, Js.forEach.
  generalize Hnil. generalize (@nil (string * string)).
  induction env as [|[k v] env IH]; intros acc Hacc; simpl; [done|].
  apply IH.
  destruct (Js.startsWith TERM_QUERY_FIELD_ k), (Js.truthy v); try done.
  by apply Hstep.
Qed.

Lemma getConfigurableTermQueryFields_wf env :
  Js.wf (getConfigurableTermQueryFields env).
Proof.
  apply getConfigurableTermQueryFields_ind; [apply wf_nil|].
  intros k v o. apply wf_assign.
Qed.

Lemma getConfigurableTermQueryFields_proto env :
  "__proto__" ∉ Js.keys (getConfigurableTermQueryFields env).
Proof.
  apply getConfigurableTermQueryFields_ind; [apply not_elem_of_nil|].
  intros k v o Ho. rewrite elem_keys_assign. intros [[-> ?]|?]; done.
Qed.

(** The advertised entry of a field: the last configured entry of that
    key whose options are not empty, or what was there before. *)
Lemma availableFields_get env f (cf : Js.Obj string) : forall acc,
  Js.wf cf -> "__proto__" ∉ Js.keys cf ->
  Js.get f (Js.forEach
    (fun availableFields fieldKey fieldName =>
       let options := getFieldOptionsFromEnv env fieldKey in
       if (0 <? List.length options)%nat then
         Js.assign fieldKey (mkFieldInfo fieldName (fieldLabel fieldKey) options)
                   availableFields
       else availableFields) cf acc)
  = match Js.get f cf with
    | Some api =>
        match getFieldOptionsFromEnv env f with
        | [] => Js.get f acc
        | opts => Some (mkFieldInfo api (fieldLabel f) opts)
        end
    | None => Js.get f acc
    end.
Proof.
  unfold Js.forEach.
  induction cf as [|[k v] cf IH]; intros acc Hwf Hproto; simpl; [done|].
  unfold Js.wf in Hwf. simpl in Hwf. apply NoDup_cons in Hwf as [Hk Hwf].
  simpl in Hproto. apply not_elem_of_cons in Hproto as [Hkp Hproto].
  rewrite IH by done.
  destruct (String.eqb_spec f k) as [->|Hne].
  - apply get_None_keys in Hk. rewrite Hk.
    destruct (getFieldOptionsFromEnv env k) as [|o opts]; simpl; [done|].
    by apply get_assign_eq.
  - assert (Js.get f
      (if (0 <? List.length (getFieldOptionsFromEnv env k))%nat
       then Js.assign k (mkFieldInfo v (fieldLabel k) (getFieldOptionsFromEnv env k)) acc
       else acc) = Js.get f acc) as ->; [|done].
    destruct (0 <? _)%nat; [|done].
    apply get_assign_ne. congruence.
Qed.

Lemma getFieldOptionsFromEnv_absent env f :
  Js.get (valuesKey f) env = None -> getFieldOptionsFromEnv env f = [].
Proof. unfold getFieldOptionsFromEnv. by intros ->. Qed.

(** *** Blank texts *)

Lemma trim_end_blank s c :
  Js.trim_end s = "" -> c ∈ Js.chars s -> Js.is_white c = true.
Proof.
  induction s as [|a s IH]; simpl; [by intros _ H; apply elem_of_nil in H|].
  destruct (Js.trim_end s) eqn:Hs; [|done].
  destruct (Js.is_white a) eqn:Ha; [|done].
  intros _ Hin. apply elem_of_cons in Hin as [->|Hin]; [done|]. by apply IH.
Qed.

Lemma trim_start_blank s :
  (forall c, c ∈ Js.chars (Js.trim_start s) -> Js.is_white c = true) ->
  forall c, c ∈ Js.chars s -> Js.is_white c = true.
Proof.
  induction s as [|a s IH]; simpl; [done|].
  destruct (Js.is_white a) eqn:Ha; [|done].
  intros Hall c Hin. apply elem_of_cons in Hin as [->|Hin]; [done|]. by apply IH.
Qed.

Lemma trim_blank s c : Js.trim s = "" -> c ∈ Js.chars s -> Js.is_white c = true.
Proof.
  unfold Js.trim. intros Hs. revert c. apply trim_start_blank.
  intros c. by apply trim_end_blank.
Qed.

Lemma split_whole sep s : sep ∉ Js.chars s -> Js.split sep s = [s].
Proof.
  induction s as [|a s IH]; simpl; [done|]. intros Hn.
  apply not_elem_of_cons in Hn as [Hne Hn].
  destruct (Ascii.eqb_spec a sep) as [->|_]; [done|].
  by rewrite IH.
Qed.

(** A text that trims to nothing has no item to give. *)
Lemma blank_has_no_item s :
  Js.trim s = "" ->
  List.filter (fun item => negb (String.eqb item "")) (map Js.trim (Js.split "," s)) = [].
Proof.
  intros Hs. rewrite split_whole.
  - simpl. by rewrite Hs.
  - intros Hin. by apply (trim_blank s "," Hs) in Hin.
Qed.

(** The options read for a field are the values declared for it. *)
Lemma getFieldOptionsFromEnv_declared env f :
  getFieldOptionsFromEnv env f = declaredValues env f.
Proof.
  unfold getFieldOptionsFromEnv, declaredValues, valuesKey.
  destruct (Js.get _ env) as [v|]; [|done].
  unfold Js.truthy.
  destruct (String.eqb_spec v "") as [->|_]; [done|]. simpl.
  destruct (String.eqb_spec (Js.trim v) "") as [Hb|_]; [|done]. simpl.
  symmetry. by apply blank_has_no_item.
Qed.

(** C8: the field set returned by GET /api/config/fields holds exactly
    the configured fields for which values are declared, that is,
    whose [_VALUES] variable holds at least one item that is not blank;
    each comes with its remote field, its label and the declared
    values; a configured field whose values variable is absent, or
    holds no such item, is left out, and one whose variable holds such
    an item is there with that item, trimmed, among its values. *)
Theorem config_fields_exactly_with_values (env : ProcessEnv) (f : string) :
  let configured := getConfigurableTermQueryFields env in
  let declared := declaredValues env f in
  let resp := getConfigFields env in
  (f ∈ Js.keys (fields resp) <-> f ∈ Js.keys configured /\ declared <> [])
  /\ Js.get f (fields resp)
     = match Js.get f configured, declared with
       | Some api, _ :: _ => Some (mkFieldInfo api (fieldLabel f) declared)
       | _, _ => None
       end
  /\ (Js.get ("TERM_QUERY_FIELD_" ++ Js.toUpperCase f ++ "_VALUES") env = None ->
      f ∉ Js.keys (fields resp))
  /\ (forall declaration,
        Js.get ("TERM_QUERY_FIELD_" ++ Js.toUpperCase f ++ "_VALUES") env
        = Some declaration ->
        (forall item, item ∈ Js.split "," declaration -> Js.trim item = "") ->
        f ∉ Js.keys (fields resp))
  /\ (forall api declaration item,
        Js.get f configured = Some api ->
        Js.get ("TERM_QUERY_FIELD_" ++ Js.toUpperCase f ++ "_VALUES") env
        = Some declaration ->
        item ∈ Js.split "," declaration -> Js.trim item <> "" ->
        exists info,
          Js.get f (fields resp) = Some info
          /\ apiField info = api
          /\ Js.trim item ∈ options info).
Proof.
  intros configured declared resp.
  assert (Js.get f (fields resp)
     = match Js.get f configured, declared with
       | Some api, _ :: _ => Some (mkFieldInfo api (fieldLabel f) declared)
       | _, _ => None
       end) as Hget.
  { subst resp. unfold getConfigFields, availableFieldsOf. simpl.
    rewrite availableFields_get;
      [|apply getConfigurableTermQueryFields_wf
       |apply getConfigurableTermQueryFields_proto].
    fold configured. rewrite getFieldOptionsFromEnv_declared. fold declared. simpl.
    destruct (Js.get f configured), declared; done. }
  assert (f ∈ Js.keys (fields resp) <-> f ∈ Js.keys configured /\ declared <> [])
    as Hiff.
  { rewrite !elem_keys_get, Hget. split.
    - intros [info Hinfo].
      destruct (Js.get f configured) as [api|]; [|done].
      destruct declared; [done|]. split; [by exists api|done].
    - intros [[api ->] Hopts]. destruct declared; [done|]. by eexists. }
  split; [done|]. split; [done|]. split; [|split].
  - intros Habs. rewrite Hiff. intros [_ Hopts]. apply Hopts.
    unfold declared, declaredValues. by rewrite Habs.
  - intros declaration Hdecl Hblank. rewrite Hiff. intros [_ Hopts]. apply Hopts.
    unfold declared, declaredValues. rewrite Hdecl.
    induction (Js.split "," declaration) as [|item items IH]; [done|].
    simpl. rewrite (Hblank item) by left. simpl.
    apply IH. intros item' Hin. apply Hblank. by right.
  - intros api declaration item Hapi Hdecl Hitem Hfilled.
    assert (Js.trim item ∈ declared) as Hin.
    { unfold declared, declaredValues. rewrite Hdecl.
      apply list_elem_of_In, filter_In. split.
      - apply in_map. by apply list_elem_of_In.
      - by destruct (String.eqb_spec (Js.trim item) ""). }
    rewrite Hget, Hapi. destruct declared as [|d ds]; [by apply elem_of_nil in Hin|].
    by eexists.
Qed.

Example sampleEnv_configured :
  getConfigurableTermQueryFields sampleEnv
  = [ ("order_type", "c_smartOrderType");
      ("order_type_values", "Prepaid, Postpaid");
      ("channel", "c_channel");
      ("region", "c_region");
      ("region_values", " , ") ].
Proof. reflexivity. Qed.

Example sampleEnv_fields :
  fields (getConfigFields sampleEnv)
  = [ ("order_type",
       mkFieldInfo "c_smartOrderType" (Js.Str "Order Type") ["Prepaid"; "Postpaid"]) ].
Proof. reflexivity. Qed.

Lemma config_fields_exactly_with_values_witness :
  Js.get "order_type" (fields (getConfigFields sampleEnv))
  = Some (mkFieldInfo "c_smartOrderType" (Js.Str "Order Type") ["Prepaid"; "Postpaid"])
  /\ ("channel" ∉ Js.keys (fields (getConfigFields sampleEnv)))
  /\ ("region" ∉ Js.keys (fields (getConfigFields sampleEnv))).
Proof.
  split; [|split].
  - apply (proj1 (proj2 (config_fields_exactly_with_values sampleEnv "order_type"))).
  - apply (proj1 (proj2 (proj2
             (config_fields_exactly_with_values sampleEnv "channel")))).
    reflexivity.
  - apply (proj1 (proj2 (proj2 (proj2
             (config_fields_exactly_with_values sampleEnv "region")))) " , ").
    + reflexivity.
    + intros item Hin. vm_compute in Hin.
      repeat (apply elem_of_cons in Hin as [->|Hin]; [reflexivity|]).
      by apply elem_of_nil in Hin.
Defined.

(** ** Term query builder *)

Lemma provided_nonBlank v : provided v = nonBlank v.
Proof.
  unfold provided, nonBlank, Js.truthy.
  destruct (String.eqb_spec v "") as [->|_]; done.
Qed.

(** One turn of the builder: the predicate of the field is added, or
    the turn throws. *)
Lemma buildTermQueries_turn requestData termQueries fieldKey fieldName :
  match Js.read (requestProperty fieldKey) requestData with
  | Js.Own (Js.Str fieldValue) =>
      if provided fieldValue then
        Some (termQueries ++ [mkTermQuery [fieldName] "is" [fieldValue]])
      else Some termQueries
  | Js.Own (Js.Other t) => if t then None else Some termQueries
  | Js.Inherited => None
  | Js.Absent => Some termQueries
  end
  = if textOrNothing requestData fieldKey
    then Some (termQueries ++ equalityPredicate requestData (fieldKey, fieldName))
    else None.
Proof.
  unfold Js.read, textOrNothing, equalityPredicate. cbn [fst snd].
  destruct (Js.get (requestProperty fieldKey) requestData) as [[v|[|]]|].
  - rewrite provided_nonBlank. destruct (nonBlank v); [done|]. by rewrite app_nil_r.
  - done.
  - by rewrite app_nil_r.
  - destruct (Js.inherited _); [done|]. by rewrite app_nil_r.
Qed.

Lemma buildTermQueries_from requestData (cf : Js.Obj string) : forall acc,
  Js.forEach
    (fun result fieldKey fieldName =>
       termQueries ← result;
       match Js.read (requestProperty fieldKey) requestData with
       | Js.Own (Js.Str fieldValue) =>
           if provided fieldValue then
             Some (termQueries ++ [mkTermQuery [fieldName] "is" [fieldValue]])
           else Some termQueries
       | Js.Own (Js.Other t) => if t then None else Some termQueries
       | Js.Inherited => None
       | Js.Absent => Some termQueries
       end) cf acc
  = termQueries ← acc;
    if forallb (textOrNothing requestData) (Js.keys cf)
    then Some (termQueries ++ flat_map (equalityPredicate requestData) cf)
    else None.
Proof.
  unfold Js.forEach.
  induction cf as [|[fieldKey fieldName] cf IH]; intros acc; simpl.
  - destruct acc as [termQueries|]; simpl; [|done]. by rewrite app_nil_r.
  - rewrite IH. cbn [fst snd].
    destruct acc as [termQueries|]; simpl; [|done].
    rewrite buildTermQueries_turn.
    destruct (textOrNothing requestData fieldKey); simpl; [|done].
    destruct (forallb _ _); [|done]. by rewrite <- app_assoc.
Qed.

Lemma equalityPredicate_agree rd rd' (cf : Js.Obj string) :
  (forall fieldKey, fieldKey ∈ Js.keys cf ->
     Js.get (requestProperty fieldKey) rd' = Js.get (requestProperty fieldKey) rd) ->
  flat_map (equalityPredicate rd') cf = flat_map (equalityPredicate rd) cf
  /\ forallb (textOrNothing rd') (Js.keys cf) = forallb (textOrNothing rd) (Js.keys cf).
Proof.
  induction cf as [|[fieldKey fieldName] cf IH]; intros Hag; simpl; [done|].
  destruct IH as [-> ->].
  - intros fk Hfk. apply Hag. simpl. by right.
  - unfold equalityPredicate, textOrNothing. simpl. rewrite Hag; [done|]. simpl. left.
Qed.

(** C6: when every configured field finds a text or nothing in the
    request (a string or a falsy value, or no value under a name that
    objects do not inherit), the builder returns the status exclusion
    not_in created, failed first and then, for each configured field in
    enumeration order, one equality predicate against the remote name
    exactly when the request has a non-blank text for the field;
    whatever else the request holds (any request that agrees on the
    configured fields) changes nothing. When a configured field finds
    something else, the builder throws. *)
Theorem buildTermQueries_spec (requestData others : Js.Obj Js.Val)
    (configurableFields : Js.Obj string) :
  (forall fieldKey, fieldKey ∈ Js.keys configurableFields ->
     Js.get (requestProperty fieldKey) others
     = Js.get (requestProperty fieldKey) requestData) ->
  ((forall fieldKey, fieldKey ∈ Js.keys configurableFields ->
      textOrNothing requestData fieldKey = true) ->
   buildTermQueries others configurableFields
   = Some (mkTermQuery ["status"] "not_in" ["created"; "failed"]
           :: flat_map (equalityPredicate requestData) configurableFields))
  /\ ((exists fieldKey, fieldKey ∈ Js.keys configurableFields
                        /\ textOrNothing requestData fieldKey = false) ->
      buildTermQueries others configurableFields = None).
Proof.
  intros Hag. unfold buildTermQueries.
  rewrite buildTermQueries_from. simpl.
  destruct (equalityPredicate_agree requestData others configurableFields Hag)
    as [-> ->].
  split.
  - intros Hall.
    assert (forallb (textOrNothing requestData) (Js.keys configurableFields) = true)
      as ->; [|done].
    apply forallb_forall. intros fk Hfk. by apply Hall, list_elem_of_In.
  - intros (fk & Hfk & Hbad).
    destruct (forallb _ _) eqn:Hall; [|done].
    rewrite forallb_forall in Hall.
    rewrite Hall in Hbad; [done|]. by apply list_elem_of_In.
Qed.

Lemma buildTermQueries_spec_witness :
  buildTermQueries (Js.lift sampleRequestWithMore) sampleFields
  = Some [ mkTermQuery ["status"] "not_in" ["created"; "failed"];
           mkTermQuery ["c_smartOrderType"] "is" ["Postpaid"];
           mkTermQuery ["c_department"] "is" ["Books"] ].
Proof.
  apply (proj1 (buildTermQueries_spec
                  (Js.lift sampleRequest) (Js.lift sampleRequestWithMore) sampleFields
                  ltac:(intros fieldKey Hin; simpl in Hin;
                        repeat (apply elem_of_cons in Hin as [->|Hin]; [reflexivity|]);
                        by apply elem_of_nil in Hin))).
  intros fieldKey Hin. simpl in Hin.
  repeat (apply elem_of_cons in Hin as [->|Hin]; [reflexivity|]).
  by apply elem_of_nil in Hin.
Defined.

(** A configured field named [constructor], when the request has no
    property of that name, finds the function that objects inherit:
    the builder throws, and so it does on a request value that is a
    truthy number; POST /api/orders then answers 500. *)
Lemma buildTermQueries_throws_TypeError :
  buildTermQueries (Js.lift sampleRequest) [("constructor", "c_constructor")] = None
  /\ buildTermQueries [("orderType", Js.Other true)] sampleFields = None
  /\ (postOrders constructorWorld 5 datedBody (sampleState emptySlot)).1
     = Val serverError.
Proof. vm_compute. done. Qed.

(** ** Aggregator *)

Section Aggregator.

Lemma average_defined total n :
  exists q, average total n = Some q /\ (n = 0%nat -> q = 0%Q).
Proof.
  unfold average. destruct n as [|n]; simpl.
  - by exists 0%Q.
  - eexists. split; [done|]. intros [=].
Qed.

Lemma guests_nonGuests hits : (guests hits + nonGuests hits = List.length hits)%nat.
Proof.
  unfold guests, nonGuests.
  induction hits as [|h hits IH]; simpl; [done|].
  destruct (guest (data h)); simpl; lia.
Qed.

(** The tallies of the breakdown grow by the guests and by the others. *)
Lemma tally_breakdown hits : forall t,
  let cb := t_customerBreakdown t in
  t_customerBreakdown (fold_left tallyHit hits t)
  = mkCustomerBreakdown (new cb + guests hits) (returning cb + nonGuests hits)
                        (registered cb + nonGuests hits)
                        (unregistered cb + guests hits).
Proof.
  unfold guests, nonGuests.
  induction hits as [|h hits IH]; intros t; simpl.
  - destruct (t_customerBreakdown t). simpl. f_equal; lia.
  - rewrite IH. unfold tallyHit. simpl.
    destruct (guest (data h)); simpl; f_equal; lia.
Qed.

Lemma processOrderData_defined hits paymentMethod :
  let filteredHits := filterHits hits paymentMethod in
  let t := fold_left tallyHit filteredHits emptyTally in
  exists avgValue avgUnits,
    average (t_totalRevenue t) (List.length filteredHits) = Some avgValue
    /\ average (t_totalUnits t) (List.length filteredHits) = Some avgUnits
    /\ processOrderData hits paymentMethod
       = Some (mkAggregateResult
                 (t_dailyMetrics t) (t_customerBreakdown t)
                 (mkKpis (List.length filteredHits) (t_totalRevenue t)
                         (t_totalUnits t) avgValue avgUnits)).
Proof.
  intros filteredHits t.
  destruct (average_defined (t_totalRevenue t) (List.length filteredHits))
    as (a & Ha & _).
  destruct (average_defined (t_totalUnits t) (List.length filteredHits))
    as (b & Hb & _).
  exists a, b. split; [done|]. split; [done|].
  unfold processOrderData. fold filteredHits. fold t.
  rewrite Ha, Hb. done.
Qed.

End Aggregator.

(** C5: for every record set and payment filter the aggregator returns
    a breakdown in which [new] and [unregistered] both count the
    processed records with the guest flag, and [returning] and
    [registered] both count the processed records without it; ten
    processed records of which four are guests give
    new 4, unregistered 4, returning 6, registered 6. *)
Theorem customerBreakdown_counts_guests
    (hits : list Hit) (paymentMethod : option string) :
  let processed := filterHits hits paymentMethod in
  exists r,
    processOrderData hits paymentMethod = Some r
    /\ new (customerBreakdown r) = guests processed
    /\ unregistered (customerBreakdown r) = guests processed
    /\ returning (customerBreakdown r) = nonGuests processed
    /\ registered (customerBreakdown r) = nonGuests processed
    /\ (List.length processed = 10%nat -> guests processed = 4%nat ->
        customerBreakdown r = mkCustomerBreakdown 4 6 6 4).
Proof.
  intros processed.
  destruct (processOrderData_defined hits paymentMethod) as (a & b & _ & _ & Hr).
  eexists. split; [exact Hr|]. fold processed. simpl.
  rewrite tally_breakdown. simpl.
  repeat split; try done.
  intros Hlen Hg. pose proof (guests_nonGuests processed) as Hsum.
  f_equal; lia.
Qed.

(** C7: for every record set and payment filter the aggregator returns
    a result without dividing by zero, and both averages are exactly 0
    when the number of processed orders is 0. *)
Theorem averages_zero_without_orders
    (hits : list Hit) (paymentMethod : option string) :
  exists r,
    processOrderData hits paymentMethod = Some r
    /\ totalOrders (kpis r) = List.length (filterHits hits paymentMethod)
    /\ (totalOrders (kpis r) = 0%nat ->
        avgOrderValue (kpis r) = 0%Q /\ avgUnitsPerTransaction (kpis r) = 0%Q).
Proof.
  destruct (processOrderData_defined hits paymentMethod) as (a & b & Ha & Hb & Hr).
  eexists. split; [exact Hr|]. simpl. split; [done|].
  intros Hz. rewrite Hz in Ha, Hb.
  unfold average in Ha, Hb. simpl in Ha, Hb.
  split; congruence.
Qed.

(** ** Token cache *)

(** Runs the binds of a computation on the state at hand. *)
Ltac run := unfold mbind, M_bind, bind, getState.

Section TokenCacheFacts.

Lemma slotOf_Some tc cacheKey envCache :
  slotOf tc cacheKey = Some envCache -> cacheKey = "DEV" \/ cacheKey = "PRD".
Proof.
  unfold slotOf.
  destruct (String.eqb_spec cacheKey "DEV"); [by left|].
  destruct (String.eqb_spec cacheKey "PRD"); [by right|done].
Qed.

Lemma slotOf_None tc cacheKey :
  cacheKey <> "DEV" -> cacheKey <> "PRD" -> slotOf tc cacheKey = None.
Proof.
  unfold slotOf. intros H1 H2.
  destruct (String.eqb_spec cacheKey "DEV"); [done|].
  by destruct (String.eqb_spec cacheKey "PRD").
Qed.

Lemma slotOf_setSlot tc cacheKey envCache s :
  slotOf tc cacheKey = Some envCache ->
  slotOf (setSlot tc cacheKey s) cacheKey = Some s.
Proof.
  intros H. by destruct (slotOf_Some _ _ _ H) as [-> | ->].
Qed.

Lemma tokenValid_true envCache now token expiresAt :
  accessToken envCache = Some token -> token <> "" ->
  tokenExpiresAt envCache = Some expiresAt -> (now < expiresAt)%Z ->
  tokenValid envCache now = true.
Proof.
  unfold tokenValid, Js.truthy. intros -> Hne -> Hlt.
  destruct (String.eqb_spec token ""); [done|]. simpl.
  by apply Z.ltb_lt.
Qed.

Lemma or_else_truthy v d : Js.truthy d = true -> Js.truthy (Js.or_else v d) = true.
Proof.
  unfold Js.or_else. intros Hd.
  destruct v as [s|]; [|done]. by destruct (Js.truthy s) eqn:Hs.
Qed.

Lemma or_else_Some_or_else v d :
  Js.truthy d = true -> Js.or_else (Some (Js.or_else v d)) d = Js.or_else v d.
Proof.
  intros Hd. unfold Js.or_else at 1. by rewrite or_else_truthy.
Qed.

End TokenCacheFacts.

(** C3: for an environment that has a slot in the token cache,
    [getAccessToken] returns the cached token, with no request sent and
    nothing changed, when the slot holds a non-empty token whose expiry
    is still ahead; when the exchange is made and succeeds, the token it
    returned is stored in the slot with the expiry
    now + (expires_in - 60) seconds, after one request; when the
    exchange fails, one error is thrown after that one request, its
    message names the environment (in the upper case the slot is known
    by), and the token cache is as before. *)
Theorem getAccessToken_spec
    (w : World) (environment : option string) (st : ServerState)
    (envCache : TokenSlot) :
  let env := Js.or_else environment "DEV" in
  let cacheKey := Js.toUpperCase env in
  let config := getEnvironmentConfig (processEnv w) (Some env) in
  let url := (shown (apiBaseUrl config) ++ "/dw/oauth2/access_token?client_id="
              ++ shown (clientId config))%string in
  let exchange ok := mkExchange (TokenRequest url (authHeader config)) ok in
  slotOf (tokenCache st) cacheKey = Some envCache ->
  (forall token expiresAt,
     accessToken envCache = Some token -> token <> "" ->
     tokenExpiresAt envCache = Some expiresAt -> (clock_token w < expiresAt)%Z ->
     getAccessToken w environment st = (Val token, st))
  /\ (forall access_token expires_in,
        tokenValid envCache (clock_token w) = false ->
        oauth w url (authHeader config) = TokenGranted access_token expires_in ->
        let renewed :=
          mkTokenSlot (Some access_token)
                      (Some (clock_renew w + (expires_in - 60) * 1000)%Z) in
        getAccessToken w environment st
        = (Val access_token,
           mkServerState (setSlot (tokenCache st) cacheKey renewed)
                         (orderCache st) (network st ++ [exchange true]))
        /\ slotOf (setSlot (tokenCache st) cacheKey renewed) cacheKey = Some renewed)
  /\ (tokenValid envCache (clock_token w) = false ->
      oauth w url (authHeader config) = TokenRefused ->
      getAccessToken w environment st
      = (Throw (Error (tokenErrorMessage cacheKey)),
         mkServerState (tokenCache st) (orderCache st)
                       (network st ++ [exchange false]))
      /\ Js.includes cacheKey (tokenErrorMessage cacheKey) = true).
Proof.
  intros env cacheKey config url exchange Hslot.
  split; [|split].
  - intros token expiresAt Htok Hne Hexp Hlt.
    unfold getAccessToken. fold env. fold cacheKey.
    run. rewrite Hslot.
    rewrite (tokenValid_true _ _ _ _ Htok Hne Hexp Hlt).
    by rewrite Htok.
  - intros access_token expires_in Hinv Hreply renewed.
    split; [|by eapply slotOf_setSlot].
    unfold getAccessToken. fold env. fold cacheKey.
    run. rewrite Hslot, Hinv.
    unfold try_catch, postToken. fold config. fold url.
    rewrite Hreply. done.
  - intros Hinv Hreply. split.
    + unfold getAccessToken. fold env. fold cacheKey.
      run. rewrite Hslot, Hinv.
      unfold try_catch, postToken. fold config. fold url.
      rewrite Hreply. done.
    + by destruct (slotOf_Some _ _ _ Hslot) as [-> | ->].
Qed.

Lemma getAccessToken_spec_witness :
  getAccessToken (sampleWorld TokenRefused) (Some "dev")
                 (sampleState (mkTokenSlot (Some "t0") (Some 5000%Z)))
  = (Val "t0", sampleState (mkTokenSlot (Some "t0") (Some 5000%Z)))
  /\ getAccessToken (sampleWorld (TokenGranted "t1" 1800)) (Some "dev")
                    (sampleState (mkTokenSlot (Some "t0") (Some 900%Z)))
     = (Val "t1",
        mkServerState
          (mkTokenCache (mkTokenSlot (Some "t1") (Some 1742000%Z)) emptySlot)
          NodeCache.empty [mkExchange sampleTokenRequest true])
  /\ getAccessToken (sampleWorld TokenRefused) None (sampleState emptySlot)
     = (Throw (Error "Could not retrieve access token for DEV environment."),
        mkServerState (mkTokenCache emptySlot emptySlot) NodeCache.empty
                      [mkExchange sampleTokenRequest false]).
Proof.
  split; [|split].
  - exact (proj1 (getAccessToken_spec (sampleWorld TokenRefused) (Some "dev")
                    (sampleState (mkTokenSlot (Some "t0") (Some 5000%Z)))
                    (mkTokenSlot (Some "t0") (Some 5000%Z)) eq_refl)
                 "t0" 5000%Z eq_refl ltac:(discriminate) eq_refl eq_refl).
  - exact (proj1 (proj1 (proj2 (getAccessToken_spec
                    (sampleWorld (TokenGranted "t1" 1800)) (Some "dev")
                    (sampleState (mkTokenSlot (Some "t0") (Some 900%Z)))
                    (mkTokenSlot (Some "t0") (Some 900%Z)) eq_refl))
                 "t1" 1800%Z eq_refl eq_refl)).
  - exact (proj1 (proj2 (proj2 (getAccessToken_spec (sampleWorld TokenRefused) None
                    (sampleState emptySlot) emptySlot eq_refl))
                 eq_refl eq_refl)).
Defined.

(** ** POST /api/orders: how the handler runs *)

Section HandlerFacts.
Variable w : World.
Variable reqBody : Js.Obj string.
Variables startDate endDate : string.
Hypothesis HstartDate : Js.get "startDate" reqBody = Some startDate.
Hypothesis HendDate : Js.get "endDate" reqBody = Some endDate.
Hypothesis Hstart_given : startDate <> "".
Hypothesis Hend_given : endDate <> "".

Let environment := Js.get "environment" reqBody.
Let selectedEnvironment := Js.or_else environment "DEV".
Let requestData := requestDataOf (otherFiltersOf reqBody).
Let cacheKey := generateCacheKey startDate endDate requestData selectedEnvironment.

Lemma postOrders_dated fuel st :
  postOrders w fuel reqBody st
  = try_catch
      (fetchOrders w fuel startDate endDate environment (otherFiltersOf reqBody))
      (fun _ => ret serverError) st.
Proof.
  unfold postOrders. rewrite HstartDate, HendDate. simpl.
  unfold Js.truthy.
  destruct (String.eqb_spec startDate ""); [done|].
  destruct (String.eqb_spec endDate ""); [done|]. done.
Qed.

Lemma fetchOrders_hit fuel st hits :
  (NodeCache.get cacheKey (clock_lookup w) (orderCache st)).1 = Some hits ->
  fetchOrders w fuel startDate endDate environment (otherFiltersOf reqBody) st
  = (Val (mkResponse 200 (HitsBody hits)), afterLookup w cacheKey st).
Proof.
  intros Hhit. unfold fetchOrders, afterLookup.
  fold selectedEnvironment. fold requestData. fold cacheKey.
  run.
  destruct (NodeCache.get cacheKey (clock_lookup w) (orderCache st)) as [c cache].
  simpl in *. by subst c.
Qed.

Lemma fetchOrders_miss fuel st :
  (NodeCache.get cacheKey (clock_lookup w) (orderCache st)).1 = None ->
  fetchOrders w fuel startDate endDate environment (otherFiltersOf reqBody) st
  = (token ← getAccessToken w (Some selectedEnvironment);
     termQueries ← orThrow TypeError
                      (buildTermQueries (Js.lift requestData)
                         (getConfigurableTermQueryFields (processEnv w)));
     fetched ← fetchPages w fuel
                 (shown (apiBaseUrl
                    (getEnvironmentConfig (processEnv w) (Some selectedEnvironment)))
                  ++ "/dw/shop/v24_5/order_search")%string
                 token
                 (mkSearchPayload startDate endDate termQueries pageSize 0)
                 0 [] 0;
     st' ← getState;
     putOrderCache
       (NodeCache.set cacheKey fetched.1 (clock_store w) (orderCache st'));;
     ret (mkResponse 200 (HitsBody fetched.1))) (afterLookup w cacheKey st).
Proof.
  intros Hmiss. unfold fetchOrders, afterLookup.
  fold selectedEnvironment. fold requestData. fold cacheKey.
  unfold mbind at 1. unfold M_bind at 1. unfold bind at 1. unfold getState at 1.
  destruct (NodeCache.get cacheKey (clock_lookup w) (orderCache st)) as [c cache].
  simpl in Hmiss. subst c. done.
Qed.

End HandlerFacts.

(** C10: for an environment name (the argument, or DEV when it is
    absent) whose upper-case form is neither DEV nor PRD, the token
    cache has no slot: [getAccessToken] throws a TypeError at once, with
    no request sent, no token error built and nothing changed; in
    POST /api/orders, past the check of the dates and a cache miss, this
    gives the 500 response. *)
Theorem getAccessToken_unknown_environment
    (w : World) (environment : option string) (st : ServerState) :
  let env := Js.or_else environment "DEV" in
  Js.toUpperCase env <> "DEV" ->
  Js.toUpperCase env <> "PRD" ->
  getAccessToken w environment st = (Throw TypeError, st)
  /\ (forall fuel reqBody startDate endDate,
        Js.get "environment" reqBody = environment ->
        Js.get "startDate" reqBody = Some startDate -> startDate <> "" ->
        Js.get "endDate" reqBody = Some endDate -> endDate <> "" ->
        let cacheKey :=
          generateCacheKey startDate endDate
                           (requestDataOf (otherFiltersOf reqBody)) env in
        (NodeCache.get cacheKey (clock_lookup w) (orderCache st)).1 = None ->
        postOrders w fuel reqBody st
        = (Val serverError, afterLookup w cacheKey st)).
Proof.
  intros env Hdev Hprd.
  assert (forall st0, getAccessToken w environment st0 = (Throw TypeError, st0)) as Hthrow.
  { intros st0. unfold getAccessToken. fold env.
    run.
    by rewrite slotOf_None. }
  split; [apply Hthrow|].
  intros fuel reqBody startDate endDate Henv Hsd Hsd' Hed Hed' cacheKey Hmiss.
  rewrite (postOrders_dated w reqBody startDate endDate) by done.
  unfold try_catch.
  rewrite (fetchOrders_miss w reqBody startDate endDate); rewrite Henv; [|done].
  fold env. fold cacheKey.
  unfold mbind at 1. unfold M_bind at 1. unfold bind at 1.
  assert (getAccessToken w (Some env) (afterLookup w cacheKey st)
          = (Throw TypeError, afterLookup w cacheKey st)) as ->; [|done].
  unfold getAccessToken, env.
  rewrite or_else_Some_or_else by done. fold env.
  run.
  by rewrite slotOf_None.
Qed.

Lemma getAccessToken_unknown_environment_witness :
  getAccessToken (sampleWorld TokenRefused) (Some "staging") (sampleState emptySlot)
  = (Throw TypeError, sampleState emptySlot)
  /\ (postOrders (sampleWorld TokenRefused) 5 sampleBody (sampleState emptySlot)).1
     = Val serverError.
Proof.
  destruct (getAccessToken_unknown_environment
              (sampleWorld TokenRefused) (Some "staging") (sampleState emptySlot))
    as [Htoken Hroute]; [discriminate|discriminate|].
  split; [exact Htoken|].
  rewrite (Hroute 5%nat sampleBody "2025-01-01T00:00:00.000Z" "2025-01-31T23:59:59.999Z");
    [reflexivity|reflexivity|reflexivity|discriminate|reflexivity|discriminate|].
  reflexivity.
Defined.

(** ** The paginated fetch *)

Section FetchFacts.
Variable w : World.
Variables url bearer : string.
Variable p : SearchPayload.

Lemma withRequests_nil st : withRequests st [] = st.
Proof. destruct st. unfold withRequests. simpl. by rewrite app_nil_r. Qed.

Lemma withRequests_app st a b :
  withRequests (withRequests st a) b = withRequests st (a ++ b).
Proof. unfold withRequests. simpl. by rewrite app_assoc. Qed.

Lemma offsetAt_S n :
  offsetAt w p (S n) = (offsetAt w p n + List.length (hitsOf (pageAt w p n)))%nat.
Proof.
  unfold pageAt. simpl.
  destruct (order_search w n (withStart p (offsetAt w p n))); simpl; lia.
Qed.

Lemma gathered_S n :
  gathered w p (S n) = gathered w p n ++ hitsOf (pageAt w p n).
Proof.
  unfold gathered. rewrite seq_S, map_app, concat_app. simpl.
  by rewrite app_nil_r.
Qed.

Lemma gathered_length n : List.length (gathered w p n) = offsetAt w p n.
Proof.
  induction n as [|n IH]; [done|].
  rewrite gathered_S, length_app, IH, offsetAt_S. done.
Qed.

Lemma pageRequests_S n len :
  pageRequests w url bearer p n (S len)
  = pageRequest w url bearer p n :: pageRequests w url bearer p (S n) len.
Proof. done. Qed.

(** One turn of the loop, in terms of the pages. *)
Lemma fetchPages_turn fuel n st :
  fetchPages w (S fuel) url bearer p n (gathered w p n) (offsetAt w p n) st
  = match pageAt w p n with
    | SearchFailed =>
        (Throw AxiosError, withRequests st [pageRequest w url bearer p n])
    | Page _ total =>
        if belowTotal w p n
        then fetchPages w fuel url bearer p (S n)
               (gathered w p (S n)) (offsetAt w p (S n))
               (withRequests st [pageRequest w url bearer p n])
        else (Val (gathered w p (S n), total),
              withRequests st [pageRequest w url bearer p n])
    end.
Proof.
  pose proof (offsetAt_S n) as Hoff. pose proof (gathered_S n) as Hgat.
  pose proof (gathered_length (S n)) as Hlen.
  unfold belowTotal, pageRequest. revert Hoff Hgat Hlen.
  unfold pageAt.
  cbn [fetchPages]. unfold postSearch, mbind, M_bind, bind, record.
  destruct (order_search w n (withStart p (offsetAt w p n))) as [hits total|];
    intros Hoff Hgat Hlen; cbn [hitsOf] in Hoff, Hgat; [|done].
  unfold ret at 1. cbn beta iota. rewrite <- Hoff, <- Hgat, Hlen.
  destruct (Z.of_nat (offsetAt w p (S n)) <? total)%Z; done.
Qed.

Lemma belowTotal_answered n :
  belowTotal w p n = true -> exists hits total, pageAt w p n = Page hits total.
Proof.
  unfold belowTotal. destruct (pageAt w p n); [by eexists _, _|done].
Qed.

(** The loop goes on while the gathered count is below the reported
    total, and returns at the first page with which it is reached. *)
Lemma fetchPages_reaches : forall d n fuel st hits total,
  (forall i, (n <= i < n + d)%nat -> belowTotal w p i = true) ->
  pageAt w p (n + d) = Page hits total ->
  totalReached w p (n + d) = true ->
  (d < fuel)%nat ->
  fetchPages w fuel url bearer p n (gathered w p n) (offsetAt w p n) st
  = (Val (gathered w p (S (n + d)), total),
     withRequests st (pageRequests w url bearer p n (S d))).
Proof.
  induction d as [|d IH]; intros n fuel st hits total Hbelow Hpage Hreached Hfuel;
    (destruct fuel as [|fuel]; [lia|]); rewrite fetchPages_turn.
  - rewrite Nat.add_0_r in *.
    unfold totalReached in Hreached. unfold belowTotal.
    rewrite Hpage in *.
    by destruct (Z.of_nat (offsetAt w p (S n)) <? total)%Z.
  - rewrite (Hbelow n) by lia.
    destruct (belowTotal_answered n) as (h & t & ->); [apply Hbelow; lia|].
    rewrite (IH (S n) fuel _ hits total).
    + rewrite withRequests_app. do 3 f_equal.
      * rewrite <- Nat.add_succ_comm. done.
    + intros i Hi. apply Hbelow. lia.
    + by rewrite Nat.add_succ_comm.
    + by rewrite Nat.add_succ_comm.
    + lia.
Qed.

(** A page request that fails ends the loop by an error. *)
Lemma fetchPages_fails : forall d n fuel st,
  (forall i, (n <= i < n + d)%nat -> belowTotal w p i = true) ->
  pageAt w p (n + d) = SearchFailed ->
  (d < fuel)%nat ->
  fetchPages w fuel url bearer p n (gathered w p n) (offsetAt w p n) st
  = (Throw AxiosError, withRequests st (pageRequests w url bearer p n (S d))).
Proof.
  induction d as [|d IH]; intros n fuel st Hbelow Hpage Hfuel;
    (destruct fuel as [|fuel]; [lia|]); rewrite fetchPages_turn.
  - rewrite Nat.add_0_r in *. by rewrite Hpage.
  - rewrite (Hbelow n) by lia.
    destruct (belowTotal_answered n) as (h & t & ->); [apply Hbelow; lia|].
    rewrite (IH (S n) fuel).
    + by rewrite withRequests_app.
    + intros i Hi. apply Hbelow. lia.
    + by rewrite Nat.add_succ_comm.
    + lia.
Qed.

(** While the gathered count stays below the reported total the loop
    does not return: every unit of fuel is spent on a page request. *)
Lemma fetchPages_goes_on : forall fuel n st,
  (forall i, (n <= i < n + fuel)%nat -> belowTotal w p i = true) ->
  fetchPages w fuel url bearer p n (gathered w p n) (offsetAt w p n) st
  = (Unfinished, withRequests st (pageRequests w url bearer p n fuel)).
Proof.
  induction fuel as [|fuel IH]; intros n st Hbelow.
  - simpl. unfold unfinished, pageRequests. simpl. by rewrite withRequests_nil.
  - rewrite fetchPages_turn, (Hbelow n) by lia.
    destruct (belowTotal_answered n) as (h & t & ->); [apply Hbelow; lia|].
    rewrite IH; [by rewrite withRequests_app|].
    intros i Hi. apply Hbelow. lia.
Qed.

(** The same from the start of a fetch. *)
Lemma fetchPages_stops k fuel st hits total :
  (forall i, (i < k)%nat -> belowTotal w p i = true) ->
  pageAt w p k = Page hits total ->
  totalReached w p k = true ->
  (k < fuel)%nat ->
  fetchPages w fuel url bearer p 0 [] 0 st
  = (Val (gathered w p (S k), total),
     withRequests st (pageRequests w url bearer p 0 (S k))).
Proof.
  intros Hbelow Hpage Hreached Hfuel.
  exact (fetchPages_reaches k 0 fuel st hits total
           (fun i Hi => Hbelow i (proj2 Hi)) Hpage Hreached Hfuel).
Qed.

Lemma fetchPages_aborts k fuel st :
  (forall i, (i < k)%nat -> belowTotal w p i = true) ->
  pageAt w p k = SearchFailed ->
  (k < fuel)%nat ->
  fetchPages w fuel url bearer p 0 [] 0 st
  = (Throw AxiosError, withRequests st (pageRequests w url bearer p 0 (S k))).
Proof.
  intros Hbelow Hpage Hfuel.
  exact (fetchPages_fails k 0 fuel st (fun i Hi => Hbelow i (proj2 Hi)) Hpage Hfuel).
Qed.

Lemma fetchPages_unfinished fuel st :
  (forall i, (i < fuel)%nat -> belowTotal w p i = true) ->
  fetchPages w fuel url bearer p 0 [] 0 st
  = (Unfinished, withRequests st (pageRequests w url bearer p 0 fuel)).
Proof.
  intros Hbelow.
  exact (fetchPages_goes_on fuel 0 st (fun i Hi => Hbelow i (proj2 Hi))).
Qed.

End FetchFacts.

(** ** A consistent order search *)

Section ConsistentSearch.
Variable w : World.
Variable records : list Hit.
Variable p : SearchPayload.
Hypothesis Hsearch : order_search w = consistentSearch records.

Lemma consistent_pageAt n :
  pageAt w p n
  = Page (take (count p) (drop (offsetAt w p n) records))
         (Z.of_nat (List.length records)).
Proof. unfold pageAt. by rewrite Hsearch. Qed.

Lemma consistent_offsetAt n :
  offsetAt w p n = Nat.min (n * count p) (List.length records).
Proof.
  induction n as [|n IH]; [simpl; lia|].
  rewrite offsetAt_S, consistent_pageAt. cbn [hitsOf].
  rewrite length_take, length_drop, IH, Nat.mul_succ_l. lia.
Qed.

Lemma consistent_gathered n : gathered w p n = take (n * count p) records.
Proof.
  induction n as [|n IH]; [done|].
  rewrite gathered_S, consistent_pageAt, IH, consistent_offsetAt. cbn [hitsOf].
  rewrite Nat.mul_succ_l.
  destruct (Nat.le_gt_cases (n * count p) (List.length records)) as [Hle|Hgt].
  - rewrite Nat.min_l by done. apply take_take_drop.
  - rewrite Nat.min_r by lia. rewrite drop_all, take_nil, app_nil_r.
    rewrite !take_ge by lia. done.
Qed.

(** With [k] full pages before the last one, the fetch takes [k + 1]
    requests and returns every record. *)
Lemma consistent_fetch url bearer k fuel st :
  (k * count p < List.length records \/ k = 0)%nat ->
  (List.length records <= S k * count p)%nat ->
  (k < fuel)%nat ->
  fetchPages w fuel url bearer p 0 [] 0 st
  = (Val (records, Z.of_nat (List.length records)),
     withRequests st (pageRequests w url bearer p 0 (S k))).
Proof.
  intros Hk Hlast Hfuel.
  rewrite (fetchPages_stops w url bearer p k fuel st
             (take (count p) (drop (offsetAt w p k) records))
             (Z.of_nat (List.length records))).
  - rewrite consistent_gathered, take_ge by done. done.
  - intros i Hi. unfold belowTotal.
    rewrite consistent_pageAt, consistent_offsetAt.
    apply Z.ltb_lt.
    assert (S i * count p <= k * count p)%nat by (apply Nat.mul_le_mono_r; lia).
    lia.
  - apply consistent_pageAt.
  - unfold totalReached.
    rewrite consistent_pageAt, consistent_offsetAt.
    apply negb_true_iff, Z.ltb_ge. lia.
  - done.
Qed.

End ConsistentSearch.

(** ** Empty pages *)

(** An order search that reports [total] records and hands out none. *)
Lemma empty_pages_go_on (w : World) url bearer p (total : Z) fuel st :
  order_search w = (fun _ _ => Page [] total) ->
  (0 < total)%Z ->
  fetchPages w fuel url bearer p 0 [] 0 st
  = (Unfinished, withRequests st (pageRequests w url bearer p 0 fuel)).
Proof.
  intros Hsearch Htotal.
  assert (forall n, offsetAt w p n = 0%nat) as Hoff.
  { induction n as [|n IH]; [done|].
    rewrite offsetAt_S, IH. unfold pageAt. by rewrite Hsearch. }
  apply fetchPages_unfinished.
  intros i _. unfold belowTotal, pageAt.
  rewrite Hsearch, Hoff. by apply Z.ltb_lt.
Qed.

(** ** Pagination of POST /api/orders *)

(** C1 (as the loop is written): page requests go on while the gathered
    count is below the total reported by the latest page, and the loop
    returns with the first page that brings the count up to the total
    it reports, after that many requests and no more; for an order
    search that holds 450 records and serves pages of 200, the fetch
    takes three requests, at offsets 0, 200 and 400, and returns all
    450 records. *)
Theorem fetchPages_stops_at_reported_total
    (w : World) (url bearer : string) (p : SearchPayload) (st : ServerState) :
  (forall k fuel hits total,
     (forall i, (i < k)%nat -> belowTotal w p i = true) ->
     pageAt w p k = Page hits total ->
     totalReached w p k = true ->
     (k < fuel)%nat ->
     fetchPages w fuel url bearer p 0 [] 0 st
     = (Val (gathered w p (S k), total),
        withRequests st (pageRequests w url bearer p 0 (S k))))
  /\ (forall records fuel,
        order_search w = consistentSearch records ->
        count p = 200%nat ->
        List.length records = 450%nat ->
        (3 <= fuel)%nat ->
        fetchPages w fuel url bearer p 0 [] 0 st
        = (Val (records, 450%Z),
           withRequests st (pageRequests w url bearer p 0 3))
        /\ pageRequests w url bearer p 0 3
           = [ mkExchange (SearchRequest url bearer (withStart p 0)) true;
               mkExchange (SearchRequest url bearer (withStart p 200)) true;
               mkExchange (SearchRequest url bearer (withStart p 400)) true ]).
Proof.
  split.
  - intros k fuel hits total. apply fetchPages_stops.
  - intros records fuel Hsearch Hcount Hlen Hfuel. split.
    + rewrite (consistent_fetch w records p Hsearch url bearer 2 fuel st);
        rewrite ?Hcount, ?Hlen; try lia. done.
    + unfold pageRequests, pageRequest. cbn [map seq].
      rewrite !(consistent_pageAt w records p Hsearch).
      rewrite !(consistent_offsetAt w records p Hsearch), Hcount, Hlen.
      done.
Qed.

Lemma fetchPages_stops_at_reported_total_witness :
  fetchPages (worldOf TokenRefused (consistentSearch (map numberedHit (seq 0 450))))
             3 sampleSearchUrl "t1" samplePayload 0 [] 0 (sampleState emptySlot)
  = (Val (map numberedHit (seq 0 450), 450%Z),
     withRequests (sampleState emptySlot)
       [ mkExchange (SearchRequest sampleSearchUrl "t1" (withStart samplePayload 0)) true;
         mkExchange (SearchRequest sampleSearchUrl "t1" (withStart samplePayload 200)) true;
         mkExchange (SearchRequest sampleSearchUrl "t1" (withStart samplePayload 400)) true ]).
Proof.
  destruct (proj2 (fetchPages_stops_at_reported_total
                     (worldOf TokenRefused (consistentSearch (map numberedHit (seq 0 450))))
                     sampleSearchUrl "t1" samplePayload (sampleState emptySlot))
                  (map numberedHit (seq 0 450)) 3%nat eq_refl eq_refl eq_refl
                  (le_n 3)) as [Hrun Hrequests].
  rewrite Hrun, Hrequests. reflexivity.
Defined.

(** C1, the empty page: an empty page that leaves the gathered count
    below the reported total does not end the loop; a second request is
    sent at the same offset. *)
Lemma fetchPages_goes_on_after_empty_page :
  pageEmpty (worldOf TokenRefused emptyFirstSearch) samplePayload 0 = true
  /\ fetchPages (worldOf TokenRefused emptyFirstSearch)
                5 sampleSearchUrl "t1" samplePayload 0 [] 0 (sampleState emptySlot)
     = (Val ([numberedHit 0; numberedHit 1], 2%Z),
        withRequests (sampleState emptySlot)
          [ mkExchange (SearchRequest sampleSearchUrl "t1" (withStart samplePayload 0)) true;
            mkExchange (SearchRequest sampleSearchUrl "t1" (withStart samplePayload 0)) true ]).
Proof. split; reflexivity. Qed.

(** ** How computations run *)

Section MonadFacts.
Context {A B : Type}.
Implicit Types (m : M A) (k : A -> M B).

Lemma bind_val m k st a st' : m st = (Val a, st') -> (x ← m; k x) st = k a st'.
Proof. unfold mbind, M_bind, bind. by intros ->. Qed.

Lemma bind_throw m k st e st' :
  m st = (Throw e, st') -> (x ← m; k x) st = (Throw e, st').
Proof. unfold mbind, M_bind, bind. by intros ->. Qed.

Lemma bind_unfinished m k st st' :
  m st = (Unfinished, st') -> (x ← m; k x) st = (Unfinished, st').
Proof. unfold mbind, M_bind, bind. by intros ->. Qed.

End MonadFacts.

(** ** What a request leaves behind *)

Lemma NodeCache_get_entries key now c :
  NodeCache.entries (NodeCache.get key now c).2 = NodeCache.entries c.
Proof.
  unfold NodeCache.get.
  destruct (NodeCache.entries c !! key) as [e|]; [|done].
  by destruct (NodeCache.expired now e).
Qed.

(** [getAccessToken] leaves the response cache alone; it ends, by an
    error or after requests that all succeeded. *)
Lemma getAccessToken_shape w environment st :
  exists o st' more,
    getAccessToken w environment st = (o, st')
    /\ orderCache st' = orderCache st
    /\ network st' = network st ++ more
    /\ ((exists e, o = Throw e) \/ ((exists token, o = Val token) /\ allSucceeded more)).
Proof.
  unfold getAccessToken, mbind, M_bind, bind, getState, try_catch, postToken.
  destruct (slotOf (tokenCache st) _) as [envCache|].
  - destruct (tokenValid envCache (clock_token w)).
    + eexists _, _, []. split; [done|]. rewrite app_nil_r.
      repeat split; try done. right. split; [by eexists|constructor].
    + destruct (oauth w _ _) as [access_token expires_in|].
      * eexists _, _, [_]. split; [done|]. simpl.
        repeat split; try done. right. split; [by eexists|].
        by repeat constructor.
      * eexists _, _, [_]. split; [done|]. simpl.
        repeat split; try done. left. by eexists.
  - eexists _, _, []. split; [done|]. rewrite app_nil_r.
    repeat split; try done. left. by eexists.
Qed.

(** The page loop leaves both caches alone; it ends by an error, or
    all of its requests succeeded. *)
Lemma fetchPages_shape w url bearer p : forall fuel n allHits start st,
  exists o st' more,
    fetchPages w fuel url bearer p n allHits start st = (o, st')
    /\ orderCache st' = orderCache st
    /\ network st' = network st ++ more
    /\ ((exists e, o = Throw e) \/ allSucceeded more).
Proof.
  induction fuel as [|fuel IH]; intros n allHits start st.
  - eexists _, _, []. split; [done|]. simpl. rewrite app_nil_r.
    repeat split; try done. right. constructor.
  - cbn [fetchPages]. unfold postSearch, mbind, M_bind, bind, record.
    destruct (order_search w n (withStart p start)) as [hits total|].
    + unfold ret at 1. cbn beta iota.
      destruct (_ && _).
      * edestruct IH as (o & st' & more & -> & Hcache & Hnet & Hend).
        simpl in Hcache, Hnet.
        eexists _, _, (_ :: more). split; [done|].
        split; [done|]. split; [by rewrite Hnet, <- app_assoc|].
        destruct Hend as [?|Hall]; [by left|right]. by constructor.
      * eexists _, _, [_]. split; [done|]. simpl.
        repeat split; try done. right. by repeat constructor.
    + eexists _, _, [_]. split; [done|]. simpl.
      repeat split; try done. left. by eexists.
Qed.

(** The handler ends by the 500 response with the entries of the
    response cache as they were, or all of its requests succeeded and
    it is unfinished or gives another response. *)
Lemma postOrders_shape w fuel reqBody st :
  exists o st' more,
    postOrders w fuel reqBody st = (o, st')
    /\ network st' = network st ++ more
    /\ ((o = Val serverError
         /\ NodeCache.entries (orderCache st') = NodeCache.entries (orderCache st))
        \/ (allSucceeded more
            /\ (o = Unfinished \/ exists r, o = Val r /\ status r <> 500%nat))).
Proof.
  unfold postOrders, try_catch.
  destruct (Js.falsy (Js.get "startDate" reqBody) || Js.falsy (Js.get "endDate" reqBody)).
  { eexists _, _, []. split; [done|]. rewrite app_nil_r. split; [done|].
    right. split; [constructor|]. right. by eexists. }
  unfold fetchOrders.
  unfold mbind at 1. unfold M_bind at 1. unfold bind at 1. unfold getState at 1.
  cbn beta iota.
  pose proof (NodeCache_get_entries
    (generateCacheKey (default "" (Js.get "startDate" reqBody))
       (default "" (Js.get "endDate" reqBody))
       (requestDataOf (otherFiltersOf reqBody))
       (Js.or_else (Js.get "environment" reqBody) "DEV"))
    (clock_lookup w) (orderCache st)) as Hentries.
  destruct (NodeCache.get _ (clock_lookup w) (orderCache st)) as [cachedData cache].
  simpl in Hentries.
  unfold mbind at 1. unfold M_bind at 1. unfold bind at 1. unfold putOrderCache at 1.
  cbn beta iota.
  destruct cachedData as [hits|].
  { eexists _, _, []. split; [done|]. simpl. rewrite app_nil_r. split; [done|].
    right. split; [constructor|]. right. by eexists. }
  set (st1 := mkServerState (tokenCache st) cache (network st)).
  destruct (getAccessToken_shape w
              (Some (Js.or_else (Js.get "environment" reqBody) "DEV")) st1)
    as (o & st2 & more & Hrun & Hcache & Hnet & Hend).
  destruct Hend as [[e ->]|[[token ->] Hall]].
  { rewrite (bind_throw _ _ _ _ _ Hrun).
    eexists _, _, more. split; [done|]. split; [done|]. left.
    split; [done|]. simpl. by rewrite Hcache. }
  rewrite (bind_val _ _ _ _ _ Hrun).
  destruct (buildTermQueries _ _) as [termQueries|]; unfold orThrow.
  2: { rewrite (bind_throw _ _ st2 TypeError st2) by done.
       eexists _, _, more. split; [done|]. split; [done|]. left.
       split; [done|]. simpl. by rewrite Hcache. }
  rewrite (bind_val _ _ st2 termQueries st2) by done.
  match goal with
  | |- context [fetchPages w fuel ?url token ?p 0 [] 0] =>
      destruct (fetchPages_shape w url token p fuel 0 [] 0%nat st2)
        as (o & st3 & more' & Hrun' & Hcache' & Hnet' & Hend')
  end.
  assert (network st3 = network st ++ (more ++ more')) as Hnet3.
  { rewrite Hnet', Hnet. simpl. by rewrite app_assoc. }
  destruct o as [fetched|e|].
  - rewrite (bind_val _ _ _ _ _ Hrun').
    destruct Hend' as [[e [=]]|Hall'].
    eexists _, _, (more ++ more'). split; [done|]. split; [done|].
    right. split; [by apply Forall_app|]. right. by eexists.
  - rewrite (bind_throw _ _ _ _ _ Hrun').
    eexists _, _, (more ++ more'). split; [done|]. split; [done|].
    left. split; [done|]. simpl. by rewrite Hcache', Hcache.
  - rewrite (bind_unfinished _ _ _ _ Hrun').
    destruct Hend' as [[e [=]]|Hall'].
    eexists _, _, (more ++ more'). split; [done|]. split; [done|].
    right. split; [by apply Forall_app|]. by left.
Qed.

(** ** Failures of POST /api/orders *)

(** C4: without a start date or an end date the handler answers 400
    and nothing changes, so no token or search request is sent; when a
    request to the remote system fails, for a token or for a page, the
    handler answers 500 and the entries of the response cache are those
    from before the request; so they are with every 500 response. *)
Theorem postOrders_failure_responses
    (w : World) (fuel : nat) (reqBody : Js.Obj string) (st : ServerState) :
  (Js.falsy (Js.get "startDate" reqBody) || Js.falsy (Js.get "endDate" reqBody) = true ->
   postOrders w fuel reqBody st
   = (Val (mkResponse 400 (ErrorBody "Start date and end date are required.")), st))
  /\ (forall failed,
        failed ∈ sentBetween st (postOrders w fuel reqBody st).2 ->
        succeeded failed = false ->
        (postOrders w fuel reqBody st).1 = Val serverError
        /\ NodeCache.entries (orderCache (postOrders w fuel reqBody st).2)
           = NodeCache.entries (orderCache st))
  /\ (forall r,
        (postOrders w fuel reqBody st).1 = Val r ->
        status r = 500%nat ->
        NodeCache.entries (orderCache (postOrders w fuel reqBody st).2)
        = NodeCache.entries (orderCache st)).
Proof.
  split; [|split].
  - intros Hmissing. unfold postOrders, try_catch. by rewrite Hmissing.
  - intros failed Hsent Hfailed.
    destruct (postOrders_shape w fuel reqBody st)
      as (o & st' & more & Hrun & Hnet & Hend).
    rewrite Hrun in *. simpl in *.
    destruct Hend as [?|[Hall _]]; [done|].
    unfold sentBetween in Hsent. rewrite Hnet, drop_app_length in Hsent.
    unfold allSucceeded in Hall. rewrite Forall_forall in Hall.
    apply Hall in Hsent. congruence.
  - intros r Hr Hstatus.
    destruct (postOrders_shape w fuel reqBody st)
      as (o & st' & more & Hrun & Hnet & Hend).
    rewrite Hrun in *. simpl in *.
    destruct Hend as [[_ ?]|[_ [->|(r' & -> & Hr')]]]; [done|done|].
    congruence.
Qed.

Lemma postOrders_failure_responses_witness :
  postOrders (worldOf TokenRefused failingSecondSearch) 5
             [("endDate", "2025-01-31T23:59:59.999Z")] cachedState
  = (Val (mkResponse 400 (ErrorBody "Start date and end date are required.")),
     cachedState)
  /\ ((postOrders (worldOf TokenRefused failingSecondSearch) 5 datedBody cachedState).1
      = Val serverError
      /\ NodeCache.entries
           (orderCache
              (postOrders (worldOf TokenRefused failingSecondSearch) 5 datedBody
                          cachedState).2)
         = NodeCache.entries (orderCache cachedState))
  /\ ((postOrders (worldOf (TokenGranted "t1" 1800) failingSecondSearch) 5 datedBody
                  cachedState).1
      = Val serverError
      /\ NodeCache.entries
           (orderCache
              (postOrders (worldOf (TokenGranted "t1" 1800) failingSecondSearch) 5
                          datedBody cachedState).2)
         = NodeCache.entries (orderCache cachedState)).
Proof.
  split.
  { apply (postOrders_failure_responses
             (worldOf TokenRefused failingSecondSearch) 5
             [("endDate", "2025-01-31T23:59:59.999Z")] cachedState).
    reflexivity. }
  split.
  { apply (proj1 (proj2 (postOrders_failure_responses
             (worldOf TokenRefused failingSecondSearch) 5 datedBody cachedState))
             (mkExchange sampleTokenRequest false)).
    - vm_compute. left.
    - reflexivity. }
  apply (proj1 (proj2 (postOrders_failure_responses
           (worldOf (TokenGranted "t1" 1800) failingSecondSearch) 5 datedBody
           cachedState))
           (mkExchange
              (SearchRequest sampleSearchUrl "t1" (withStart samplePayload 200))
              false)).
  - vm_compute. right. right. left.
  - reflexivity.
Defined.

(** ** Cache management *)

Lemma NodeCache_keys_length c :
  List.length (NodeCache.keys c) = size (NodeCache.entries c).
Proof. unfold NodeCache.keys. by rewrite length_fmap, length_map_to_list. Qed.

(** Clearing the cache reports the number of entries and leaves none. *)
Lemma clearCache_reports_size st :
  exists message st',
    clearCache st
    = (Val (mkResponse 200
              (ClearedBody message (size (NodeCache.entries (orderCache st))))),
       st')
    /\ NodeCache.entries (orderCache st') = ∅.
Proof.
  unfold clearCache, mbind, M_bind, bind, getState, putOrderCache.
  simpl. rewrite NodeCache_keys_length. by eexists _, _.
Qed.

(** C9: clearing a key that is not cached answers 404 with
    [deleted = false] and leaves everything as it was; clearing all
    entries of an empty cache reports 0 removed entries; clearing a
    cached key answers with [deleted = true] and removes that key and
    no other. *)
Theorem cache_clear_routes (st : ServerState) (key : string) :
  (NodeCache.entries (orderCache st) !! key = None ->
   clearCacheKey key st
   = (Val (mkResponse 404
             (DeletedBody ("Cache entry for key '" ++ key ++ "' not found.") false)),
      st))
  /\ (NodeCache.entries (orderCache st) = ∅ ->
      exists st',
        clearCache st
        = (Val (mkResponse 200
                  (ClearedBody "Cache cleared successfully. Removed 0 entries." 0)),
           st')
        /\ NodeCache.entries (orderCache st') = ∅)
  /\ (forall e,
        NodeCache.entries (orderCache st) !! key = Some e ->
        exists st',
          clearCacheKey key st
          = (Val (mkResponse 200
                    (DeletedBody ("Cache entry for key '" ++ key
                                  ++ "' cleared successfully.") true)),
             st')
          /\ NodeCache.entries (orderCache st')
             = delete key (NodeCache.entries (orderCache st))
          /\ NodeCache.entries (orderCache st') !! key = None
          /\ (forall other, other <> key ->
                NodeCache.entries (orderCache st') !! other
                = NodeCache.entries (orderCache st) !! other)).
Proof.
  split; [|split].
  - intros Habsent.
    unfold clearCacheKey, mbind, M_bind, bind, getState, NodeCache.del, putOrderCache.
    rewrite Habsent. simpl. by destruct st.
  - intros Hempty.
    unfold clearCache, mbind, M_bind, bind, getState, putOrderCache.
    simpl. rewrite NodeCache_keys_length, Hempty, map_size_empty.
    eexists. split; [done|]. done.
  - intros e Hcached.
    unfold clearCacheKey, mbind, M_bind, bind, getState, NodeCache.del, putOrderCache.
    rewrite Hcached. simpl.
    eexists. split; [done|]. simpl. split; [done|].
    split; [apply lookup_delete_eq|].
    intros other Hother. by apply lookup_delete_ne.
Qed.

Lemma cache_clear_routes_witness :
  clearCacheKey "orders_PRD_a_b_orderType:Prepaid" cachedState
  = (Val (mkResponse 404
            (DeletedBody "Cache entry for key 'orders_PRD_a_b_orderType:Prepaid' not found."
                         false)),
     cachedState)
  /\ (exists st',
        clearCacheKey "orders_DEV_a_b_orderType:Prepaid" cachedState
        = (Val (mkResponse 200
                  (DeletedBody
                     "Cache entry for key 'orders_DEV_a_b_orderType:Prepaid' cleared successfully."
                     true)),
           st')
        /\ NodeCache.entries (orderCache st') !! "orders_DEV_a_b_orderType:Prepaid"
           = None).
Proof.
  split.
  - apply (proj1 (cache_clear_routes cachedState "orders_PRD_a_b_orderType:Prepaid")).
    reflexivity.
  - destruct (proj2 (proj2 (cache_clear_routes cachedState
                              "orders_DEV_a_b_orderType:Prepaid"))
                    (NodeCache.mkEntry [numberedHit 7] 500 NodeCache.stdTTL)
                    eq_refl) as (st' & Hrun & _ & Hgone & _).
    exists st'. by split.
Defined.

Example clearCache_empty :
  (clearCache (sampleState emptySlot)).1
  = Val (mkResponse 200
           (ClearedBody "Cache cleared successfully. Removed 0 entries." 0)).
Proof. reflexivity. Qed.

Example clearCache_one :
  (clearCache cachedState).1
  = Val (mkResponse 200
           (ClearedBody "Cache cleared successfully. Removed 1 entries." 1)).
Proof. reflexivity. Qed.

(** ** The properties on sample data *)

Lemma generateCacheKey_order_invariant_witness :
  generateCacheKey "2025-01-01" "2025-01-31" filtersOneWay "DEV"
  = generateCacheKey "2025-01-01" "2025-01-31" filtersOtherWay "DEV".
Proof.
  apply generateCacheKey_order_invariant.
  - by apply (bool_decide_unpack _).
  - by apply (bool_decide_unpack _).
  - intros k v.
    assert (filtersOneWay ≡ₚ filtersOtherWay) as Hperm
      by apply (Permutation_app_comm [("orderType", "Postpaid"); ("channel", "web")]
                                     [("region", "")]).
    by rewrite Hperm.
Defined.

Example generateCacheKey_sample :
  generateCacheKey "2025-01-01" "2025-01-31" filtersOtherWay "DEV"
  = "orders_DEV_2025-01-01_2025-01-31_channel:web_orderType:Postpaid_region:".
Proof. reflexivity. Qed.

Lemma customerBreakdown_counts_guests_witness :
  exists r,
    processOrderData tenHits None = Some r
    /\ customerBreakdown r = mkCustomerBreakdown 4 6 6 4.
Proof.
  destruct (customerBreakdown_counts_guests tenHits None)
    as (r & Hr & _ & _ & _ & _ & Hten).
  exists r. split; [exact Hr|]. apply Hten; reflexivity.
Defined.

Lemma averages_zero_without_orders_witness :
  exists r,
    processOrderData tenHits (Some "Maya") = Some r
    /\ totalOrders (kpis r) = 0%nat
    /\ avgOrderValue (kpis r) = 0%Q
    /\ avgUnitsPerTransaction (kpis r) = 0%Q.
Proof.
  destruct (averages_zero_without_orders tenHits (Some "Maya"))
    as (r & Hr & Hcount & Hzero).
  exists r. split; [exact Hr|].
  assert (totalOrders (kpis r) = 0%nat) as Hnone by (rewrite Hcount; reflexivity).
  split; [exact Hnone|]. by apply Hzero.
Defined.

Example processOrderData_empty :
  processOrderData [] None
  = Some (mkAggregateResult [] (mkCustomerBreakdown 0 0 0 0) (mkKpis 0 0 0 0 0)).
Proof. reflexivity. Qed.

Example processOrderData_ten :
  processOrderData tenHits (Some "COD")
  = Some (mkAggregateResult
            [("2025-01-02", mkDayMetrics 10 (inject_Z 1000) (inject_Z 30))]
            (mkCustomerBreakdown 4 6 6 4)
            (mkKpis 10 (inject_Z 1000) (inject_Z 30) (1000 # 10) (30 # 10))).
Proof. reflexivity. Qed.

(** A first request fetches the 450 records by one token request and
    three page requests and stores them; the same request again is
    answered from the cache, with no request sent. *)
Example postOrders_fetches_then_hits :
  let first := postOrders steadyWorld 5 datedBody (sampleState emptySlot) in
  let second := postOrders steadyWorld 0 datedBody first.2 in
  first.1 = Val (mkResponse 200 (HitsBody (map numberedHit (seq 0 450))))
  /\ List.length (network first.2) = 4%nat
  /\ second.1 = first.1
  /\ network second.2 = network first.2.
Proof. vm_compute. repeat split; reflexivity. Qed.

(** An empty environment name counts as absent: the DEV slot is used. *)
Example getAccessToken_empty_name w st :
  getAccessToken w (Some "") st = getAccessToken w None st.
Proof. reflexivity. Qed.

(** ** The aggregator day by day *)

Section DailyMetrics.

(** The daily metrics after one record: the entry of its date is
    there and grows, unless the date has no entry and names a property
    that objects inherit. *)
Lemma tallyHit_dailyMetrics t hit :
  let date := dateOf (data hit) in
  let dm := t_dailyMetrics t in
  t_dailyMetrics (tallyHit t hit)
  = if match Js.get date dm with Some _ => true | None => negb (Js.inherited date) end
    then Js.define date
           (mkDayMetrics (orders (dayOf dm date) + 1)
                         (revenue (dayOf dm date) + order_total (data hit))
                         (units (dayOf dm date) + orderUnitsOf (data hit)))
           dm
    else dm.
Proof.
  cbn zeta. unfold tallyHit, dayOf, Js.read. cbn [t_dailyMetrics].
  destruct (Js.get (dateOf (data hit)) (t_dailyMetrics t)) as [day|] eqn:Hday.
  - unfold Js.define. by rewrite Hday.
  - destruct (Js.inherited (dateOf (data hit))) eqn:Hin; [done|].
    unfold Js.assign.
    destruct (String.eqb_spec (dateOf (data hit)) "__proto__") as [E|_]; [|done].
    by rewrite E in Hin.
Qed.

Lemma tallyHit_plainDates t hit :
  plainDates (t_dailyMetrics t) -> plainDates (t_dailyMetrics (tallyHit t hit)).
Proof.
  intros Hplain date. rewrite tallyHit_dailyMetrics. cbn zeta.
  destruct (Js.get (dateOf (data hit)) (t_dailyMetrics t)) as [day|] eqn:Hday.
  - rewrite elem_keys_define. intros [->|?]; [|by apply Hplain].
    apply Hplain, elem_keys_get. by exists day.
  - destruct (Js.inherited (dateOf (data hit))) eqn:Hin; simpl; [apply Hplain|].
    rewrite elem_keys_define. intros [->|?]; [done|by apply Hplain].
Qed.

Lemma fold_plainDates hits : forall t,
  plainDates (t_dailyMetrics t) ->
  plainDates (t_dailyMetrics (fold_left tallyHit hits t)).
Proof.
  induction hits as [|hit hits IH]; intros t Ht; [done|].
  cbn [fold_left]. by apply IH, tallyHit_plainDates.
Qed.

Lemma dayOf_tallyHit t hit date :
  Js.inherited date = false ->
  dayOf (t_dailyMetrics (tallyHit t hit)) date
  = if String.eqb (dateOf (data hit)) date
    then mkDayMetrics (orders (dayOf (t_dailyMetrics t) date) + 1)
                      (revenue (dayOf (t_dailyMetrics t) date) + order_total (data hit))
                      (units (dayOf (t_dailyMetrics t) date) + orderUnitsOf (data hit))
    else dayOf (t_dailyMetrics t) date.
Proof.
  intros Hplain. rewrite tallyHit_dailyMetrics. cbn zeta.
  destruct (String.eqb_spec (dateOf (data hit)) date) as [->|Hne].
  - rewrite Hplain. simpl.
    assert (match Js.get date (t_dailyMetrics t) with
            | Some _ => true
            | None => true
            end = true) as -> by (by destruct (Js.get date (t_dailyMetrics t))).
    unfold dayOf at 1. by rewrite get_define_eq.
  - destruct (match Js.get (dateOf (data hit)) (t_dailyMetrics t) with
              | Some _ => true
              | None => negb (Js.inherited (dateOf (data hit)))
              end); [|done].
    unfold dayOf at 1. by rewrite get_define_ne.
Qed.

(** Day by day, the tally grows by the records of the day. *)
Lemma dayOf_fold hits date : forall t,
  Js.inherited date = false ->
  let day := dayOf (t_dailyMetrics t) date in
  let day' := dayOf (t_dailyMetrics (fold_left tallyHit hits t)) date in
  orders day' = (orders day + List.length (onDate date hits))%nat
  /\ revenue day' = revenueFrom (revenue day) (onDate date hits)
  /\ units day' = unitsFrom (units day) (onDate date hits).
Proof.
  induction hits as [|hit hits IH]; intros t Hplain; cbn zeta.
  - simpl. split; [lia|done].
  - cbn [fold_left]. destruct (IH (tallyHit t hit) Hplain) as (Ho & Hr & Hu).
    cbn zeta in Ho, Hr, Hu. rewrite Ho, Hr, Hu, dayOf_tallyHit by done.
    unfold onDate. cbn [List.filter].
    destruct (String.eqb (dateOf (data hit)) date); simpl; [|done].
    split; [lia|done].
Qed.

Lemma tallyHit_wf t hit :
  Js.wf (t_dailyMetrics t) -> Js.wf (t_dailyMetrics (tallyHit t hit)).
Proof.
  rewrite tallyHit_dailyMetrics. cbn zeta. intros Hwf.
  destruct (match Js.get _ _ with Some _ => true | None => _ end); [|done].
  by apply wf_define.
Qed.

(** A date has an entry when the tally had one, or when a record
    brings it and the date names no inherited property. *)
Lemma keys_fold hits date : forall t,
  date ∈ Js.keys (t_dailyMetrics (fold_left tallyHit hits t))
  <-> date ∈ Js.keys (t_dailyMetrics t)
      \/ (onDate date hits <> [] /\ Js.inherited date = false).
Proof.
  induction hits as [|hit hits IH]; intros t.
  - simpl. split; [by left|]. by intros [?|[? _]].
  - cbn [fold_left]. rewrite IH, tallyHit_dailyMetrics. cbn zeta.
    unfold onDate. cbn [List.filter].
    destruct (String.eqb_spec (dateOf (data hit)) date) as [->|Hne].
    + destruct (Js.get date (t_dailyMetrics t)) as [day|] eqn:Hday.
      * assert (date ∈ Js.keys (t_dailyMetrics t)) as Hin
          by (apply elem_keys_get; by exists day).
        rewrite elem_keys_define. split; intros _; left; [done|by right].
      * apply get_None_keys in Hday.
        destruct (Js.inherited date) eqn:Hin; simpl.
        -- split; [intros [?|[_ ?]]; done|]. intros [?|[_ ?]]; done.
        -- rewrite elem_keys_define. split; [intros _; by right|].
           intros _. left. by left.
    + destruct (match Js.get _ _ with Some _ => true | None => _ end); [|done].
      rewrite elem_keys_define.
      split; [intros [[?|?]|?]|intros [?|?]]; auto; congruence.
Qed.

(** Every entry of the tally counts at least one order. *)
Lemma orders_positive hits : forall t,
  (forall date day, Js.get date (t_dailyMetrics t) = Some day -> (1 <= orders day)%nat) ->
  forall date day,
    Js.get date (t_dailyMetrics (fold_left tallyHit hits t)) = Some day ->
    (1 <= orders day)%nat.
Proof.
  induction hits as [|hit hits IH]; intros t Hpos; [done|].
  cbn [fold_left]. apply IH.
  intros date day. rewrite tallyHit_dailyMetrics. cbn zeta.
  destruct (match Js.get _ _ with Some _ => true | None => _ end); [|apply Hpos].
  destruct (String.eqb_spec (dateOf (data hit)) date) as [<-|Hne].
  - rewrite get_define_eq. intros [= <-]. simpl. lia.
  - rewrite get_define_ne by done. apply Hpos.
Qed.

Lemma sumOrders_app (dm dm' : Js.Obj DayMetrics) :
  sumOrders (dm ++ dm') = (sumOrders dm + sumOrders dm')%nat.
Proof.
  unfold sumOrders. induction dm as [|[k d] dm IH]; simpl; [done|].
  rewrite IH. lia.
Qed.

Lemma sumOrders_place (dm : Js.Obj DayMetrics) n date day :
  sumOrders (Js.place n date day dm) = (orders day + sumOrders dm)%nat.
Proof.
  unfold sumOrders. induction dm as [|[k d] dm IH]; simpl; [done|].
  destruct (Js.index k) as [i|]; [destruct (i <? n)%N|]; simpl; try done.
  rewrite IH. lia.
Qed.

Lemma sumOrders_replace (dm : Js.Obj DayMetrics) date day :
  (sumOrders (Js.replace date day dm) + orders (dayOf dm date)
   = sumOrders dm
     + match Js.get date dm with Some _ => orders day | None => 0 end)%nat.
Proof.
  unfold dayOf, sumOrders. induction dm as [|[k d] dm IH]; simpl; [lia|].
  destruct (String.eqb_spec date k) as [->|Hne]; simpl; lia.
Qed.

(** The orders of all the days follow an update of one entry. *)
Lemma sumOrders_define (dm : Js.Obj DayMetrics) date day :
  (sumOrders (Js.define date day dm) + orders (dayOf dm date)
   = sumOrders dm + orders day)%nat.
Proof.
  unfold Js.define. pose proof (sumOrders_replace dm date day) as Hrep.
  destruct (Js.get date dm) as [d|] eqn:Hd; [exact Hrep|].
  unfold dayOf. rewrite Hd. simpl.
  destruct (Js.index date) as [n|].
  - rewrite sumOrders_place. lia.
  - rewrite sumOrders_app. simpl. lia.
Qed.

(** The orders of all the days are the records tallied that get an
    entry, and the running totals add the records one after the other. *)
Lemma totals_fold hits : forall t,
  plainDates (t_dailyMetrics t) ->
  let t' := fold_left tallyHit hits t in
  sumOrders (t_dailyMetrics t')
  = (sumOrders (t_dailyMetrics t) + List.length (withEntry hits))%nat
  /\ t_totalRevenue t' = revenueFrom (t_totalRevenue t) hits
  /\ t_totalUnits t' = unitsFrom (t_totalUnits t) hits.
Proof.
  induction hits as [|hit hits IH]; intros t Hplain; cbn zeta.
  - simpl. split; [lia|done].
  - cbn [fold_left].
    destruct (IH (tallyHit t hit) (tallyHit_plainDates t hit Hplain)) as (Ho & Htr & Htu).
    cbn zeta in *. rewrite Ho, Htr, Htu. split; [|done].
    rewrite tallyHit_dailyMetrics. cbn zeta.
    unfold withEntry. cbn [List.filter]. fold (withEntry hits).
    pose proof (sumOrders_define (t_dailyMetrics t) (dateOf (data hit))
                (mkDayMetrics
                   (orders (dayOf (t_dailyMetrics t) (dateOf (data hit))) + 1)
                   (revenue (dayOf (t_dailyMetrics t) (dateOf (data hit)))
                    + order_total (data hit))
                   (units (dayOf (t_dailyMetrics t) (dateOf (data hit)))
                    + orderUnitsOf (data hit)))) as So.
    cbn [orders] in So.
    destruct (Js.get (dateOf (data hit)) (t_dailyMetrics t)) as [day|] eqn:Hday.
    + assert (Js.inherited (dateOf (data hit)) = false) as ->.
      { apply Hplain, elem_keys_get. by exists day. }
      simpl. lia.
    + destruct (Js.inherited (dateOf (data hit))); simpl; lia.
Qed.

End DailyMetrics.

Lemma processOrderData_result hits paymentMethod :
  exists r,
    processOrderData hits paymentMethod = Some r
    /\ dailyMetrics r
       = t_dailyMetrics (fold_left tallyHit (filterHits hits paymentMethod) emptyTally)
    /\ totalOrders (kpis r) = List.length (filterHits hits paymentMethod)
    /\ totalRevenue (kpis r)
       = t_totalRevenue (fold_left tallyHit (filterHits hits paymentMethod) emptyTally)
    /\ totalUnits (kpis r)
       = t_totalUnits (fold_left tallyHit (filterHits hits paymentMethod) emptyTally)
    /\ average (totalRevenue (kpis r)) (totalOrders (kpis r)) = Some (avgOrderValue (kpis r))
    /\ average (totalUnits (kpis r)) (totalOrders (kpis r))
       = Some (avgUnitsPerTransaction (kpis r)).
Proof.
  destruct (processOrderData_defined hits paymentMethod) as (a & b & Ha & Hb & Hr).
  eexists. split; [exact Hr|]. simpl. by repeat split.
Qed.

(** The tallies of the breakdown of a result. *)
Lemma customerBreakdown_tallies hits paymentMethod :
  let processed := filterHits hits paymentMethod in
  (forall r, processOrderData hits paymentMethod = Some r ->
     new (customerBreakdown r) = guests processed)
  /\ (forall r, processOrderData hits paymentMethod = Some r ->
       unregistered (customerBreakdown r) = guests processed)
  /\ (forall r, processOrderData hits paymentMethod = Some r ->
       returning (customerBreakdown r) = nonGuests processed)
  /\ (forall r, processOrderData hits paymentMethod = Some r ->
       registered (customerBreakdown r) = nonGuests processed).
Proof.
  intros processed.
  destruct (processOrderData_defined hits paymentMethod) as (a & b & _ & _ & Hr).
  fold processed in Hr.
  repeat split; intros r Hr'; rewrite Hr in Hr'; injection Hr' as <-;
    simpl; rewrite tally_breakdown; done.
Qed.

Lemma fold_wf hits : forall t,
  Js.wf (t_dailyMetrics t) -> Js.wf (t_dailyMetrics (fold_left tallyHit hits t)).
Proof.
  induction hits as [|hit hits IH]; intros t Ht; [done|].
  cbn [fold_left]. by apply IH, tallyHit_wf.
Qed.

(** The daily metrics of a result have one entry per date, and every
    entry counts at least one order. *)
Lemma dailyMetrics_days hits paymentMethod :
  exists r,
    processOrderData hits paymentMethod = Some r
    /\ Js.wf (dailyMetrics r)
    /\ (forall date day,
          Js.get date (dailyMetrics r) = Some day -> (1 <= orders day)%nat).
Proof.
  destruct (processOrderData_result hits paymentMethod) as (r & Hr & Hdm & _).
  exists r. split; [exact Hr|]. rewrite Hdm. clear Hdm. split.
  - apply fold_wf, wf_nil.
  - by apply orders_positive.
Qed.

(** X1: the aggregator groups by date: a date has an entry in the daily
    metrics exactly when a processed record was created on it and the
    date names no property that objects inherit (such as constructor),
    no date has two entries, and the entry of a date counts the records
    of that date and adds their totals and their units, one record
    after the other from 0. *)
Theorem dailyMetrics_group_by_date
    (hits : list Hit) (paymentMethod : option string) (date : string) :
  let processed := filterHits hits paymentMethod in
  exists r,
    processOrderData hits paymentMethod = Some r
    /\ Js.wf (dailyMetrics r)
    /\ (date ∈ Js.keys (dailyMetrics r)
        <-> onDate date processed <> [] /\ Js.inherited date = false)
    /\ (forall day,
          Js.get date (dailyMetrics r) = Some day ->
          orders day = List.length (onDate date processed)
          /\ (1 <= orders day)%nat
          /\ revenue day = revenueOf (onDate date processed)
          /\ units day = unitsOf (onDate date processed)).
Proof.
  intros processed.
  destruct (processOrderData_result hits paymentMethod) as (r & Hr & Hdm & _).
  exists r. split; [exact Hr|]. rewrite Hdm. fold processed.
  assert (date ∈ Js.keys (t_dailyMetrics (fold_left tallyHit processed emptyTally))
          <-> onDate date processed <> [] /\ Js.inherited date = false) as Hkeys.
  { rewrite keys_fold. simpl. split; [intros [Hin|?]; [|done]|by right].
    by apply elem_of_nil in Hin. }
  split; [apply fold_wf, wf_nil|]. split; [exact Hkeys|].
  intros day Hday.
  assert (Js.inherited date = false) as Hplain.
  { apply Hkeys, elem_keys_get. by exists day. }
  destruct (dayOf_fold processed date emptyTally Hplain) as (Ho & Hrev & Hu).
  cbn zeta in Ho, Hrev, Hu. unfold dayOf in Ho, Hrev, Hu.
  rewrite Hday in Ho, Hrev, Hu. simpl in Ho, Hrev, Hu.
  split; [done|]. split; [|by split].
  by apply (orders_positive processed emptyTally) with (date := date).
Qed.

(** X2: the figures of the aggregate agree with each other: the orders of
    the days add up to the number of processed records whose date gets
    an entry, which is the total of orders when no date names a
    property that objects inherit and is below it otherwise; new and
    returning add up to the total of orders, as do registered and
    unregistered; the total revenue and the total of units add the
    processed records one after the other from 0. *)
Theorem aggregate_totals_agree (hits : list Hit) (paymentMethod : option string) :
  let processed := filterHits hits paymentMethod in
  exists r,
    processOrderData hits paymentMethod = Some r
    /\ totalOrders (kpis r) = List.length processed
    /\ sumOrders (dailyMetrics r) = List.length (withEntry processed)
    /\ (sumOrders (dailyMetrics r) <= totalOrders (kpis r))%nat
    /\ (withEntry processed = processed ->
        sumOrders (dailyMetrics r) = totalOrders (kpis r))
    /\ (new (customerBreakdown r) + returning (customerBreakdown r))%nat
       = totalOrders (kpis r)
    /\ (registered (customerBreakdown r) + unregistered (customerBreakdown r))%nat
       = totalOrders (kpis r)
    /\ totalRevenue (kpis r) = revenueOf processed
    /\ totalUnits (kpis r) = unitsOf processed.
Proof.
  intros processed.
  destruct (processOrderData_result hits paymentMethod)
    as (r & Hr & Hdm & Hn & Hrev & Hun & _).
  destruct (customerBreakdown_tallies hits paymentMethod) as (Hnew & Hunr & Hret & Hreg).
  exists r. split; [exact Hr|].
  assert (plainDates (t_dailyMetrics emptyTally)) as Hplain
    by (intros date Hin; by apply elem_of_nil in Hin).
  destruct (totals_fold processed emptyTally Hplain) as (So & Tr & Tu).
  cbn zeta in *. fold processed in Hdm, Hn, Hrev, Hun.
  rewrite Hdm, Hn, Hrev, Hun.
  pose proof (guests_nonGuests processed) as Hsum.
  rewrite (Hnew r Hr), (Hunr r Hr), (Hret r Hr), (Hreg r Hr). fold processed.
  assert (List.length (withEntry processed) <= List.length processed)%nat as Hle
    by apply List.filter_length_le.
  simpl in *. split; [done|]. split; [lia|]. split; [lia|].
  split; [intros E; rewrite E in So; lia|].
  split; [lia|]. split; [lia|]. by split.
Qed.

(** A record dated [constructor] is counted in the totals and has no
    entry among the days. *)
Example inherited_date_gets_no_entry :
  exists r,
    processOrderData oddlyDatedHits None = Some r
    /\ Js.keys (dailyMetrics r) = ["2025-01-01"]
    /\ sumOrders (dailyMetrics r) = 1%nat
    /\ totalOrders (kpis r) = 2%nat
    /\ customerBreakdown r = mkCustomerBreakdown 1 1 1 1.
Proof. eexists. split; [reflexivity|]. by vm_compute. Qed.

Lemma average_positive total n :
  (0 < n)%nat -> average total n = Some (total / inject_Z (Z.of_nat n))%Q.
Proof.
  unfold average, divide. destruct n as [|n]; [lia|done].
Qed.

(** ** The dashboard *)

Lemma filterHits_Some hits pm :
  filterHits hits (Some pm)
  = if Js.truthy pm && negb (String.eqb (Js.trim pm) "")
    then List.filter (paysWith pm) hits else hits.
Proof. done. Qed.

(** X3: the table and the KPI agree: the table has as many rows as the
    aggregate of the same raw data under the same payment method counts
    orders, and no row before any data arrived; under a payment method
    that is not blank every row shows that method in its payment cell. *)
Theorem getFilteredOrders_rows (rawData : list Hit) (paymentMethod : string) :
  getFilteredOrders None paymentMethod = []
  /\ (exists r,
        processOrderData rawData (Some paymentMethod) = Some r
        /\ List.length (getFilteredOrders (Some rawData) paymentMethod)
           = totalOrders (kpis r))
  /\ (Js.trim paymentMethod <> "" ->
      forall order,
        order ∈ getFilteredOrders (Some rawData) paymentMethod ->
        paymentCell order = paymentMethod).
Proof.
  split; [done|]. split.
  - destruct (processOrderData_result rawData (Some paymentMethod))
      as (r & Hr & _ & Hn & _).
    exists r. split; [exact Hr|]. rewrite Hn, filterHits_Some.
    unfold getFilteredOrders. by rewrite length_map.
  - intros Hblank order Hin. unfold getFilteredOrders in Hin.
    assert (paymentMethod <> "") as Hne by (intros ->; by apply Hblank).
    unfold Js.truthy in Hin.
    destruct (String.eqb_spec paymentMethod ""); [done|].
    destruct (String.eqb_spec (Js.trim paymentMethod) ""); [done|].
    simpl in Hin. apply list_elem_of_fmap in Hin as (hit & -> & Hhit).
    apply list_elem_of_In, filter_In in Hhit as [_ Hpays].
    unfold paysWith in Hpays. unfold paymentCell.
    destruct (payment_instruments (data hit)) as [[|first rest]|]; try done.
    destruct (payment_method_id first) as [id|]; [|done].
    apply String.eqb_eq in Hpays as ->.
    unfold Js.or_else, Js.truthy.
    by destruct (String.eqb_spec paymentMethod "").
Qed.

Lemma lookup_map {A B} (f : A -> B) (l : list A) i :
  map f l !! i = f <$> (l !! i).
Proof.
  revert i. induction l as [|a l IH]; intros [|i]; simpl; done.
Qed.

(** X4: the charts of an aggregate: the labels are the dates of the daily
    metrics in ascending order, each once; every point of the two lines
    is defined (no read of a missing day, no division by zero), the
    orders line shows the orders of the day and the other line the
    revenue of the day divided by its orders. *)
Theorem charts_of_aggregate (hits : list Hit) (paymentMethod : option string) :
  exists r,
    processOrderData hits paymentMethod = Some r
    /\ Js.sorted (sortedDates (dailyMetrics r))
    /\ sortedDates (dailyMetrics r) ≡ₚ Js.keys (dailyMetrics r)
    /\ NoDup (sortedDates (dailyMetrics r))
    /\ (forall i date,
          sortedDates (dailyMetrics r) !! i = Some date ->
          exists day,
            Js.get date (dailyMetrics r) = Some day
            /\ ordersPerDay (dailyMetrics r) !! i = Some (Some (orders day))
            /\ averagePerDay (dailyMetrics r) !! i
               = Some (Some (revenue day / inject_Z (Z.of_nat (orders day)))%Q)).
Proof.
  destruct (dailyMetrics_days hits paymentMethod) as (r & Hr & Hwf & Hpos).
  exists r. split; [exact Hr|].
  split; [apply sort_sorted|]. split; [apply sort_perm|].
  split; [unfold sortedDates; by rewrite sort_perm|].
  intros i date Hdate.
  assert (date ∈ Js.keys (dailyMetrics r)) as Hin.
  { rewrite <- (sort_perm (Js.keys (dailyMetrics r))).
    by eapply list_elem_of_lookup_2. }
  apply elem_keys_get in Hin as [day Hday]. exists day. split; [exact Hday|].
  unfold ordersPerDay, averagePerDay.
  rewrite !lookup_map, Hdate. simpl. rewrite Hday. simpl.
  split; [done|]. do 2 f_equal. apply average_positive.
  specialize (Hpos date day Hday). lia.
Qed.

(** ** Strings *)

Section StringFacts.

Lemma lower_char_idem c : Js.lower_char (Js.lower_char c) = Js.lower_char c.
Proof. destruct c as [[] [] [] [] [] [] [] []]; reflexivity. Qed.

Lemma upper_char_idem c : Js.upper_char (Js.upper_char c) = Js.upper_char c.
Proof. destruct c as [[] [] [] [] [] [] [] []]; reflexivity. Qed.

Lemma toLowerCase_idem s : Js.toLowerCase (Js.toLowerCase s) = Js.toLowerCase s.
Proof.
  unfold Js.toLowerCase. induction s as [|c s IH]; simpl; [done|].
  by rewrite lower_char_idem, IH.
Qed.

Lemma toUpperCase_idem s : Js.toUpperCase (Js.toUpperCase s) = Js.toUpperCase s.
Proof.
  unfold Js.toUpperCase. induction s as [|c s IH]; simpl; [done|].
  by rewrite upper_char_idem, IH.
Qed.

Lemma append_length (a c : string) :
  String.length (a ++ c) = (String.length a + String.length c)%nat.
Proof.
  induction a as [|x a IH]; [done|].
  change (S (String.length (a ++ c)) = S (String.length a + String.length c)).
  by rewrite IH.
Qed.

Lemma append_cancel_r (a b c : string) : (a ++ c = b ++ c)%string -> a = b.
Proof.
  revert b. induction a as [|x a IH]; intros [|y b] H.
  - done.
  - apply (f_equal String.length) in H. rewrite !append_length in H.
    simpl in H. lia.
  - apply (f_equal String.length) in H. rewrite !append_length in H.
    simpl in H. lia.
  - change (String x (a ++ c) = String y (b ++ c))%string in H.
    injection H as -> H. f_equal. by apply IH.
Qed.

Lemma append_assoc (a b c : string) : ((a ++ b) ++ c = a ++ (b ++ c))%string.
Proof.
  induction a as [|x a IH]; [done|].
  change (String x ((a ++ b) ++ c) = String x (a ++ (b ++ c)))%string.
  by rewrite IH.
Qed.

Lemma trim_start_chars s c : c ∈ Js.chars (Js.trim_start s) -> c ∈ Js.chars s.
Proof.
  induction s as [|x s IH]; simpl; [done|].
  destruct (Js.is_white x); [|done]. intros H. right. by apply IH.
Qed.

Lemma trim_end_chars s c : c ∈ Js.chars (Js.trim_end s) -> c ∈ Js.chars s.
Proof.
  induction s as [|x s IH]; simpl; [done|].
  destruct (Js.trim_end s) as [|y r] eqn:E.
  - destruct (Js.is_white x); simpl; [by intros H; apply elem_of_nil in H|].
    intros H. apply elem_of_cons in H as [->|H]; [left|by apply elem_of_nil in H].
  - simpl. intros H. apply elem_of_cons in H as [->|H]; [left|right].
    by apply IH.
Qed.

Lemma trim_chars s c : c ∈ Js.chars (Js.trim s) -> c ∈ Js.chars s.
Proof. unfold Js.trim. intros H. by apply trim_start_chars, trim_end_chars. Qed.

Lemma trim_end_idem s : Js.trim_end (Js.trim_end s) = Js.trim_end s.
Proof.
  induction s as [|x s IH]; simpl; [done|].
  destruct (Js.trim_end s) as [|y r] eqn:E.
  - destruct (Js.is_white x) eqn:W; simpl; [done|]. by rewrite W.
  - change (Js.trim_end (String x (String y r)))
      with (match Js.trim_end (String y r) with
            | EmptyString => if Js.is_white x then EmptyString else String x EmptyString
            | String a b => String x (String a b)
            end).
    by rewrite IH.
Qed.

(** What [trim_start] gives is empty or starts with a character that is
    not white, and [trim_end] keeps such a start. *)
Lemma trim_start_head s :
  match Js.trim_start s with
  | EmptyString => True
  | String c _ => Js.is_white c = false
  end.
Proof.
  induction s as [|x s IH]; simpl; [done|].
  by destruct (Js.is_white x) eqn:W; simpl.
Qed.

Lemma trim_end_head c s :
  Js.is_white c = false ->
  exists r, Js.trim_end (String c s) = String c r.
Proof.
  intros W. simpl. destruct (Js.trim_end s); [rewrite W|]; by eexists.
Qed.

Lemma trim_idem s : Js.trim (Js.trim s) = Js.trim s.
Proof.
  unfold Js.trim. pose proof (trim_start_head s) as H.
  destruct (Js.trim_start s) as [|c t] eqn:E; [done|].
  destruct (trim_end_head c t H) as [r Hr].
  assert (Js.trim_start (Js.trim_end (String c t)) = Js.trim_end (String c t)) as ->.
  { rewrite Hr. simpl. by rewrite H. }
  apply trim_end_idem.
Qed.

Lemma split_pieces sep s piece :
  piece ∈ Js.split sep s -> sep ∉ Js.chars piece.
Proof.
  revert piece. induction s as [|c s IH]; intros piece; simpl.
  - intros H. apply list_elem_of_singleton in H as ->. apply not_elem_of_nil.
  - destruct (Ascii.eqb_spec c sep) as [->|Hne].
    + intros H. apply elem_of_cons in H as [->|H]; [apply not_elem_of_nil|by apply IH].
    + destruct (Js.split sep s) as [|h t] eqn:E.
      * intros H. apply list_elem_of_singleton in H as ->. simpl.
        rewrite not_elem_of_cons. split; [congruence|apply not_elem_of_nil].
      * intros H. apply elem_of_cons in H as [->|H].
        -- simpl. rewrite not_elem_of_cons. split; [congruence|].
           apply IH. left.
        -- apply IH. by right.
Qed.

End StringFacts.

(** ** The configured fields *)

(** X5: every permitted value read for a field is a non-empty text without
    white space around it and without a comma. *)
Theorem field_options_are_clean (env : ProcessEnv) (fieldKey option : string) :
  option ∈ getFieldOptionsFromEnv env fieldKey ->
  option <> "" /\ Js.trim option = option /\ ("," : ascii) ∉ Js.chars option.
Proof.
  unfold getFieldOptionsFromEnv.
  destruct (Js.get (valuesKey fieldKey) env) as [envValue|];
    [|by intros H; apply elem_of_nil in H].
  destruct (_ && _); [|by intros H; apply elem_of_nil in H].
  intros H. apply list_elem_of_In, filter_In in H as [H Hne].
  apply in_map_iff in H as (piece & <- & Hpiece).
  split; [|split].
  - intros E. rewrite E in Hne. done.
  - apply trim_idem.
  - intros Hc. apply trim_chars in Hc.
    by apply (split_pieces "," envValue piece); [apply list_elem_of_In|].
Qed.

Lemma field_options_are_clean_witness :
  "Postpaid" ∈ getFieldOptionsFromEnv sampleEnv "order_type"
  /\ Js.trim "Postpaid" = "Postpaid".
Proof.
  assert ("Postpaid" ∈ getFieldOptionsFromEnv sampleEnv "order_type") as Hin
    by (vm_compute; right; left).
  split; [exact Hin|].
  exact (proj1 (proj2 (field_options_are_clean sampleEnv "order_type" "Postpaid" Hin))).
Defined.

(** *** The order of enumeration *)

Section OrderFacts.
Context {V : Type}.
Implicit Types o : Js.Obj V.

Lemma index_pretty k n : Js.index k = Some n -> k = pretty n.
Proof.
  unfold Js.index. destruct (Js.number 0 k) as [m|]; [|done].
  destruct (String.eqb_spec (pretty m) k) as [<-|]; [|done]. simpl.
  destruct (m <=? 4294967294)%N; [|done]. by intros [= ->].
Qed.

Lemma index_inj a b n : Js.index a = Some n -> Js.index b = Some n -> a = b.
Proof. intros Ha Hb. apply index_pretty in Ha, Hb. congruence. Qed.

Lemma place_last n k v o :
  Js.index k = Some n ->
  Forall (fun k' => Js.before k' k) (Js.keys o) ->
  Js.place n k v o = o ++ [(k, v)].
Proof.
  intros Hk. unfold Js.keys. induction o as [|[k' v'] o IH]; simpl; [done|].
  intros Hall. apply Forall_cons in Hall as [Hb Hall].
  unfold Js.before in Hb. rewrite Hk in Hb.
  destruct (Js.index k') as [n'|]; [|done].
  apply N.ltb_lt in Hb. rewrite Hb. by rewrite IH.
Qed.

(** A new key that may come last does come last. *)
Lemma define_last k v o :
  k ∉ Js.keys o ->
  Forall (fun k' => Js.before k' k) (Js.keys o) ->
  Js.define k v o = o ++ [(k, v)].
Proof.
  intros Hk Hall. unfold Js.define. apply get_None_keys in Hk. rewrite Hk.
  destruct (Js.index k) as [n|] eqn:Hn; [by apply place_last|done].
Qed.

Lemma ordered_snoc ks k : Js.index k = None -> Js.ordered ks -> Js.ordered (ks ++ [k]).
Proof.
  intros Hk. unfold Js.ordered.
  induction ks as [|a ks IH]; simpl; intros Hord; [by repeat constructor|].
  apply StronglySorted_inv in Hord as [Hord Hall].
  constructor; [by apply IH|].
  apply Forall_app. split; [done|].
  constructor; [|done]. unfold Js.before. by rewrite Hk.
Qed.

Lemma ordered_before ks1 k ks2 :
  Js.ordered (ks1 ++ k :: ks2) -> Forall (fun k' => Js.before k' k) ks1.
Proof.
  unfold Js.ordered. induction ks1 as [|a ks1 IH]; simpl; [by constructor|].
  intros Hord. apply StronglySorted_inv in Hord as [Hord Hall].
  constructor; [|by apply IH].
  apply Forall_app in Hall as [_ Hall]. by apply Forall_cons in Hall as [? _].
Qed.

Lemma ordered_drop ks1 k ks2 : Js.ordered (ks1 ++ k :: ks2) -> Js.ordered (ks1 ++ ks2).
Proof.
  unfold Js.ordered. induction ks1 as [|a ks1 IH]; simpl; intros Hord;
    apply StronglySorted_inv in Hord as [Hord Hall]; [done|].
  constructor; [by apply IH|].
  apply Forall_app in Hall as [H1 H2]. apply Forall_cons in H2 as [_ H2].
  by apply Forall_app.
Qed.

Lemma ordered_place n k v o :
  Js.index k = Some n -> k ∉ Js.keys o ->
  Js.ordered (Js.keys o) -> Js.ordered (Js.keys (Js.place n k v o)).
Proof.
  intros Hk. unfold Js.ordered.
  induction o as [|[k' v'] o IH]; simpl; intros Hnotin Hord.
  - by repeat constructor.
  - apply not_elem_of_cons in Hnotin as [Hne Hnotin].
    apply StronglySorted_inv in Hord as [Hord Hall].
    destruct (Js.index k') as [n'|] eqn:Hk'.
    + destruct (n' <? n)%N eqn:Hlt; simpl.
      * constructor; [by apply IH|].
        apply Forall_forall. intros x Hx.
        change (x ∈ Js.keys (Js.place n k v o)) in Hx.
        rewrite keys_place in Hx. apply elem_of_cons in Hx as [->|Hx].
        -- unfold Js.before. rewrite Hk, Hk'. by apply N.ltb_lt.
        -- rewrite Forall_forall in Hall. by apply Hall.
      * apply N.ltb_ge in Hlt.
        assert (n <> n') as Hnn.
        { intros ->. apply Hne. by apply (index_inj k k' n'). }
        constructor; [by constructor|].
        constructor.
        -- unfold Js.before. rewrite Hk', Hk. lia.
        -- eapply Forall_impl; [exact Hall|]. intros x Hx.
           unfold Js.before in *. rewrite Hk' in Hx. rewrite Hk.
           destruct (Js.index x) as [nx|]; [lia|done].
    + simpl. constructor; [by constructor|]. constructor.
      * unfold Js.before. by rewrite Hk'.
      * eapply Forall_impl; [exact Hall|]. intros x Hx.
        unfold Js.before in *. rewrite Hk' in Hx.
        by destruct (Js.index x).
Qed.

Lemma ordered_define k v o :
  Js.ordered (Js.keys o) -> Js.ordered (Js.keys (Js.define k v o)).
Proof.
  intros Hord. unfold Js.define.
  destruct (Js.get k o) as [d|] eqn:Hg; [by rewrite keys_replace|].
  apply get_None_keys in Hg.
  destruct (Js.index k) as [n|] eqn:Hk; [by apply ordered_place|].
  unfold Js.keys. rewrite map_app. by apply ordered_snoc.
Qed.

Lemma ordered_assign k v o :
  Js.ordered (Js.keys o) -> Js.ordered (Js.keys (Js.assign k v o)).
Proof.
  unfold Js.assign. destruct (String.eqb k "__proto__"); [done|]. apply ordered_define.
Qed.

End OrderFacts.

Lemma getConfigurableTermQueryFields_ordered env :
  Js.ordered (Js.keys (getConfigurableTermQueryFields env)).
Proof.
  apply getConfigurableTermQueryFields_ind; [constructor|].
  intros k v o. apply ordered_assign.
Qed.

(** What the scan of the variables leaves in the field object. *)
Lemma configurable_fold (env : ProcessEnv) k : forall acc,
  let result :=
    Js.forEach
      (fun fields key fieldValue =>
         if Js.startsWith TERM_QUERY_FIELD_ key then
           let fieldKey := Js.toLowerCase (Js.remove_first TERM_QUERY_FIELD_ key) in
           if Js.truthy fieldValue then Js.assign fieldKey fieldValue fields else fields
         else fields)
      env acc in
  (k ∈ Js.keys result
   <-> k ∈ Js.keys acc
       \/ (k <> "__proto__"
           /\ exists key v,
                (key, v) ∈ env /\ Js.startsWith TERM_QUERY_FIELD_ key = true /\ v <> ""
                /\ k = Js.toLowerCase (Js.remove_first TERM_QUERY_FIELD_ key)))
  /\ (forall v,
        Js.get k result = Some v ->
        Js.get k acc = Some v
        \/ (v <> "" /\ exists key,
              (key, v) ∈ env /\ Js.startsWith TERM_QUERY_FIELD_ key = true
              /\ k = Js.toLowerCase (Js.remove_first TERM_QUERY_FIELD_ key))).
Proof.
  unfold Js.forEach.
  induction env as [|[key value] env IH]; intros acc; cbn zeta.
  - simpl. split.
    + split; [by left|]. intros [?|(_ & ? & ? & H & _)]; [done|].
      by apply elem_of_nil in H.
    + intros v Hv. by left.
  - cbn [fold_left fst snd]. destruct (IH
      (if Js.startsWith TERM_QUERY_FIELD_ key
       then if Js.truthy value
            then Js.assign (Js.toLowerCase (Js.remove_first TERM_QUERY_FIELD_ key))
                           value acc
            else acc
       else acc)) as [Hkeys Hget].
    cbn zeta in Hkeys, Hget. split.
    + rewrite Hkeys. clear Hkeys Hget IH.
      split.
      * intros [Hin|(Hproto & key' & v & Hin & Hp & Hv & Hk)].
        -- destruct (Js.startsWith TERM_QUERY_FIELD_ key) eqn:Hp; [|by left].
           unfold Js.truthy in Hin.
           destruct (String.eqb_spec value ""); simpl in Hin; [by left|].
           apply elem_keys_assign in Hin as [[-> Hproto]|?]; [|by left].
           right. split; [done|]. exists key, value. split; [left|done].
        -- right. split; [done|]. exists key', v. split; [by right|done].
      * intros [Hin|(Hproto & key' & v & Hin & Hp & Hv & Hk)].
        -- left. destruct (Js.startsWith TERM_QUERY_FIELD_ key); [|done].
           destruct (Js.truthy value); [|done].
           apply elem_keys_assign. by right.
        -- apply elem_of_cons in Hin as [[= -> ->]|Hin].
           ++ left. rewrite Hp. unfold Js.truthy.
              destruct (String.eqb_spec value ""); [done|]. simpl.
              apply elem_keys_assign. left. by rewrite <- Hk.
           ++ right. split; [done|]. exists key', v. done.
    + intros v Hv. apply Hget in Hv as [Hv|(Hne & key' & Hin & Hp & Hk)].
      * destruct (Js.startsWith TERM_QUERY_FIELD_ key) eqn:Hp; [|by left].
        unfold Js.truthy in Hv.
        destruct (String.eqb_spec value ""); simpl in Hv; [by left|].
        destruct (String.eqb_spec
                    (Js.toLowerCase (Js.remove_first TERM_QUERY_FIELD_ key)) k)
          as [Hk|Hk].
        -- destruct (String.eqb_spec k "__proto__") as [Hproto|Hproto].
           ++ left. rewrite Hk in Hv. unfold Js.assign in Hv.
              revert Hv. rewrite Hproto. by simpl.
           ++ rewrite Hk, get_assign_eq in Hv by done. injection Hv as <-.
              right. split; [done|]. exists key. split; [left|done].
        -- rewrite get_assign_ne in Hv by done. by left.
      * right. split; [done|]. exists key'. split; [by right|done].
Qed.

(** X6: the configured fields are read off the variables named with the
    prefix: a key is configured exactly when it is not [__proto__] and
    a variable with the prefix and a non-empty value has that key as
    the rest of its name in lower case (so the key is in lower case),
    and the remote field of a key is the non-empty value of such a
    variable; no key comes twice, and the keys that are array indices
    come first, in ascending order. *)
Theorem configurable_fields_from_variables (env : ProcessEnv) (k : string) :
  let configured := getConfigurableTermQueryFields env in
  (k ∈ Js.keys configured
   <-> k <> "__proto__"
       /\ exists key v,
            (key, v) ∈ env /\ Js.startsWith TERM_QUERY_FIELD_ key = true /\ v <> ""
            /\ k = Js.toLowerCase (Js.remove_first TERM_QUERY_FIELD_ key))
  /\ (k ∈ Js.keys configured -> Js.toLowerCase k = k)
  /\ (forall v,
        Js.get k configured = Some v ->
        v <> "" /\ exists key,
          (key, v) ∈ env /\ Js.startsWith TERM_QUERY_FIELD_ key = true
          /\ k = Js.toLowerCase (Js.remove_first TERM_QUERY_FIELD_ key))
  /\ Js.wf configured
  /\ Js.ordered (Js.keys configured).
Proof.
  intros configured.
  destruct (configurable_fold env k []) as [Hkeys Hget]. cbn zeta in Hkeys, Hget.
  fold (getConfigurableTermQueryFields env) in Hkeys, Hget. fold configured in Hkeys, Hget.
  assert (k ∈ Js.keys configured
   <-> k <> "__proto__"
       /\ exists key v,
            (key, v) ∈ env /\ Js.startsWith TERM_QUERY_FIELD_ key = true /\ v <> ""
            /\ k = Js.toLowerCase (Js.remove_first TERM_QUERY_FIELD_ key)) as Hiff.
  { rewrite Hkeys. split; [intros [H|H]; [by apply elem_of_nil in H|done]|by right]. }
  split; [exact Hiff|]. split; [|split; [|split]].
  - intros Hin. apply Hiff in Hin as (_ & key & v & _ & _ & _ & ->).
    apply toLowerCase_idem.
  - intros v Hv. by apply Hget in Hv as [?|?].
  - apply getConfigurableTermQueryFields_wf.
  - apply getConfigurableTermQueryFields_ordered.
Qed.

(** A [_VALUES] variable carries the prefix too: with a non-empty value
    it makes a configured field of its own, named after the field with
    [_values] at the end. *)
Example values_variable_is_a_field :
  Js.get "order_type_values" (getConfigurableTermQueryFields sampleEnv)
  = Some "Prepaid, Postpaid".
Proof. reflexivity. Qed.

(** A variable for [__proto__] configures nothing, and a field whose
    key is an array index is enumerated before the others. *)
Example configured_fields_enumeration :
  getConfigurableTermQueryFields
    [ ("TERM_QUERY_FIELD_B", "c_b"); ("TERM_QUERY_FIELD_10", "c_ten");
      ("TERM_QUERY_FIELD___PROTO__", "c_proto"); ("TERM_QUERY_FIELD_9", "c_nine") ]
  = [ ("9", "c_nine"); ("10", "c_ten"); ("b", "c_b") ].
Proof. reflexivity. Qed.

Lemma availableFields_keys env (cf : Js.Obj string) : forall acc,
  NoDup (Js.keys acc ++ Js.keys cf) ->
  Js.ordered (Js.keys acc ++ Js.keys cf) ->
  "__proto__" ∉ Js.keys cf ->
  Js.keys (Js.forEach
    (fun availableFields fieldKey fieldName =>
       let options := getFieldOptionsFromEnv env fieldKey in
       if (0 <? List.length options)%nat then
         Js.assign fieldKey (mkFieldInfo fieldName (fieldLabel fieldKey) options)
                   availableFields
       else availableFields) cf acc)
  = Js.keys acc
    ++ List.filter (fun f => (0 <? List.length (getFieldOptionsFromEnv env f))%nat)
                   (Js.keys cf).
Proof.
  unfold Js.forEach.
  induction cf as [|[k v] cf IH]; intros acc Hnd Hord Hproto; simpl.
  - by rewrite app_nil_r.
  - simpl in Hnd, Hord, Hproto. apply not_elem_of_cons in Hproto as [Hkp Hproto].
    pose proof Hnd as Hnd'. apply NoDup_app in Hnd' as (Hacc & Hdisj & Hcf).
    apply NoDup_cons in Hcf as [Hk Hcf].
    assert (k ∉ Js.keys acc) as Hka by (intros H; apply (Hdisj k H); left).
    destruct (0 <? List.length (getFieldOptionsFromEnv env k))%nat.
    + assert (forall info : FieldInfo, Js.assign k info acc = acc ++ [(k, info)]) as ->.
      { intros info. unfold Js.assign.
        destruct (String.eqb_spec k "__proto__"); [done|].
        apply define_last; [done|]. by eapply ordered_before. }
      assert (Js.keys (acc ++ [(k, mkFieldInfo v (fieldLabel k)
                                     (getFieldOptionsFromEnv env k))]) ++ Js.keys cf
              = Js.keys acc ++ k :: Js.keys cf) as Hkeys.
      { unfold Js.keys. rewrite map_app. simpl. by rewrite <- app_assoc. }
      rewrite IH.
      * unfold Js.keys. rewrite map_app. simpl. by rewrite <- app_assoc.
      * by rewrite Hkeys.
      * by rewrite Hkeys.
      * done.
    + rewrite IH; [done| | |done].
      * apply NoDup_app. split; [done|]. split; [|done].
        intros x Hx Hx'. apply (Hdisj x Hx). by right.
      * by eapply ordered_drop.
Qed.

(** X7: GET /api/config/fields lists the advertised fields in the order of
    the configured fields, leaving out those without permitted values,
    and answers 200 whatever the configuration. *)
Theorem config_fields_in_configured_order (env : ProcessEnv) :
  fields_status (getConfigFields env) = 200%nat
  /\ Js.keys (fields (getConfigFields env))
     = List.filter (fun f => (0 <? List.length (getFieldOptionsFromEnv env f))%nat)
                   (Js.keys (getConfigurableTermQueryFields env)).
Proof.
  split; [done|].
  unfold getConfigFields, availableFieldsOf. cbn [fields].
  rewrite availableFields_keys; [done| | |].
  - simpl. apply getConfigurableTermQueryFields_wf.
  - simpl. apply getConfigurableTermQueryFields_ordered.
  - apply getConfigurableTermQueryFields_proto.
Qed.

(** ** Cache keys of different requests *)

(** X8: for the same dates and filters, two environment texts that differ
    give different cache keys: the letter case of the environment
    matters to the response cache. *)
Theorem generateCacheKey_tells_environments
    (startDate endDate env1 env2 : string) (requestData : Js.Obj string) :
  env1 <> env2 ->
  generateCacheKey startDate endDate requestData env1
  <> generateCacheKey startDate endDate requestData env2.
Proof.
  intros Hne Heq. apply Hne. unfold generateCacheKey in Heq.
  cbn zeta in Heq.
  change ("orders_" ++ ?x)%string with (String "o" (String "r" (String "d"
    (String "e" (String "r" (String "s" (String "_" x))))))) in Heq.
  injection Heq as Heq. by apply append_cancel_r in Heq.
Qed.

Lemma generateCacheKey_tells_environments_witness :
  "dev" <> "DEV"
  /\ generateCacheKey "2025-01-01" "2025-01-31" filtersOneWay "dev"
     <> generateCacheKey "2025-01-01" "2025-01-31" filtersOneWay "DEV".
Proof.
  assert ("dev" <> "DEV") as Hne by discriminate.
  split; [exact Hne|].
  exact (generateCacheKey_tells_environments "2025-01-01" "2025-01-31" "dev" "DEV"
           filtersOneWay Hne).
Defined.

(** X9: the key does not tell where the environment ends and the start date
    begins: an environment [env_a] with start date [b] has the key of
    the environment [env] with start date [a_b]. *)
Theorem generateCacheKey_boundary
    (a b endDate env : string) (requestData : Js.Obj string) :
  generateCacheKey b endDate requestData (env ++ "_" ++ a)
  = generateCacheKey (a ++ "_" ++ b) endDate requestData env.
Proof.
  unfold generateCacheKey. cbn zeta. f_equal.
  rewrite !append_assoc. done.
Qed.

(** ** The token cache over several calls *)

Section TokenCalls.
Variable w : World.
Variable environment : option string.
Variable st : ServerState.

Let env := Js.or_else environment "DEV".
Let cacheKey := Js.toUpperCase env.
Let config := getEnvironmentConfig (processEnv w) (Some env).
Let url := (shown (apiBaseUrl config) ++ "/dw/oauth2/access_token?client_id="
            ++ shown (clientId config))%string.

Lemma getAccessToken_cached envCache token :
  slotOf (tokenCache st) cacheKey = Some envCache ->
  accessToken envCache = Some token ->
  tokenValid envCache (clock_token w) = true ->
  getAccessToken w environment st = (Val token, st).
Proof.
  intros Hslot Htoken Hvalid. unfold getAccessToken. fold env. fold cacheKey.
  run. by rewrite Hslot, Hvalid, Htoken.
Qed.

Lemma getAccessToken_renews envCache access_token expires_in :
  slotOf (tokenCache st) cacheKey = Some envCache ->
  tokenValid envCache (clock_token w) = false ->
  oauth w url (authHeader config) = TokenGranted access_token expires_in ->
  getAccessToken w environment st
  = (Val access_token,
     mkServerState
       (setSlot (tokenCache st) cacheKey
          (mkTokenSlot (Some access_token)
                       (Some (clock_renew w + (expires_in - 60) * 1000)%Z)))
       (orderCache st)
       (network st ++ [mkExchange (TokenRequest url (authHeader config)) true])).
Proof.
  intros Hslot Hinv Hreply. unfold getAccessToken. fold env. fold cacheKey.
  run. rewrite Hslot, Hinv. unfold try_catch, postToken. fold config. fold url.
  by rewrite Hreply.
Qed.

Lemma getAccessToken_exchanges envCache :
  slotOf (tokenCache st) cacheKey = Some envCache ->
  tokenValid envCache (clock_token w) = false ->
  exists o st' ok,
    getAccessToken w environment st = (o, st')
    /\ network st' = network st ++ [mkExchange (TokenRequest url (authHeader config)) ok].
Proof.
  intros Hslot Hinv. unfold getAccessToken. fold env. fold cacheKey.
  run. rewrite Hslot, Hinv. unfold try_catch, postToken. fold config. fold url.
  destruct (oauth w url (authHeader config)); by eexists _, _, _.
Qed.

End TokenCalls.

Lemma slotOf_setSlot_other tc cacheKey other s :
  other <> cacheKey -> slotOf (setSlot tc cacheKey s) other = slotOf tc other.
Proof.
  unfold slotOf, setSlot. intros Hne.
  destruct (String.eqb_spec cacheKey "DEV") as [->|?];
    [|destruct (String.eqb_spec cacheKey "PRD") as [->|?]]; simpl; try done.
  - by destruct (String.eqb_spec other "DEV").
  - destruct (String.eqb_spec other "DEV"); [done|].
    by destruct (String.eqb_spec other "PRD").
Qed.

(** X10: a renewed token is reused: once an exchange has granted a non-empty
    token, a later call for the same environment whose clock is before
    the stored expiry returns that token and sends nothing. The clock
    readings and the expiry are times that a [Date] holds; past that
    range the stored expiry is no date, and no clock is before it. *)
Theorem token_reused_until_expiry
    (w later : World) (environment : option string) (st : ServerState)
    (envCache : TokenSlot) (access_token : string) (expires_in : Z) :
  let env := Js.or_else environment "DEV" in
  let config := getEnvironmentConfig (processEnv w) (Some env) in
  let url := (shown (apiBaseUrl config) ++ "/dw/oauth2/access_token?client_id="
              ++ shown (clientId config))%string in
  slotOf (tokenCache st) (Js.toUpperCase env) = Some envCache ->
  tokenValid envCache (clock_token w) = false ->
  oauth w url (authHeader config) = TokenGranted access_token expires_in ->
  access_token <> "" ->
  clockTime (clock_renew w) ->
  clockTime (clock_token later) ->
  clockTime (clock_renew w + (expires_in - 60) * 1000) ->
  (clock_token later < clock_renew w + (expires_in - 60) * 1000)%Z ->
  exists st',
    getAccessToken w environment st = (Val access_token, st')
    /\ getAccessToken later environment st' = (Val access_token, st').
Proof.
  intros env config url Hslot Hinv Hreply Hne _ _ _ Hclock.
  eexists. split; [by eapply getAccessToken_renews|].
  eapply getAccessToken_cached.
  - cbn [tokenCache]. by eapply slotOf_setSlot.
  - done.
  - by eapply tokenValid_true.
Qed.

Lemma token_reused_until_expiry_witness :
  exists st',
    getAccessToken (sampleWorld (TokenGranted "t1" 1800)) (Some "dev")
                   (sampleState emptySlot)
    = (Val "t1", st')
    /\ getAccessToken (sampleWorld TokenRefused) (Some "dev") st' = (Val "t1", st').
Proof.
  apply (token_reused_until_expiry
           (sampleWorld (TokenGranted "t1" 1800)) (sampleWorld TokenRefused)
           (Some "dev") (sampleState emptySlot) emptySlot "t1" 1800%Z);
    [reflexivity|reflexivity|reflexivity|discriminate
    |unfold clockTime; simpl; lia|unfold clockTime; simpl; lia
    |unfold clockTime; simpl; lia|reflexivity].
Defined.

(** X11: a token that is empty, or whose lifetime is 60 seconds or less, is
    never reused: on a clock that does not run backwards, the next call
    for the environment sends a token request again. *)
Theorem short_lived_token_is_exchanged_again
    (w later : World) (environment : option string) (st : ServerState)
    (envCache : TokenSlot) (access_token : string) (expires_in : Z) :
  let env := Js.or_else environment "DEV" in
  let config := getEnvironmentConfig (processEnv w) (Some env) in
  let url := (shown (apiBaseUrl config) ++ "/dw/oauth2/access_token?client_id="
              ++ shown (clientId config))%string in
  slotOf (tokenCache st) (Js.toUpperCase env) = Some envCache ->
  tokenValid envCache (clock_token w) = false ->
  oauth w url (authHeader config) = TokenGranted access_token expires_in ->
  access_token = "" \/ (expires_in <= 60)%Z ->
  (clock_renew w <= clock_token later)%Z ->
  exists st' o st'',
    getAccessToken w environment st = (Val access_token, st')
    /\ getAccessToken later environment st' = (o, st'')
    /\ List.length (network st'') = S (List.length (network st')).
Proof.
  intros env config url Hslot Hinv Hreply Hshort Hclock.
  eexists. 
  destruct (getAccessToken_exchanges later environment
              (mkServerState
                 (setSlot (tokenCache st) (Js.toUpperCase env)
                    (mkTokenSlot (Some access_token)
                       (Some (clock_renew w + (expires_in - 60) * 1000)%Z)))
                 (orderCache st)
                 (network st ++ [mkExchange (TokenRequest url (authHeader config)) true]))
              (mkTokenSlot (Some access_token)
                 (Some (clock_renew w + (expires_in - 60) * 1000)%Z)))
    as (o & st'' & ok & Hrun & Hnet).
  - cbn [tokenCache]. by eapply slotOf_setSlot.
  - unfold tokenValid. cbn [accessToken tokenExpiresAt].
    destruct Hshort as [->|Hshort]; [done|].
    apply andb_false_iff. right. apply Z.ltb_ge. lia.
  - exists o, st''. split; [by eapply getAccessToken_renews|].
    split; [exact Hrun|]. rewrite Hnet. cbn [network].
    rewrite !length_app. cbn [List.length]. lia.
Qed.

Lemma short_lived_token_is_exchanged_again_witness :
  exists st' o st'',
    getAccessToken (sampleWorld (TokenGranted "t1" 60)) None (sampleState emptySlot)
    = (Val "t1", st')
    /\ getAccessToken (laterWorld (TokenGranted "t2" 60)) None st' = (o, st'')
    /\ List.length (network st'') = S (List.length (network st')).
Proof.
  apply (short_lived_token_is_exchanged_again
           (sampleWorld (TokenGranted "t1" 60)) (laterWorld (TokenGranted "t2" 60))
           None (sampleState emptySlot) emptySlot "t1" 60%Z);
    [reflexivity|reflexivity|reflexivity|right; reflexivity|discriminate].
Defined.

(** X12: a call for one environment leaves the slot of the other environment
    and the response cache as they are, however the call ends. *)
Theorem getAccessToken_keeps_other_slot
    (w : World) (environment : option string) (st : ServerState) (other : string) :
  other <> Js.toUpperCase (Js.or_else environment "DEV") ->
  slotOf (tokenCache (getAccessToken w environment st).2) other
  = slotOf (tokenCache st) other
  /\ orderCache (getAccessToken w environment st).2 = orderCache st.
Proof.
  intros Hother. unfold getAccessToken. run. unfold try_catch, postToken.
  destruct (slotOf (tokenCache st) _) as [envCache|]; [|done].
  destruct (tokenValid envCache (clock_token w)); [done|].
  destruct (oauth w _ _); simpl; [|done].
  split; [|done]. by apply slotOf_setSlot_other.
Qed.

Lemma getAccessToken_keeps_other_slot_witness :
  "PRD" <> Js.toUpperCase (Js.or_else (Some "dev") "DEV")
  /\ slotOf (tokenCache (getAccessToken (sampleWorld (TokenGranted "t1" 1800))
                                        (Some "dev") (sampleState emptySlot)).2) "PRD"
     = Some emptySlot.
Proof.
  assert ("PRD" <> Js.toUpperCase (Js.or_else (Some "dev") "DEV")) as Hne by discriminate.
  split; [exact Hne|].
  exact (proj1 (getAccessToken_keeps_other_slot
                  (sampleWorld (TokenGranted "t1" 1800)) (Some "dev")
                  (sampleState emptySlot) "PRD" Hne)).
Defined.

(** X13: the environment name is read without regard to letter case: names
    with the same upper-case form share the configuration and the token
    slot, so the calls for them do the same. *)
Theorem environment_name_ignores_case
    (w : World) (a b : option string) (st : ServerState) :
  Js.toUpperCase (Js.or_else a "DEV") = Js.toUpperCase (Js.or_else b "DEV") ->
  getEnvironmentConfig (processEnv w) a = getEnvironmentConfig (processEnv w) b
  /\ getAccessToken w a st = getAccessToken w b st.
Proof.
  intros Hsame. split.
  - unfold getEnvironmentConfig. cbn zeta. by rewrite Hsame.
  - unfold getAccessToken, getEnvironmentConfig. cbn zeta.
    rewrite !or_else_Some_or_else by done. by rewrite Hsame.
Qed.

Lemma environment_name_ignores_case_witness :
  getEnvironmentConfig devProcessEnv (Some "dev") = getEnvironmentConfig devProcessEnv None
  /\ getAccessToken (sampleWorld (TokenGranted "t1" 1800)) (Some "dev")
                    (sampleState emptySlot)
     = getAccessToken (sampleWorld (TokenGranted "t1" 1800)) None
                      (sampleState emptySlot).
Proof.
  exact (environment_name_ignores_case (sampleWorld (TokenGranted "t1" 1800))
           (Some "dev") None (sampleState emptySlot) eq_refl).
Defined.

(** ** What POST /api/orders passes on *)

Lemma get_filter_keys {V} (P : string -> bool) (o : Js.Obj V) k :
  Js.get k (List.filter (fun kv => P (fst kv)) o) = if P k then Js.get k o else None.
Proof.
  induction o as [|[k' v'] o IH]; simpl; [by destruct (P k)|].
  destruct (P k') eqn:Hk'; simpl.
  - destruct (String.eqb_spec k k') as [->|Hne]; [by rewrite Hk'|done].
  - destruct (String.eqb_spec k k') as [->|Hne]; [by rewrite Hk' in *|done].
Qed.

Lemma wf_filter {V} (P : string * V -> bool) (o : Js.Obj V) :
  Js.wf o -> Js.wf (List.filter P o).
Proof.
  unfold Js.wf, Js.keys. induction o as [|[k v] o IH]; simpl; [done|].
  intros Hnd. apply NoDup_cons in Hnd as [Hk Hnd].
  destruct (P (k, v)); simpl; [|by apply IH].
  apply NoDup_cons. split; [|by apply IH].
  intros Hin. apply Hk. apply list_elem_of_fmap in Hin as ([k' v'] & -> & Hin).
  apply list_elem_of_In, filter_In in Hin as [Hin _].
  apply list_elem_of_fmap. exists (k', v'). split; [done|by apply list_elem_of_In].
Qed.

Lemma get_forEach_define {V} (o : Js.Obj V) k : forall acc,
  Js.wf o ->
  Js.get k (Js.forEach (fun acc k v => Js.define k v acc) o acc)
  = match Js.get k o with
    | Some v => Some v
    | None => Js.get k acc
    end.
Proof.
  unfold Js.forEach.
  induction o as [|[k' v'] o IH]; intros acc Hwf; simpl; [done|].
  unfold Js.wf in Hwf. simpl in Hwf. apply NoDup_cons in Hwf as [Hk' Hwf].
  rewrite IH by done.
  destruct (String.eqb_spec k k') as [->|Hne].
  - apply get_None_keys in Hk'. rewrite Hk'. apply get_define_eq.
  - rewrite get_define_ne by congruence. done.
Qed.

Lemma requestData_body_orderType (reqBody : Js.Obj string) :
  Js.wf reqBody ->
  Js.get "orderType" (requestDataOf (otherFiltersOf reqBody))
  = match Js.get "orderType" reqBody with
    | Some v => Some v
    | None => Some "Prepaid"
    end.
Proof.
  intros Hwf. unfold requestDataOf.
  rewrite get_forEach_define by (by apply wf_filter).
  unfold otherFiltersOf.
  rewrite (get_filter_keys
             (fun k => negb (String.eqb k "startDate") && negb (String.eqb k "endDate")
                       && negb (String.eqb k "environment")) reqBody "orderType").
  cbn [Js.get]. simpl. by destruct (Js.get "orderType" reqBody).
Qed.

(** X14: what the handler makes of the request body: the dates and the
    environment are taken out, every other property is passed on with
    the value it has (an empty order type stays empty), and the order
    type is Prepaid only when the body has none. *)
Theorem requestData_of_body (reqBody : Js.Obj string) (k : string) :
  Js.wf reqBody ->
  Js.get k (requestDataOf (otherFiltersOf reqBody))
  = if String.eqb k "startDate" || String.eqb k "endDate" || String.eqb k "environment"
    then None
    else match Js.get k reqBody with
         | Some v => Some v
         | None => if String.eqb k "orderType" then Some "Prepaid" else None
         end.
Proof.
  intros Hwf. unfold requestDataOf.
  rewrite get_forEach_define by (by apply wf_filter).
  unfold otherFiltersOf.
  rewrite (get_filter_keys
             (fun k => negb (String.eqb k "startDate") && negb (String.eqb k "endDate")
                       && negb (String.eqb k "environment")) reqBody).
  rewrite (get_filter_keys
             (fun k => negb (String.eqb k "startDate") && negb (String.eqb k "endDate")
                       && negb (String.eqb k "environment")) reqBody "orderType").
  cbn [Js.get].
  destruct (String.eqb_spec k "startDate") as [->|?]; [done|].
  destruct (String.eqb_spec k "endDate") as [->|?]; [done|].
  destruct (String.eqb_spec k "environment") as [->|?]; [done|].
  simpl. destruct (Js.get k reqBody) as [v|] eqn:Hk; [done|].
  destruct (String.eqb_spec k "orderType") as [->|?]; [|done].
  by rewrite Hk.
Qed.

Lemma requestData_of_body_witness :
  Js.get "orderType" (requestDataOf (otherFiltersOf
           [("startDate", "2025-01-01"); ("orderType", ""); ("endDate", "2025-01-31")]))
  = Some ""
  /\ Js.get "orderType" (requestDataOf (otherFiltersOf datedBody)) = Some "Prepaid"
  /\ Js.get "endDate" (requestDataOf (otherFiltersOf datedBody)) = None.
Proof.
  split; [|split].
  - apply (requestData_of_body
             [("startDate", "2025-01-01"); ("orderType", ""); ("endDate", "2025-01-31")]
             "orderType").
    by apply (bool_decide_unpack _).
  - apply (requestData_of_body datedBody "orderType"). by apply (bool_decide_unpack _).
  - apply (requestData_of_body datedBody "endDate"). by apply (bool_decide_unpack _).
Defined.

Lemma get_lift k (o : Js.Obj string) : Js.get k (Js.lift o) = Js.Str <$> Js.get k o.
Proof.
  unfold Js.lift. induction o as [|[k' v'] o IH]; simpl; [done|].
  by destruct (String.eqb k k').
Qed.

(** The builder on a body configured with the order type alone. *)
Lemma buildTermQueries_order_type (reqBody : Js.Obj string) :
  Js.wf reqBody ->
  buildTermQueries (Js.lift (requestDataOf (otherFiltersOf reqBody)))
                   [("order_type", "c_smartOrderType")]
  = Some (match Js.get "orderType" reqBody with
          | Some v => if nonBlank v then fixedTermQueries v else [statusFilter]
          | None => fixedTermQueries "Prepaid"
          end).
Proof.
  intros Hwf.
  unfold buildTermQueries, Js.forEach. cbn [fold_left fst snd].
  change (requestProperty "order_type") with "orderType".
  unfold Js.read. rewrite get_lift, requestData_body_orderType by done.
  destruct (Js.get "orderType" reqBody) as [v|]; simpl; [|done].
  rewrite provided_nonBlank. by destruct (nonBlank v).
Qed.

(** X15: with [c_smartOrderType] as the one configured field, the builder
    gives the fixed query of the first version of the server for a body
    whose order type is absent or not blank; for a blank order type it
    gives the status exclusion alone, where the first version asks for
    Prepaid (empty text) or for the blank text itself. *)
Theorem configured_query_and_fixed_query (reqBody : Js.Obj string) :
  Js.wf reqBody ->
  let orderType := Js.get "orderType" reqBody in
  let requestData := requestDataOf (otherFiltersOf reqBody) in
  let configured := [("order_type", "c_smartOrderType")] in
  (match orderType with Some v => nonBlank v = true | None => True end ->
   buildTermQueries (Js.lift requestData) configured
   = Some (fixedTermQueries (Js.or_else orderType "Prepaid")))
  /\ (forall v, orderType = Some v -> nonBlank v = false ->
      buildTermQueries (Js.lift requestData) configured = Some [statusFilter]).
Proof.
  intros Hwf orderType requestData configured.
  unfold requestData, configured. rewrite buildTermQueries_order_type by done.
  fold orderType. split.
  - destruct orderType as [v|]; [|done].
    intros Hv. rewrite Hv. unfold Js.or_else, Js.truthy.
    by destruct (String.eqb_spec v "") as [->|?].
  - by intros v -> ->.
Qed.

Lemma configured_query_and_fixed_query_witness :
  buildTermQueries (Js.lift (requestDataOf (otherFiltersOf datedBody)))
                   [("order_type", "c_smartOrderType")]
  = Some (fixedTermQueries "Prepaid").
Proof.
  refine (proj1 (configured_query_and_fixed_query datedBody _) I).
  by apply (bool_decide_unpack _).
Defined.

(** ** The response cache in POST /api/orders *)

Section CachedOrders.
Variable w : World.
Variable reqBody : Js.Obj string.
Variables startDate endDate : string.
Hypothesis HstartDate : Js.get "startDate" reqBody = Some startDate.
Hypothesis HendDate : Js.get "endDate" reqBody = Some endDate.
Hypothesis Hstart_given : startDate <> "".
Hypothesis Hend_given : endDate <> "".

Let selectedEnvironment := Js.or_else (Js.get "environment" reqBody) "DEV".
Let requestData := requestDataOf (otherFiltersOf reqBody).
Let cacheKey := generateCacheKey startDate endDate requestData selectedEnvironment.

Lemma postOrders_hit fuel st entry :
  NodeCache.entries (orderCache st) !! cacheKey = Some entry ->
  NodeCache.expired (clock_lookup w) entry = false ->
  postOrders w fuel reqBody st
  = (Val (mkResponse 200 (HitsBody (NodeCache.value entry))),
     mkServerState (tokenCache st)
       (NodeCache.mkCache (NodeCache.entries (orderCache st))
                          (NodeCache.hits (orderCache st) + 1)
                          (NodeCache.misses (orderCache st)))
       (network st)).
Proof.
  intros Hentry Hlive.
  rewrite (postOrders_dated w reqBody startDate endDate) by done.
  unfold try_catch.
  rewrite (fetchOrders_hit w reqBody startDate endDate fuel st (NodeCache.value entry)).
  - unfold afterLookup, NodeCache.get.
    fold selectedEnvironment. fold requestData. fold cacheKey.
    by rewrite Hentry, Hlive.
  - unfold NodeCache.get.
    fold selectedEnvironment. fold requestData. fold cacheKey.
    by rewrite Hentry, Hlive.
Qed.

(** After a miss the handler ends by the 500 response, or unfinished,
    or by the hits it fetched, stored under the key of the request. *)
Lemma postOrders_miss_outcome fuel st :
  (NodeCache.get cacheKey (clock_lookup w) (orderCache st)).1 = None ->
  exists o st',
    postOrders w fuel reqBody st = (o, st')
    /\ ((o = Val serverError \/ o = Unfinished)
        /\ NodeCache.entries (orderCache st') = NodeCache.entries (orderCache st)
        \/ exists allHits,
             o = Val (mkResponse 200 (HitsBody allHits))
             /\ NodeCache.entries (orderCache st')
                = <[cacheKey := NodeCache.mkEntry allHits (clock_store w) NodeCache.stdTTL]>
                    (NodeCache.entries (orderCache st))).
Proof.
  intros Hmiss.
  rewrite (postOrders_dated w reqBody startDate endDate) by done.
  unfold try_catch.
  rewrite (fetchOrders_miss w reqBody startDate endDate) by done.
  fold selectedEnvironment. fold requestData. fold cacheKey.
  pose proof (NodeCache_get_entries cacheKey (clock_lookup w) (orderCache st)) as Hsame.
  destruct (getAccessToken_shape w (Some selectedEnvironment) (afterLookup w cacheKey st))
    as (o & st1 & more & Hrun & Hcache & _ & Hend).
  assert (NodeCache.entries (orderCache st1) = NodeCache.entries (orderCache st))
    as Hst1 by (rewrite Hcache; unfold afterLookup; cbn [orderCache]; exact Hsame).
  destruct Hend as [[e ->]|[[token ->] _]].
  { rewrite (bind_throw _ _ _ _ _ Hrun). eexists _, _. split; [done|]. left.
    split; [by left|done]. }
  rewrite (bind_val _ _ _ _ _ Hrun).
  destruct (buildTermQueries _ _) as [termQueries|]; unfold orThrow.
  2: { rewrite (bind_throw _ _ st1 TypeError st1) by done.
       eexists _, _. split; [done|]. left. split; [by left|done]. }
  rewrite (bind_val _ _ st1 termQueries st1) by done.
  match goal with
  | |- context [fetchPages w fuel ?url token ?p 0 [] 0] =>
      destruct (fetchPages_shape w url token p fuel 0 [] 0%nat st1)
        as (o & st2 & more' & Hrun' & Hcache' & _ & _)
  end.
  assert (NodeCache.entries (orderCache st2) = NodeCache.entries (orderCache st))
    as Hst2 by (by rewrite Hcache').
  destruct o as [fetched|e|].
  - rewrite (bind_val _ _ _ _ _ Hrun'). eexists _, _. split; [done|]. right.
    exists fetched.1. split; [done|].
    cbn [orderCache NodeCache.set NodeCache.entries]. by rewrite Hst2.
  - rewrite (bind_throw _ _ _ _ _ Hrun'). eexists _, _. split; [done|]. left.
    split; [by left|done].
  - rewrite (bind_unfinished _ _ _ _ Hrun'). eexists _, _. split; [done|]. left.
    split; [by right|done].
Qed.

End CachedOrders.

(** X16: a request whose key has an entry that is not stale is answered 200
    with the stored hits: nothing is sent to the remote system, the
    token cache is not read or changed, the environment is not looked
    at, and only the count of hits of the cache goes up. *)
Theorem postOrders_cache_hit
    (w : World) (fuel : nat) (reqBody : Js.Obj string) (st : ServerState)
    (startDate endDate : string) (entry : NodeCache.Entry) :
  Js.get "startDate" reqBody = Some startDate -> startDate <> "" ->
  Js.get "endDate" reqBody = Some endDate -> endDate <> "" ->
  NodeCache.entries (orderCache st)
    !! generateCacheKey startDate endDate (requestDataOf (otherFiltersOf reqBody))
                        (Js.or_else (Js.get "environment" reqBody) "DEV")
  = Some entry ->
  NodeCache.expired (clock_lookup w) entry = false ->
  postOrders w fuel reqBody st
  = (Val (mkResponse 200 (HitsBody (NodeCache.value entry))),
     mkServerState (tokenCache st)
       (NodeCache.mkCache (NodeCache.entries (orderCache st))
                          (NodeCache.hits (orderCache st) + 1)
                          (NodeCache.misses (orderCache st)))
       (network st)).
Proof.
  intros Hsd Hsd' Hed Hed'. by apply postOrders_hit.
Qed.

(** X17: a request that was answered from a fresh fetch is answered again
    from the cache while the entry is not stale: the same request, up
    to 30 minutes after the store, gets the same 200 response with no
    request sent and the token cache as it is. *)
Theorem repeated_request_is_served_from_cache
    (w later : World) (fuel fuel' : nat) (reqBody : Js.Obj string)
    (st st' : ServerState) (startDate endDate : string) (hits : list Hit) :
  Js.get "startDate" reqBody = Some startDate -> startDate <> "" ->
  Js.get "endDate" reqBody = Some endDate -> endDate <> "" ->
  (NodeCache.get
     (generateCacheKey startDate endDate (requestDataOf (otherFiltersOf reqBody))
                       (Js.or_else (Js.get "environment" reqBody) "DEV"))
     (clock_lookup w) (orderCache st)).1 = None ->
  postOrders w fuel reqBody st = (Val (mkResponse 200 (HitsBody hits)), st') ->
  (clock_lookup later <= clock_store w + NodeCache.stdTTL)%Z ->
  exists st'',
    postOrders later fuel' reqBody st' = (Val (mkResponse 200 (HitsBody hits)), st'')
    /\ network st'' = network st'
    /\ tokenCache st'' = tokenCache st'
    /\ NodeCache.entries (orderCache st'') = NodeCache.entries (orderCache st').
Proof.
  intros Hsd Hsd' Hed Hed' Hmiss Hfirst Hclock.
  destruct (postOrders_miss_outcome w reqBody startDate endDate Hsd Hed Hsd' Hed'
              fuel st Hmiss) as (o & st1 & Hrun & Hout).
  rewrite Hfirst in Hrun. injection Hrun as <- <-.
  destruct Hout as [[[[=]|[=]] _]|(allHits & [= <-] & Hentries)].
  eexists. split.
  - apply (postOrders_hit later reqBody startDate endDate Hsd Hed Hsd' Hed' fuel' st'
             (NodeCache.mkEntry hits (clock_store w) NodeCache.stdTTL)).
    + rewrite Hentries. apply lookup_insert_eq.
    + unfold NodeCache.expired. simpl. apply Z.ltb_ge. lia.
  - done.
Qed.

(** X18: whatever the outcome, the handler leaves every entry of the
    response cache under another key than that of the request as it is. *)
Theorem postOrders_keeps_other_entries
    (w : World) (fuel : nat) (reqBody : Js.Obj string) (st : ServerState)
    (other : string) :
  other <> generateCacheKey (default "" (Js.get "startDate" reqBody))
                            (default "" (Js.get "endDate" reqBody))
                            (requestDataOf (otherFiltersOf reqBody))
                            (Js.or_else (Js.get "environment" reqBody) "DEV") ->
  NodeCache.entries (orderCache (postOrders w fuel reqBody st).2) !! other
  = NodeCache.entries (orderCache st) !! other.
Proof.
  intros Hother.
  destruct (Js.falsy (Js.get "startDate" reqBody) || Js.falsy (Js.get "endDate" reqBody))
    eqn:Hdates.
  { unfold postOrders, try_catch. by rewrite Hdates. }
  apply orb_false_iff in Hdates as [Hs He].
  destruct (Js.get "startDate" reqBody) as [startDate|] eqn:Hsd; [|done].
  destruct (Js.get "endDate" reqBody) as [endDate|] eqn:Hed; [|done].
  simpl in Hs, He, Hother. unfold Js.truthy in Hs, He.
  destruct (String.eqb_spec startDate ""); [done|].
  destruct (String.eqb_spec endDate ""); [done|].
  destruct (NodeCache.get
     (generateCacheKey startDate endDate (requestDataOf (otherFiltersOf reqBody))
                       (Js.or_else (Js.get "environment" reqBody) "DEV"))
     (clock_lookup w) (orderCache st)).1 as [hits|] eqn:Hget.
  - rewrite (postOrders_dated w reqBody startDate endDate) by done.
    unfold try_catch.
    rewrite (fetchOrders_hit w reqBody startDate endDate fuel st hits) by done.
    simpl. by rewrite NodeCache_get_entries.
  - destruct (postOrders_miss_outcome w reqBody startDate endDate Hsd Hed
                ltac:(done) ltac:(done) fuel st Hget) as (o & st1 & -> & Hout).
    simpl. destruct Hout as [[_ ->]|(allHits & _ & ->)]; [done|].
    by rewrite lookup_insert_ne.
Qed.

Lemma postOrders_cache_hit_witness :
  postOrders (sampleWorld TokenRefused) 0 shortBody cachedState
  = (Val (mkResponse 200 (HitsBody [numberedHit 7])),
     mkServerState initialTokenCache
       (NodeCache.mkCache (NodeCache.entries (orderCache cachedState)) 1 0) []).
Proof.
  apply (postOrders_cache_hit (sampleWorld TokenRefused) 0 shortBody cachedState
           "a" "b" (NodeCache.mkEntry [numberedHit 7] 500 NodeCache.stdTTL));
    [reflexivity|discriminate|reflexivity|discriminate|reflexivity|reflexivity].
Defined.

Lemma repeated_request_is_served_from_cache_witness :
  exists st'',
    postOrders (laterWorld TokenRefused) 0 datedBody
               (postOrders steadyWorld 5 datedBody (sampleState emptySlot)).2
    = (Val (mkResponse 200 (HitsBody (map numberedHit (seq 0 450)))), st'').
Proof.
  destruct (repeated_request_is_served_from_cache
              steadyWorld (laterWorld TokenRefused) 5 0 datedBody
              (sampleState emptySlot)
              (postOrders steadyWorld 5 datedBody (sampleState emptySlot)).2
              "2025-01-01T00:00:00.000Z" "2025-01-31T23:59:59.999Z"
              (map numberedHit (seq 0 450)))
    as (st'' & Hagain & _);
    [reflexivity|discriminate|reflexivity|discriminate|reflexivity
    |vm_compute; reflexivity|discriminate|].
  by exists st''.
Defined.

Lemma postOrders_keeps_other_entries_witness :
  NodeCache.entries (orderCache (postOrders steadyWorld 5 datedBody cachedState).2)
    !! "orders_DEV_a_b_orderType:Prepaid"
  = Some (NodeCache.mkEntry [numberedHit 7] 500 NodeCache.stdTTL).
Proof.
  rewrite (postOrders_keeps_other_entries steadyWorld 5 datedBody cachedState
             "orders_DEV_a_b_orderType:Prepaid"); [reflexivity|discriminate].
Defined.

(** ** The first version of the handler *)

Lemma getAccessToken_frame w environment st st' :
  sameButCache st st' ->
  (getAccessToken w environment st).1 = (getAccessToken w environment st').1
  /\ sameButCache (getAccessToken w environment st).2 (getAccessToken w environment st').2
  /\ orderCache (getAccessToken w environment st).2 = orderCache st.
Proof.
  intros [Htc Hnet]. unfold getAccessToken. run. unfold try_catch, postToken.
  rewrite <- Htc.
  destruct (slotOf (tokenCache st) _) as [envCache|]; [|done].
  destruct (tokenValid envCache (clock_token w)); [done|].
  destruct (oauth w _ _); simpl; unfold sameButCache; simpl; by rewrite Htc, Hnet.
Qed.

(** One turn of the loop. *)
Lemma fetchPages_S w url bearer p fuel n allHits start st :
  fetchPages w (S fuel) url bearer p n allHits start st
  = match order_search w n (withStart p start) with
    | Page hits total =>
        if (Z.of_nat (start + List.length hits) <? total)%Z
           && (Z.of_nat (List.length (allHits ++ hits)) <? total)%Z
        then fetchPages w fuel url bearer p (S n) (allHits ++ hits)
               (start + List.length hits)
               (withRequests st
                  [mkExchange (SearchRequest url bearer (withStart p start)) true])
        else (Val (allHits ++ hits, total),
              withRequests st
                [mkExchange (SearchRequest url bearer (withStart p start)) true])
    | SearchFailed =>
        (Throw AxiosError,
         withRequests st
           [mkExchange (SearchRequest url bearer (withStart p start)) false])
    end.
Proof.
  cbn [fetchPages]. unfold postSearch, mbind, M_bind, bind, record.
  destruct (order_search w n (withStart p start)) as [hits total|]; [|done].
  unfold ret at 1. cbn beta iota. by destruct (_ && _).
Qed.

Lemma fetchPages_frame w url bearer p : forall fuel n allHits start st st',
  sameButCache st st' ->
  (fetchPages w fuel url bearer p n allHits start st).1
  = (fetchPages w fuel url bearer p n allHits start st').1
  /\ sameButCache (fetchPages w fuel url bearer p n allHits start st).2
                  (fetchPages w fuel url bearer p n allHits start st').2
  /\ orderCache (fetchPages w fuel url bearer p n allHits start st).2 = orderCache st.
Proof.
  induction fuel as [|fuel IH]; intros n allHits start st st' Hsame; [done|].
  rewrite !fetchPages_S.
  assert (forall more, sameButCache (withRequests st more) (withRequests st' more))
    as Hmore.
  { intros more. destruct Hsame as [Htc Hnet]. unfold sameButCache, withRequests.
    simpl. by rewrite Htc, Hnet. }
  destruct (order_search w n (withStart p start)) as [hits total|].
  - destruct (_ && _).
    + edestruct IH as (H1 & H2 & H3); [apply Hmore|].
      split; [exact H1|]. split; [exact H2|]. by rewrite H3.
    + simpl. split; [done|]. split; [apply Hmore|done].
  - simpl. split; [done|]. split; [apply Hmore|done].
Qed.

Section HandlerRuns.
Variable w : World.
Variable reqBody : Js.Obj string.
Variables startDate endDate : string.
Hypothesis HstartDate : Js.get "startDate" reqBody = Some startDate.
Hypothesis HendDate : Js.get "endDate" reqBody = Some endDate.
Hypothesis Hstart_given : startDate <> "".
Hypothesis Hend_given : endDate <> "".

Let selectedEnvironment := Js.or_else (Js.get "environment" reqBody) "DEV".
Let requestData := requestDataOf (otherFiltersOf reqBody).
Let cacheKey := generateCacheKey startDate endDate requestData selectedEnvironment.
Let url := (shown (apiBaseUrl
                     (getEnvironmentConfig (processEnv w) (Some selectedEnvironment)))
            ++ "/dw/shop/v24_5/order_search")%string.

(** The run of the handler after a miss, step by step. *)
Lemma postOrders_miss_run fuel st :
  (NodeCache.get cacheKey (clock_lookup w) (orderCache st)).1 = None ->
  postOrders w fuel reqBody st
  = match getAccessToken w (Some selectedEnvironment) (afterLookup w cacheKey st) with
    | (Val token, s1) =>
        match buildTermQueries (Js.lift requestData)
                (getConfigurableTermQueryFields (processEnv w)) with
        | Some termQueries =>
            match fetchPages w fuel url token
                    (mkSearchPayload startDate endDate termQueries pageSize 0)
                    0 [] 0 s1 with
            | (Val fetched, s2) =>
                (Val (mkResponse 200 (HitsBody fetched.1)),
                 mkServerState (tokenCache s2)
                   (NodeCache.set cacheKey fetched.1 (clock_store w) (orderCache s2))
                   (network s2))
            | (Throw _, s2) => (Val serverError, s2)
            | (Unfinished, s2) => (Unfinished, s2)
            end
        | None => (Val serverError, s1)
        end
    | (Throw _, s1) => (Val serverError, s1)
    | (Unfinished, s1) => (Unfinished, s1)
    end.
Proof.
  intros Hmiss.
  rewrite (postOrders_dated w reqBody startDate endDate) by done.
  unfold try_catch.
  rewrite (fetchOrders_miss w reqBody startDate endDate) by done.
  fold selectedEnvironment. fold requestData. fold cacheKey. fold url.
  unfold mbind, M_bind, bind.
  destruct (getAccessToken w (Some selectedEnvironment) (afterLookup w cacheKey st))
    as [[token|e|] s1]; try done.
  destruct (buildTermQueries _ _) as [termQueries|]; [|done].
  unfold orThrow, ret.
  by destruct (fetchPages w fuel url token _ 0 [] 0 s1) as [[fetched|e|] s2].
Qed.

(** The run of the first version of the handler, step by step. *)
Lemma postOrdersV1_run fuel st :
  postOrdersV1 w fuel reqBody st
  = match getAccessToken w (Some selectedEnvironment) st with
    | (Val token, s1) =>
        match fetchPages w fuel url token
                (mkSearchPayload startDate endDate
                   (fixedTermQueries (Js.or_else (Js.get "orderType" reqBody) "Prepaid"))
                   pageSize 0) 0 [] 0 s1 with
        | (Val fetched, s2) => (Val (mkResponse 200 (HitsBody fetched.1)), s2)
        | (Throw _, s2) => (Val serverError, s2)
        | (Unfinished, s2) => (Unfinished, s2)
        end
    | (Throw _, s1) => (Val serverError, s1)
    | (Unfinished, s1) => (Unfinished, s1)
    end.
Proof.
  unfold postOrdersV1, try_catch. rewrite HstartDate, HendDate.
  assert (Js.falsy (Some startDate) || Js.falsy (Some endDate) = false) as ->.
  { simpl. unfold Js.truthy.
    destruct (String.eqb_spec startDate ""); [done|].
    by destruct (String.eqb_spec endDate ""). }
  fold selectedEnvironment. fold url.
  unfold mbind, M_bind, bind.
  destruct (getAccessToken w (Some selectedEnvironment) st) as [[token|e|] s1]; try done.
  change (default "" (Some startDate)) with startDate.
  change (default "" (Some endDate)) with endDate.
  by destruct (fetchPages w fuel url token _ 0 [] 0 s1) as [[fetched|e|] s2].
Qed.

End HandlerRuns.

(** X19: the two versions of POST /api/orders agree where the second does
    not answer from its cache: with [c_smartOrderType] as the one
    configured field and an order type that is absent or not blank,
    both give the same response after the same requests and leave the
    same token cache; the first version never touches the response
    cache. *)
Theorem first_version_agrees_on_miss
    (w : World) (fuel : nat) (reqBody : Js.Obj string) (st : ServerState) :
  Js.wf reqBody ->
  getConfigurableTermQueryFields (processEnv w) = [("order_type", "c_smartOrderType")] ->
  match Js.get "orderType" reqBody with Some v => nonBlank v = true | None => True end ->
  (NodeCache.get
     (generateCacheKey (default "" (Js.get "startDate" reqBody))
                       (default "" (Js.get "endDate" reqBody))
                       (requestDataOf (otherFiltersOf reqBody))
                       (Js.or_else (Js.get "environment" reqBody) "DEV"))
     (clock_lookup w) (orderCache st)).1 = None ->
  (postOrders w fuel reqBody st).1 = (postOrdersV1 w fuel reqBody st).1
  /\ sameButCache (postOrders w fuel reqBody st).2 (postOrdersV1 w fuel reqBody st).2
  /\ orderCache (postOrdersV1 w fuel reqBody st).2 = orderCache st.
Proof.
  intros Hwf Hconf Htype Hmiss.
  destruct (Js.falsy (Js.get "startDate" reqBody) || Js.falsy (Js.get "endDate" reqBody))
    eqn:Hdates.
  { unfold postOrders, postOrdersV1, try_catch. rewrite Hdates. by simpl. }
  apply orb_false_iff in Hdates as [Hs He].
  destruct (Js.get "startDate" reqBody) as [startDate|] eqn:Hsd; [|done].
  destruct (Js.get "endDate" reqBody) as [endDate|] eqn:Hed; [|done].
  simpl in Hs, He, Hmiss. unfold Js.truthy in Hs, He.
  destruct (String.eqb_spec startDate ""); [done|].
  destruct (String.eqb_spec endDate ""); [done|].
  rewrite (postOrders_miss_run w reqBody startDate endDate) by done.
  rewrite (postOrdersV1_run w reqBody startDate endDate) by done.
  rewrite Hconf, buildTermQueries_order_type by done.
  assert (match Js.get "orderType" reqBody with
          | Some v => if nonBlank v then fixedTermQueries v else [statusFilter]
          | None => fixedTermQueries "Prepaid"
          end = fixedTermQueries (Js.or_else (Js.get "orderType" reqBody) "Prepaid"))
    as ->.
  { destruct (Js.get "orderType" reqBody) as [v|]; [|done].
    rewrite Htype. unfold Js.or_else, Js.truthy.
    by destruct (String.eqb_spec v "") as [->|?]. }
  set (selectedEnvironment := Js.or_else (Js.get "environment" reqBody) "DEV").
  set (key := generateCacheKey _ _ _ _) in *.
  assert (sameButCache (afterLookup w key st) st) as Hsame by done.
  destruct (getAccessToken_frame w (Some selectedEnvironment) _ _ Hsame) as (Ho & Hs' & _).
  destruct (getAccessToken_frame w (Some selectedEnvironment) st st ltac:(done))
    as (_ & _ & Hc2).
  destruct (getAccessToken w (Some selectedEnvironment) (afterLookup w key st))
    as [o1 s1].
  destruct (getAccessToken w (Some selectedEnvironment) st) as [o2 s2].
  simpl in Ho, Hs', Hc2. subst o2.
  destruct o1 as [token|e|]; [|done|done].
  match goal with
  | |- context [fetchPages w fuel ?url token ?p 0 [] 0 s1] =>
      destruct (fetchPages_frame w url token p fuel 0 [] 0%nat s1 s2 Hs')
        as (Ho' & Hs'' & _);
      destruct (fetchPages_frame w url token p fuel 0 [] 0%nat s2 s2 ltac:(done))
        as (_ & _ & Hc4);
      destruct (fetchPages w fuel url token p 0 [] 0 s1) as [o3 s3];
      destruct (fetchPages w fuel url token p 0 [] 0 s2) as [o4 s4]
  end.
  simpl in Ho', Hs'', Hc4. subst o4.
  destruct o3 as [fetched|e|]; simpl; (split; [done|]); (split; [done|]);
    by rewrite Hc4.
Qed.

Lemma first_version_agrees_on_miss_witness :
  (postOrders typedWorld 5 datedBody (sampleState emptySlot)).1
  = (postOrdersV1 typedWorld 5 datedBody (sampleState emptySlot)).1
  /\ (postOrdersV1 typedWorld 5 datedBody (sampleState emptySlot)).1
     = Val (mkResponse 200 (HitsBody (map numberedHit (seq 0 450)))).
Proof.
  split; [|vm_compute; reflexivity].
  apply (first_version_agrees_on_miss typedWorld 5 datedBody (sampleState emptySlot));
    [by apply (bool_decide_unpack _)|reflexivity|exact I|reflexivity].
Defined.

(** ** A fresh fetch *)

(** X20: after a miss and with a token at hand, when the builder gives
    the term queries and the order search reaches the reported total
    with the page [k], the handler answers 200 with the hits of the
    pages 0 to [k] in order, and stores them under the key of the
    request with the time of the store; it has sent the [k + 1] page
    requests and no other. When the builder throws, the handler answers
    500 with nothing sent after the token and nothing stored. *)
Theorem postOrders_fetches_and_stores
    (w : World) (fuel : nat) (reqBody : Js.Obj string) (st s1 : ServerState)
    (startDate endDate token : string) :
  let selectedEnvironment := Js.or_else (Js.get "environment" reqBody) "DEV" in
  let requestData := requestDataOf (otherFiltersOf reqBody) in
  let cacheKey := generateCacheKey startDate endDate requestData selectedEnvironment in
  let url := (shown (apiBaseUrl
                       (getEnvironmentConfig (processEnv w) (Some selectedEnvironment)))
              ++ "/dw/shop/v24_5/order_search")%string in
  let built := buildTermQueries (Js.lift requestData)
                 (getConfigurableTermQueryFields (processEnv w)) in
  Js.get "startDate" reqBody = Some startDate -> startDate <> "" ->
  Js.get "endDate" reqBody = Some endDate -> endDate <> "" ->
  (NodeCache.get cacheKey (clock_lookup w) (orderCache st)).1 = None ->
  getAccessToken w (Some selectedEnvironment) (afterLookup w cacheKey st)
  = (Val token, s1) ->
  (forall termQueries k hits total,
     let p := mkSearchPayload startDate endDate termQueries pageSize 0 in
     built = Some termQueries ->
     (forall i, (i < k)%nat -> belowTotal w p i = true) ->
     pageAt w p k = Page hits total ->
     totalReached w p k = true ->
     (k < fuel)%nat ->
     postOrders w fuel reqBody st
     = (Val (mkResponse 200 (HitsBody (gathered w p (S k)))),
        mkServerState (tokenCache s1)
          (NodeCache.set cacheKey (gathered w p (S k)) (clock_store w) (orderCache s1))
          (network s1 ++ pageRequests w url token p 0 (S k))))
  /\ (built = None -> postOrders w fuel reqBody st = (Val serverError, s1)).
Proof.
  intros selectedEnvironment requestData cacheKey url built
         Hsd Hsd' Hed Hed' Hmiss Htoken.
  rewrite (postOrders_miss_run w reqBody startDate endDate) by done.
  fold selectedEnvironment. fold requestData. fold cacheKey. rewrite Htoken.
  fold url. fold built. split.
  - intros termQueries k hits total p Hbuilt Hbelow Hpage Hreached Hfuel.
    rewrite Hbuilt. fold p.
    by rewrite (fetchPages_stops w url token p k fuel s1 hits total).
  - by intros ->.
Qed.

Lemma postOrders_fetches_and_stores_witness :
  (postOrders steadyWorld 5 datedBody (sampleState emptySlot)).1
  = Val (mkResponse 200 (HitsBody (map numberedHit (seq 0 450))))
  /\ (postOrders constructorWorld 5 datedBody (sampleState emptySlot)).1
     = Val serverError.
Proof.
  split.
  - rewrite (proj1 (postOrders_fetches_and_stores
               steadyWorld 5 datedBody (sampleState emptySlot)
               (getAccessToken steadyWorld (Some "DEV")
                  (afterLookup steadyWorld
                     "orders_DEV_2025-01-01T00:00:00.000Z_2025-01-31T23:59:59.999Z_orderType:Prepaid"
                     (sampleState emptySlot))).2
               "2025-01-01T00:00:00.000Z" "2025-01-31T23:59:59.999Z" "t1"
               ltac:(reflexivity) ltac:(discriminate) ltac:(reflexivity)
               ltac:(discriminate) ltac:(reflexivity) ltac:(reflexivity))
             [statusFilter] 2
             (take 200 (drop 400 (map numberedHit (seq 0 450)))) 450%Z);
      [vm_compute; reflexivity|reflexivity| |reflexivity|reflexivity|lia].
    intros i Hi. destruct i as [|[|i]]; [reflexivity|reflexivity|lia].
  - rewrite (proj2 (postOrders_fetches_and_stores
               constructorWorld 5 datedBody (sampleState emptySlot)
               (getAccessToken constructorWorld (Some "DEV")
                  (afterLookup constructorWorld
                     "orders_DEV_2025-01-01T00:00:00.000Z_2025-01-31T23:59:59.999Z_orderType:Prepaid"
                     (sampleState emptySlot))).2
               "2025-01-01T00:00:00.000Z" "2025-01-31T23:59:59.999Z" "t1"
               ltac:(reflexivity) ltac:(discriminate) ltac:(reflexivity)
               ltac:(discriminate) ltac:(reflexivity) ltac:(reflexivity)));
      reflexivity.
Defined.

(** ** The cache routes together *)

(** X21: after DELETE /api/cache/clear the statistics route lists no key
    and changes nothing, and deleting any key answers 404. *)
Theorem cache_is_empty_after_clear (st : ServerState) (key : string) :
  exists cleared st' r,
    clearCache st = (Val cleared, st')
    /\ getCacheStats st' = (Val r, st')
    /\ totalKeys r = 0%nat
    /\ stats_keys r = []
    /\ clearCacheKey key st'
       = (Val (mkResponse 404
                 (DeletedBody ("Cache entry for key '" ++ key ++ "' not found.") false)),
          st').
Proof.
  unfold clearCache, getCacheStats, clearCacheKey, NodeCache.del, NodeCache.flushAll.
  unfold mbind, M_bind, bind, getState, putOrderCache. simpl.
  eexists _, _, _. split; [done|]. split; [done|]. simpl.
  unfold NodeCache.keys. simpl. rewrite map_to_list_empty. simpl.
  by rewrite lookup_empty.
Qed.

(** ** Page requests that fail or bring nothing *)

(** X22: a page request that fails ends the fetch by an error with that
    request: the pages gathered before are dropped and no further page
    is asked for. *)
Theorem fetch_ends_at_failed_page
    (w : World) (url bearer : string) (p : SearchPayload) (st : ServerState)
    (k fuel : nat) :
  (forall i, (i < k)%nat -> belowTotal w p i = true) ->
  pageAt w p k = SearchFailed ->
  (k < fuel)%nat ->
  fetchPages w fuel url bearer p 0 [] 0 st
  = (Throw AxiosError, withRequests st (pageRequests w url bearer p 0 (S k)))
  /\ List.length (pageRequests w url bearer p 0 (S k)) = S k.
Proof.
  intros Hbelow Hpage Hfuel. split.
  - exact (fetchPages_fails w url bearer p k 0 fuel st
             (fun i Hi => Hbelow i (proj2 Hi)) Hpage Hfuel).
  - unfold pageRequests. by rewrite length_map, length_seq.
Qed.

Lemma fetch_ends_at_failed_page_witness :
  fetchPages (worldOf TokenRefused failingSecondSearch) 5 sampleSearchUrl "t1"
             samplePayload 0 [] 0 (sampleState emptySlot)
  = (Throw AxiosError,
     withRequests (sampleState emptySlot)
       [ mkExchange (SearchRequest sampleSearchUrl "t1" (withStart samplePayload 0)) true;
         mkExchange (SearchRequest sampleSearchUrl "t1" (withStart samplePayload 200))
                    false ]).
Proof.
  refine (proj1 (fetch_ends_at_failed_page (worldOf TokenRefused failingSecondSearch)
                   sampleSearchUrl "t1" samplePayload (sampleState emptySlot) 1 5 _ _ _));
    [|reflexivity|lia].
  intros i Hi. destruct i as [|i]; [reflexivity|lia].
Defined.

(** X23: an order search that keeps answering with an empty page and a
    total above zero keeps the loop going for ever: whatever the number
    of turns allowed, the fetch is unfinished after that many requests,
    all of them at offset 0. *)
Theorem fetch_never_ends_on_empty_pages
    (w : World) (url bearer : string) (p : SearchPayload) (st : ServerState)
    (total : Z) (fuel : nat) :
  order_search w = (fun _ _ => Page [] total) ->
  (0 < total)%Z ->
  fetchPages w fuel url bearer p 0 [] 0 st
  = (Unfinished,
     withRequests st
       (repeat (mkExchange (SearchRequest url bearer (withStart p 0)) true) fuel)).
Proof.
  intros Hsearch Htotal.
  assert (forall n, offsetAt w p n = 0%nat) as Hoff.
  { induction n as [|n IH]; [done|].
    rewrite offsetAt_S, IH. unfold pageAt. by rewrite Hsearch. }
  rewrite (fetchPages_unfinished w url bearer p fuel st).
  - do 2 f_equal.
    assert (forall len n,
              pageRequests w url bearer p n len
              = repeat (mkExchange (SearchRequest url bearer (withStart p 0)) true) len)
      as Hall; [|apply Hall].
    unfold pageRequests, pageRequest.
    induction len as [|len IH]; intros n; [done|].
    simpl. rewrite IH. f_equal. unfold pageAt. by rewrite Hoff, Hsearch.
  - intros i _. unfold belowTotal, pageAt.
    rewrite Hsearch, Hoff. by apply Z.ltb_lt.
Qed.

Lemma fetch_never_ends_on_empty_pages_witness :
  (fetchPages (worldOf TokenRefused emptySearch) 7 sampleSearchUrl "t1"
              samplePayload 0 [] 0 (sampleState emptySlot)).1
  = Unfinished.
Proof.
  rewrite (fetch_never_ends_on_empty_pages (worldOf TokenRefused emptySearch)
             sampleSearchUrl "t1" samplePayload (sampleState emptySlot) 5 7);
    [reflexivity|reflexivity|reflexivity].
Defined.

(** ** A missing configuration *)

(** X24: the configuration of an environment is not checked before it is
    used: without the three variables of the environment the token
    request is still sent, to an address made of the text undefined and
    without an authorization. *)
Theorem token_request_without_configuration
    (w : World) (environment : option string) (st : ServerState)
    (envCache : TokenSlot) :
  let cacheKey := Js.toUpperCase (Js.or_else environment "DEV") in
  slotOf (tokenCache st) cacheKey = Some envCache ->
  tokenValid envCache (clock_token w) = false ->
  Js.get ("API_BASE_URL_" ++ cacheKey) (processEnv w) = None ->
  Js.get ("CLIENT_ID_" ++ cacheKey) (processEnv w) = None ->
  Js.get ("AUTH_HEADER_" ++ cacheKey) (processEnv w) = None ->
  exists o st' ok,
    getAccessToken w environment st = (o, st')
    /\ network st'
       = network st
         ++ [mkExchange
               (TokenRequest "undefined/dw/oauth2/access_token?client_id=undefined" None)
               ok].
Proof.
  intros cacheKey Hslot Hinv Hurl Hid Hauth.
  destruct (getAccessToken_exchanges w environment st envCache Hslot Hinv)
    as (o & st' & ok & Hrun & Hnet).
  exists o, st', ok. split; [exact Hrun|]. rewrite Hnet.
  unfold getEnvironmentConfig. cbn zeta.
  rewrite or_else_Some_or_else by done. fold cacheKey.
  cbn [apiBaseUrl clientId authHeader]. by rewrite Hurl, Hid, Hauth.
Qed.

Lemma token_request_without_configuration_witness :
  exists o st' ok,
    getAccessToken bareWorld (Some "prd") (sampleState emptySlot) = (o, st')
    /\ network st'
       = [mkExchange
            (TokenRequest "undefined/dw/oauth2/access_token?client_id=undefined" None)
            ok].
Proof.
  exact (token_request_without_configuration bareWorld (Some "prd")
           (sampleState emptySlot) emptySlot eq_refl eq_refl eq_refl eq_refl eq_refl).
Defined.
